(** * pygadget: the GADGET snapshot and catalogue readers

    A shallow embedding of [pygadget.py]: the snapshot header reader, the
    block layout computation, the validated block reader, the identifier
    filter and the FOF / Subfind catalogue loaders, followed by the
    properties of the layout arithmetic and of the record-marker checks.

    Conventions of the embedding.
    - A file is the list of its bytes; an open file object is that list
      together with a position, threaded through the reads and seeks.
    - Python exceptions are the [Err] results of an error monad.
    - Python dictionaries keyed by strings are association lists.
    - Values decoded as IEEE-754 floats ('f4', 'f8', 'd') are kept as the
      integer of their bit pattern; the only float operations of the code
      under study are the comparison with zero and the NaN test, both
      written out on the bit pattern.
    - The host is little-endian: a format without byte-order character
      ([unpack('i', ...)], dtype "i4") decodes least significant byte first. *)

From Stdlib Require Import ZArith List String Ascii Strings.Byte Bool Lia.
From Stdlib Require Import Sorting.Sorted Sorting.Permutation Sorting.Mergesort.
From Stdlib Require Import Structures.Orders.
Import ListNotations.

Open Scope string_scope.
Open Scope Z_scope.

(** ** Exceptions and the error monad *)

Inductive error : Type :=
| NameError (msg : string)
| KeyError (key : string)
| ValueError (msg : string)
| IndexError
| StructError
| IOError.

Inductive result (A : Type) : Type :=
| Ok (a : A)
| Err (e : error).

Arguments Ok {A} a.
Arguments Err {A} e.

Definition rbind {A B} (m : result A) (k : A -> result B) : result B :=
  match m with
  | Ok a => k a
  | Err e => Err e
  end.

Declare Scope res_scope.
Delimit Scope res_scope with res.
Notation "x <- m ;; k" := (rbind m (fun x => k))
  (at level 61, m at next level, right associativity) : res_scope.
Notation "' pat <- m ;; k" := (rbind m (fun x => match x with pat => k end))
  (at level 61, pat pattern, m at next level, right associativity) : res_scope.

Definition is_ok {A} (r : result A) : bool :=
  match r with Ok _ => true | Err _ => false end.

(** A loop whose body may raise. *)
Fixpoint foldM {A B} (body : A -> B -> result A) (l : list B) (a : A)
  : result A :=
  match l with
  | [] => Ok a
  | x :: l' => rbind (body a x) (foldM body l')
  end.

(** ** Dictionaries keyed by strings *)

Module Dict.
Definition t (V : Type) := list (string * V).

Fixpoint get {V} (d : t V) (k : string) : option V :=
  match d with
  | [] => None
  | (k', v) :: d' => if String.eqb k k' then Some v else get d' k
  end.

(** [d[k] = v] *)
Fixpoint set {V} (d : t V) (k : string) (v : V) : t V :=
  match d with
  | [] => [(k, v)]
  | (k', v') :: d' =>
      if String.eqb k k' then (k', v) :: d' else (k', v') :: set d' k v
  end.

(** [k in d] *)
Definition mem {V} (k : string) (d : t V) : bool :=
  match get d k with Some _ => true | None => false end.

(** [d[k]] as an expression: raises [KeyError] on a missing key. *)
Definition getitem {V} (d : t V) (k : string) : result V :=
  match get d k with
  | Some v => Ok v
  | None => Err (KeyError k)
  end.

Definition keys {V} (d : t V) : list string := map fst d.
End Dict.

(** [l.index(x)] on a list of strings. *)
Fixpoint list_index (l : list string) (x : string) : result nat :=
  match l with
  | [] => Err (ValueError "not in list")
  | y :: l' =>
      if String.eqb x y then Ok O
      else rbind (list_index l' x) (fun n => Ok (S n))
  end.

Definition str_in (x : string) (l : list string) : bool :=
  existsb (String.eqb x) l.

(** ** Bytes and [struct.unpack] *)

Inductive endian : Type := Little | Big.

Definition byte_val (b : byte) : Z := Z.of_N (Byte.to_N b).

Fixpoint le_bytes (l : list byte) : Z :=
  match l with
  | [] => 0
  | b :: r => byte_val b + 256 * le_bytes r
  end.

Definition uint_of (s : endian) (l : list byte) : Z :=
  match s with
  | Little => le_bytes l
  | Big => le_bytes (rev l)
  end.

Definition to_signed (width : Z) (z : Z) : Z :=
  if z <? 2 ^ (width - 1) then z else z - 2 ^ width.

(** [unpack(s + 'I', data)[0]] *)
Definition unpack_I (s : endian) (data : list byte) : result Z :=
  if (List.length data =? 4)%nat then Ok (uint_of s data) else Err StructError.

(** [unpack(s + 'i', data)[0]] *)
Definition unpack_i (s : endian) (data : list byte) : result Z :=
  if (List.length data =? 4)%nat then Ok (to_signed 32 (uint_of s data))
  else Err StructError.

(** [unpack(s + 'd', data)[0]], as the bit pattern of the double. *)
Definition unpack_d (s : endian) (data : list byte) : result Z :=
  if (List.length data =? 8)%nat then Ok (uint_of s data) else Err StructError.

(** [x == 0] on a double given by its bit pattern: true for +0.0 and -0.0. *)
Definition double_is_zero (bits : Z) : bool :=
  Z.land bits 0x7FFFFFFFFFFFFFFF =? 0.

(** A NaN on a single given by its bit pattern. *)
Definition single_is_nan (bits : Z) : bool :=
  (Z.land (Z.shiftr bits 23) 0xFF =? 0xFF) && negb (Z.land bits 0x7FFFFF =? 0).

(** ** File objects *)

Definition file := list byte.
Bind Scope list_scope with file.

(** The bytes of [f] in [[p, p+n)], cut at the end of the file. *)
Definition sub (f : file) (p n : Z) : list byte :=
  firstn (Z.to_nat n) (skipn (Z.to_nat p) f).

(** An operation on an open file: from the position to a value and the new
    position, or an exception. *)
Definition IO (A : Type) := Z -> result (A * Z).

Definition ioret {A} (a : A) : IO A := fun pos => Ok (a, pos).

Definition iobind {A B} (m : IO A) (k : A -> IO B) : IO B :=
  fun pos =>
    match m pos with
    | Ok (a, pos') => k a pos'
    | Err e => Err e
    end.

Definition lift {A} (r : result A) : IO A :=
  fun pos => match r with Ok a => Ok (a, pos) | Err e => Err e end.

Definition raise {A} (e : error) : IO A := fun _ => Err e.

(** [with open(name, 'rb') as f: body] *)
Definition run {A} (m : IO A) : result A :=
  match m 0 with
  | Ok (a, _) => Ok a
  | Err e => Err e
  end.

Declare Scope io_scope.
Delimit Scope io_scope with io.
Notation "x <- m ;; k" := (iobind m (fun x => k))
  (at level 61, m at next level, right associativity) : io_scope.
Notation "m ;;; k" := (iobind m (fun _ => k))
  (at level 61, right associativity) : io_scope.

Section FileObject.
Variable f : file.

(** [f.read(n)] *)
Definition f_read (n : Z) : IO (list byte) :=
  fun pos =>
    let data := sub f pos n in
    Ok (data, pos + Z.of_nat (List.length data)).

(** [f.seek(offset, 0)] *)
Definition f_seek_set (offset : Z) : IO unit :=
  fun _ => if offset <? 0 then Err IOError else Ok (tt, offset).

(** [f.seek(offset, 1)] *)
Definition f_seek_cur (offset : Z) : IO unit :=
  fun pos => if pos + offset <? 0 then Err IOError else Ok (tt, pos + offset).

(** [for key in keys: data = f.read(n); d[key] = unpack(fmt, data)[0]] *)
Fixpoint read_dict (n : Z) (unpack : list byte -> result Z)
         (keys : list string) (d : Dict.t Z) : IO (Dict.t Z) :=
  match keys with
  | [] => ioret d
  | key :: keys' =>
      (data <- f_read n ;;
       v <- lift (unpack data) ;;
       read_dict n unpack keys' (Dict.set d key v))%io
  end.
End FileObject.


(** ** The [Simulation] class *)

Definition particle_keys : list string :=
  ["gas"; "halo"; "disk"; "bulge"; "stars"; "bndry"].

Definition element_keys : list string :=
  ["He"; "C"; "Mg"; "O"; "Fe"; "Si"; "H"; "N"; "Ne"; "S"; "Ca"; "Zi"].

Definition block_keys : list string :=
  ["header"; "pos"; "vel"; "id"; "mass"; "u"; "rho"; "ne"; "nh"; "hsml";
   "sfr"; "age"; "metals"; "pot"; "accel"; "endt"; "tstp"; "esn"; "esncold"].

(** The attributes of a [Simulation] object. The float attributes hold bit
    patterns; the flags hold integers ([True] is 1, [False] is 0). *)
Record Simulation : Type := mkSimulation {
  use_longids : bool;
  flags : Dict.t Z;
  swap : endian;
  particle_numbers : Dict.t Z;
  particle_mass : Dict.t Z;
  cosmic_time : Z;
  redshift : Z;
  particle_total_numbers : Dict.t Z;
  file_number : Z;
  box_size : Z;
  omega_matter : Z;
  omega_lambda : Z;
  h : Z;
  particle_total_numbers_hw : Dict.t Z;
  block_sizes : Dict.t Z
}.

Definition set_block_sizes (self : Simulation) (bs : Dict.t Z) : Simulation :=
  mkSimulation (use_longids self) (flags self) (swap self)
    (particle_numbers self) (particle_mass self) (cosmic_time self)
    (redshift self) (particle_total_numbers self) (file_number self)
    (box_size self) (omega_matter self) (omega_lambda self) (h self)
    (particle_total_numbers_hw self) bs.

Definition of_bool (b : bool) : Z := if b then 1 else 0.

(** Truth value of an integer. *)
Definition truthy (z : Z) : bool := negb (z =? 0).

(** [if self.flags[name]: d[key] = v] for each key. *)
Definition set_if_flag (self : Simulation) (name : string)
  (entries : list (string * Z)) (d : Dict.t Z) : result (Dict.t Z) :=
  (fl <- Dict.getitem (flags self) name ;;
   Ok (if truthy fl
       then fold_left (fun d kv => Dict.set d (fst kv) (snd kv)) entries d
       else d))%res.

(** The body of the first loop of [_file_structure]:
    [number = self.particle_numbers[key]; total_number += number;
     if (number != 0 and self.particle_mass[key] == 0): mass_number += number] *)
Definition count_particles (self : Simulation) (acc : Z * Z) (key : string)
  : result (Z * Z) :=
  (let '(total_number, mass_number) := acc in
   number <- Dict.getitem (particle_numbers self) key ;;
   let total_number := total_number + number in
   if negb (number =? 0) then
     m <- Dict.getitem (particle_mass self) key ;;
     if double_is_zero m
     then Ok (total_number, mass_number + number)
     else Ok (total_number, mass_number)
   else Ok (total_number, mass_number))%res.

(** [Simulation._file_structure]: the byte size of every block. *)
Definition _file_structure (self : Simulation) : result Simulation :=
  ('(total_number, mass_number) <-
     foldM (count_particles self) particle_keys (0, 0) ;;
   let data_size := 4 in
   let dims := 3 in
   let metals := Z.of_nat (List.length element_keys) in
   let size := total_number * data_size in
   let size_space := size * dims in
   let size_mass := mass_number * data_size in
   n_gas <- Dict.getitem (particle_numbers self) "gas" ;;
   let size_gas := n_gas * data_size in
   n_stars <- Dict.getitem (particle_numbers self) "stars" ;;
   let size_stars := n_stars * data_size in
   let size_baryons := size_gas + size_stars in
   let size_metals := size_baryons * metals in
   let bs := [] in
   let bs := Dict.set bs "header" 256 in
   let bs := Dict.set bs "pos" size_space in
   let bs := Dict.set bs "vel" size_space in
   let bs := if use_longids self
             then Dict.set bs "id" (size * 2)
             else Dict.set bs "id" size in
   let bs := Dict.set bs "mass" size_mass in
   let bs := Dict.set bs "u" size_gas in
   let bs := Dict.set bs "rho" size_gas in
   bs <- set_if_flag self "cooling" [("ne", size_gas); ("nh", size_gas)] bs ;;
   let bs := Dict.set bs "hsml" size_gas in
   bs <- set_if_flag self "sfr" [("sfr", size_gas)] bs ;;
   bs <- set_if_flag self "stellar_age" [("age", size_stars)] bs ;;
   bs <- set_if_flag self "metals" [("metals", size_metals)] bs ;;
   bs <- set_if_flag self "pot" [("pot", size)] bs ;;
   bs <- set_if_flag self "accel" [("accel", size_space)] bs ;;
   bs <- set_if_flag self "endt" [("endt", size_gas)] bs ;;
   bs <- set_if_flag self "tstp" [("tstp", size)] bs ;;
   bs <- set_if_flag self "feedback"
           [("esn", size_baryons); ("esncold", size_baryons)] bs ;;
   Ok (set_block_sizes self bs))%res.

Definition size_swaped : Z := 65536.
Definition size_checked : Z := 256.
Definition size_used : Z := 196.
Definition size_unused : Z := size_checked - size_used.

Section SimulationFile.
Variable f : file.

(** [data = f.read(n); x = unpack(fmt, data)[0]] *)
Definition read_val (n : Z) (unpack : list byte -> result Z) : IO Z :=
  (data <- f_read f n ;; lift (unpack data))%io.

(** [Simulation._read_header]: the body between [open] and [close]. *)
Definition _read_header_io (self : Simulation) : IO Simulation :=
  (size <- read_val 4 (unpack_i Little) ;;
   s <- (if size =? size_swaped then ioret Big
         else if size =? size_checked then ioret Little
         else raise (NameError "Error reading header in file")) ;;
   particle_numbers <- read_dict f 4 (unpack_I s) particle_keys [] ;;
   particle_mass <- read_dict f 8 (unpack_d s) particle_keys [] ;;
   cosmic_time <- read_val 8 (unpack_d s) ;;
   redshift <- read_val 8 (unpack_d s) ;;
   fl_sfr <- read_val 4 (unpack_i s) ;;
   let flags := Dict.set (flags self) "sfr" fl_sfr in
   fl_feedback <- read_val 4 (unpack_i s) ;;
   let flags := Dict.set flags "feedback" fl_feedback in
   particle_total_numbers <- read_dict f 4 (unpack_I s) particle_keys [] ;;
   fl_cooling <- read_val 4 (unpack_i s) ;;
   let flags := Dict.set flags "cooling" fl_cooling in
   file_number <- read_val 4 (unpack_i s) ;;
   box_size <- read_val 8 (unpack_d s) ;;
   omega_matter <- read_val 8 (unpack_d s) ;;
   omega_lambda <- read_val 8 (unpack_d s) ;;
   h <- read_val 8 (unpack_d s) ;;
   fl_stellar_age <- read_val 4 (unpack_i s) ;;
   let flags := Dict.set flags "stellar_age" fl_stellar_age in
   fl_metals <- read_val 4 (unpack_i s) ;;
   let flags := Dict.set flags "metals" fl_metals in
   particle_total_numbers_hw <- read_dict f 4 (unpack_i s) particle_keys [] ;;
   fl_entr_ics <- read_val 4 (unpack_i s) ;;
   let flags := Dict.set flags "entr_ics" fl_entr_ics in
   f_read f size_unused ;;;
   size <- read_val 4 (unpack_i s) ;;
   if negb (size =? size_checked)
   then raise (NameError "Error reading header in file")
   else ioret (mkSimulation (use_longids self) flags s particle_numbers
                 particle_mass cosmic_time redshift particle_total_numbers
                 file_number box_size omega_matter omega_lambda h
                 particle_total_numbers_hw (block_sizes self)))%io.

(** [Simulation._read_header]: parse the header, then compute the layout. *)
Definition _read_header (self : Simulation) : result Simulation :=
  (self' <- run (_read_header_io self) ;; _file_structure self')%res.

(** One iteration of the loop of [_file_check]. *)
Definition _file_check_block (self : Simulation) (key : string) : IO unit :=
  if Dict.mem key (block_sizes self) then
    match Dict.get (block_sizes self) key with
    | Some size =>
        if 0 <? size then
          (size_check <- read_val 4 (unpack_I (swap self)) ;;
           if negb (size_check =? size)
           then raise (NameError ("Error in block: " ++ key))
           else
             f_seek_cur size ;;;
             size_check <- read_val 4 (unpack_I (swap self)) ;;
             if negb (size_check =? size)
             then raise (NameError ("Error in block: " ++ key))
             else ioret tt)%io
        else ioret tt
    | None => raise (KeyError key)
    end
  else ioret tt.

Fixpoint _file_check_loop (self : Simulation) (keys : list string) : IO unit :=
  match keys with
  | [] => ioret tt
  | key :: keys' =>
      (_file_check_block self key ;;; _file_check_loop self keys')%io
  end.

(** [Simulation._file_check] *)
Definition _file_check (self : Simulation) : result unit :=
  run (_file_check_loop self block_keys).

(** The object before its header is read: only [use_longids] and the four
    flags given to [__init__] are set; the other attributes do not exist yet
    and are all written by [_read_header], the first method [__init__]
    calls. No method reads them before. *)
Definition new_simulation (longids : bool) (flags : Dict.t Z) : Simulation :=
  mkSimulation longids flags Little [] [] 0 0 [] 0 0 0 0 0 [] [].

(** [Simulation.__init__] on the snapshot file [f] (a single-file snapshot:
    [multiple_files] only changes which file name is opened). *)
Definition __init__ (pot accel endt tstp skip_file_check longids : bool)
  : result Simulation :=
  (let flags := [] in
   let flags := Dict.set flags "pot" (of_bool pot) in
   let flags := Dict.set flags "accel" (of_bool accel) in
   let flags := Dict.set flags "endt" (of_bool endt) in
   let flags := Dict.set flags "tstp" (of_bool tstp) in
   let self := new_simulation longids flags in
   self <- _read_header self ;;
   if negb skip_file_check
   then (_ <- _file_check self ;; Ok self)
   else Ok self)%res.

End SimulationFile.

(** ** Arrays and tables (numpy and pandas, as far as [read_block] uses them) *)

(** A numpy array: its items in row-major order, and its shape. *)
Record ndarray : Type := mkArray {
  nd_data : list Z;
  nd_shape : list Z
}.

(** The [i]-th group of [k] consecutive items of [l]. *)
Definition chunk {A} (k : nat) (l : list A) (i : nat) : list A :=
  firstn k (skipn (i * k) l).

Definition chunks {A} (k : nat) (l : list A) (n : nat) : list (list A) :=
  map (chunk k l) (seq 0 n).

(** [fromstring(data, dtype)] for an integer or float dtype of [itemsize]
    bytes and byte order [s]: a one-dimensional array, or [ValueError] when
    the length of [data] is not a multiple of the item size. *)
Definition fromstring (s : endian) (itemsize : nat) (data : list byte)
  : result ndarray :=
  if (List.length data mod itemsize =? 0)%nat then
    let n := (List.length data / itemsize)%nat in
    Ok (mkArray (map (uint_of s) (chunks itemsize data n)) [Z.of_nat n])
  else Err (ValueError "string size must be a multiple of element size").

(** [block.shape = shape]: the total size must not change. *)
Definition set_shape (block : ndarray) (shape : list Z) : result ndarray :=
  if forallb (fun d => 0 <=? d) shape
     && (fold_right Z.mul 1 shape =? Z.of_nat (List.length (nd_data block)))
  then Ok (mkArray (nd_data block) shape)
  else Err (ValueError "total size of new array must be unchanged").

(** What [read_block] returns: a table with its column names, its index
    labels and its rows, or a series with the default index 0, 1, ...;
    a series with explicit labels is what a selection by label returns. *)
Inductive pdobj : Type :=
| DataFrame (columns : list string) (index : list Z) (rows : list (list Z))
| Series (name : string) (values : list Z)
| IndexedSeries (name : string) (index : list Z) (values : list Z).

(** The rows of an array seen as a table: a one-dimensional array of [n]
    items is a table of [n] rows and one column. *)
Definition table_of (block : ndarray) : result (list (list Z) * Z * Z) :=
  match nd_shape block with
  | [n] => Ok (map (fun x => [x]) (nd_data block), n, 1)
  | [r; c] =>
      Ok (chunks (Z.to_nat c) (nd_data block) (Z.to_nat r), r, c)
  | _ => Err (ValueError "Must pass 2-d input")
  end.

(** [pd.DataFrame(block, columns=columns, index=index)]: the shape of the
    values must be (number of index labels, number of columns). *)
Definition pd_DataFrame (block : ndarray) (columns : list string)
  (index : list Z) : result pdobj :=
  ('(rows, r, c) <- table_of block ;;
   if (c =? Z.of_nat (List.length columns))
      && (r =? Z.of_nat (List.length index))
   then Ok (DataFrame columns index rows)
   else Err (ValueError "Shape of passed values does not match indices"))%res.

(** [pd.Series(block, name=name)] *)
Definition pd_Series (block : ndarray) (name : string) : result pdobj :=
  match nd_shape block with
  | [_] => Ok (Series name (nd_data block))
  | _ => Err (ValueError "Data must be 1-dimensional")
  end.

(** [ids.values] *)
Definition pd_values (o : pdobj) : list Z :=
  match o with
  | Series _ v => v
  | IndexedSeries _ _ v => v
  | DataFrame _ _ rows => List.concat rows
  end.

(** ** Reading a block *)

(** The first part of [Simulation._compute_offset]: the dictionary
    [particle_number] of the particle types the block holds, and [dim]. *)
Definition _block_domain (self : Simulation) (block_type : string)
  : result (Dict.t Z * Z) :=
  (let particle_number : Dict.t Z := [] in
   let dim := 1 in
   if str_in block_type ["id"; "pos"; "vel"; "accel"; "pot"; "tstp"] then
     let particle_number := particle_numbers self in
     let dim := if str_in block_type ["pos"; "vel"; "accel"] then 3 else dim in
     let dim := if str_in block_type ["id"] && use_longids self
                then 2 else dim in
     Ok (particle_number, dim)
   else if str_in block_type
             ["u"; "rho"; "ne"; "nh"; "hsml"; "sfr"; "endt"] then
     particle_number <-
       foldM (fun d key => n <- Dict.getitem (particle_numbers self) key ;;
                           Ok (Dict.set d key n)) ["gas"] particle_number ;;
     Ok (particle_number, dim)
   else if str_in block_type ["esn"; "esncold"; "metals"] then
     particle_number <-
       foldM (fun d key => n <- Dict.getitem (particle_numbers self) key ;;
                           Ok (Dict.set d key n))
             ["gas"; "stars"] particle_number ;;
     let dim := if str_in block_type ["metals"]
                then Z.of_nat (List.length element_keys) else dim in
     Ok (particle_number, dim)
   else if str_in block_type ["mass"] then
     particle_number <-
       foldM (fun d key =>
                m <- Dict.getitem (particle_mass self) key ;;
                if double_is_zero m then
                  n <- Dict.getitem (particle_numbers self) key ;;
                  if negb (n =? 0) then Ok (Dict.set d key n) else Ok d
                else Ok d)
             particle_keys particle_number ;;
     Ok (particle_number, dim)
   else if str_in block_type ["age"] then
     particle_number <-
       foldM (fun d key => n <- Dict.getitem (particle_numbers self) key ;;
                           Ok (Dict.set d key n)) ["stars"] particle_number ;;
     Ok (particle_number, dim)
   else Ok (particle_number, dim))%res.

(** [for key in keys: if key in particle_number: acc += particle_number[key]] *)
Definition sum_present (particle_number : Dict.t Z) (keys : list string) : Z :=
  fold_left (fun acc key =>
               match Dict.get particle_number key with
               | Some n => acc + n
               | None => acc
               end) keys 0.

(** [Simulation._compute_offset]: (offset, read_size, remainder). *)
Definition _compute_offset (self : Simulation) (block_type particle_type : string)
  : result (Z * Z * Z) :=
  ('(particle_number, dim) <- _block_domain self block_type ;;
   order <- list_index particle_keys particle_type ;;
   let offset := sum_present particle_number (firstn order particle_keys) in
   let remainder :=
     sum_present particle_number (skipn (order + 1) particle_keys) in
   let dim := dim * 4 in
   n <- Dict.getitem particle_number particle_type ;;
   let read_size := n * dim in
   let offset := offset * dim in
   let remainder := remainder * dim in
   Ok (offset, read_size, remainder))%res.

(** The byte position [read_block] seeks to before reading a block:
    [for key in self.block_keys[0:order]: try: skip += self.block_sizes[key] + 8
     except: pass] *)
Definition read_block_skip (self : Simulation) (order : nat) : Z :=
  fold_left (fun skip key =>
               match Dict.get (block_sizes self) key with
               | Some size => skip + (size + 8)
               | None => skip
               end) (firstn order block_keys) 0.

Section ReadBlock.
Variable f : file.

(** The body of the [with open(...)] statement of [read_block]: the bytes of
    the block that belong to the particle type. [s] is the local variable
    [s] of the method, the byte order the record markers are decoded with. *)
Definition read_block_io (s : endian) (self : Simulation)
  (block_type particle_type : string) : IO (list byte) :=
  (size <- lift (Dict.getitem (block_sizes self) block_type) ;;
   order <- lift (list_index block_keys block_type) ;;
   let skip := read_block_skip self order in
   f_seek_set skip ;;;
   size_check <- read_val f 4 (unpack_I s) ;;
   if negb (size_check =? size)
   then raise (NameError ("Error reading block: " ++ block_type))
   else
     t <- lift (_compute_offset self block_type particle_type) ;;
     let '(offset, read_size, remainder) := t in
     f_seek_cur offset ;;;
     data_block <- f_read f read_size ;;
     f_seek_cur remainder ;;;
     size_check <- read_val f 4 (unpack_I s) ;;
     if negb (size_check =? size)
     then raise (NameError ("Error reading block: " ++ block_type))
     else ioret data_block)%io.

(** The second half of [Simulation.read_block], after the [with] statement:
    decode the bytes with the byte order [s], give the array its shape and
    build the table. [rec] stands for the method itself at its inner call
    [self.read_block("id", particle_type)]. *)
Definition read_block_finish (s : endian)
  (rec : Simulation -> string -> string -> result pdobj)
  (self : Simulation) (block_type particle_type : string)
  (data_block : list byte) : result pdobj :=
  (let itemsize :=
     if str_in block_type ["id"]
     then (if use_longids self then 8%nat else 4%nat)
     else 4%nat in
   block <- fromstring s itemsize data_block ;;
   ydim <- Dict.getitem (particle_numbers self) particle_type ;;
   let shape :=
     if str_in block_type ["pos"; "vel"; "acc"] then [ydim; 3]
     else if str_in block_type ["metals"]
          then [ydim; Z.of_nat (List.length element_keys)]
          else nd_shape block in
   block <- set_shape block shape ;;
   let columns :=
     if str_in block_type ["pos"; "vel"; "accel"] then ["x"; "y"; "z"]
     else if str_in block_type ["metals"] then element_keys
          else [block_type] in
   if negb (String.eqb block_type "id") then
     ids <- rec self "id" particle_type ;;
     pd_DataFrame block columns (pd_values ids)
   else pd_Series block "id")%res.

(** [Simulation.read_block] with [iter_files=False]:
    [s = self.swap; self._read_header(); ...]. The byte order [s] is taken
    from the object before its header attributes are read again from the
    file; the sizes, the counts and the inner call are those of the object
    after the header read. *)
Definition read_block_body (rec : Simulation -> string -> string -> result pdobj)
  (self : Simulation) (block_type particle_type : string) : result pdobj :=
  (let s := swap self in
   self <- _read_header f self ;;
   data_block <- run (read_block_io s self block_type particle_type) ;;
   read_block_finish s rec self block_type particle_type data_block)%res.

(** The inner call has block type "id" and makes no further call, so two
    unfoldings of the body are the whole method. *)
Definition read_block (self : Simulation) (block_type particle_type : string)
  : result pdobj :=
  read_block_body
    (read_block_body (fun _ _ _ => Err (ValueError "unreachable")))
    self block_type particle_type.

End ReadBlock.

(** ** Filtering by identifier

    The numpy and pandas operations of [filter_bloc_by_ids], each by its
    documented behaviour: [argsort] is a stable sort of the positions by
    value; [searchsorted] with side "left" gives, for a sorted view, the
    number of items below the value; [unique] sorts and removes repeats;
    [.iloc] selects by position; [.loc] with a list of labels gives the rows
    of each label in the order of the list, a row of NaN for a label that is
    absent, and raises when the list is not empty and no label is present;
    [.dropna()] removes the rows that hold a NaN. This is [.loc] as the
    program uses it, with [.dropna()] to remove the rows of the absent
    labels (pandas before 1.0). From pandas 1.0 on [.loc] raises [KeyError]
    as soon as one label of the list is absent: the filters then raise in
    more cases, and return the same rows when they return. *)

Module PairOrder <: TotalLeBool.
Definition t : Type := (Z * nat)%type.
Definition leb (x y : t) : bool := fst x <=? fst y.
Theorem leb_total : forall x y, leb x y = true \/ leb y x = true.
Proof.
  intros x y. unfold leb.
  destruct (Z.leb_spec (fst x) (fst y)); [left; reflexivity|].
  right. apply Z.leb_le. lia.
Qed.
End PairOrder.

Module PairSort := Sort PairOrder.

(** [a.argsort()] *)
Definition argsort (a : list Z) : list nat :=
  map snd (PairSort.sort (combine a (seq 0 (List.length a)))).

(** [a.max()] *)
Definition np_max (a : list Z) : result Z :=
  match a with
  | [] => Err (ValueError "zero-size array to reduction operation maximum")
  | x :: r => Ok (fold_left Z.max r x)
  end.

(** [a[sorter]]: the view of [a] through the positions [sorter]. *)
Definition view (a : list Z) (sorter : list nat) : list Z :=
  map (fun p => nth p a 0) sorter.

(** [a.searchsorted(v, sorter=sorter)] for one value. *)
Definition searchsorted (a : list Z) (sorter : list nat) (v : Z) : nat :=
  List.length (filter (fun x => x <? v) (view a sorter)).

(** [unique(i)] *)
Definition np_unique (i : list nat) : list nat :=
  nodup Nat.eq_dec (NatSort.sort i).

(** [l[positions]]: selection by position. *)
Fixpoint take {A} (l : list A) (positions : list nat) : result (list A) :=
  match positions with
  | [] => Ok []
  | p :: ps =>
      match nth_error l p with
      | Some x => rbind (take l ps) (fun xs => Ok (x :: xs))
      | None => Err IndexError
      end
  end.

(** A table as the list of its labelled rows. *)
Definition frame : Type := list (Z * list Z).

Definition has_label (df : frame) (id : Z) : bool :=
  existsb (fun r => fst r =? id) df.

(** [df.loc[ids]]; [None] is a row of NaN. *)
Definition loc (df : frame) (ids : list Z)
  : result (list (Z * option (list Z))) :=
  if negb (List.length ids =? 0)%nat
     && forallb (fun id => negb (has_label df id)) ids
  then Err (KeyError "None of the labels are in the index")
  else
    Ok (flat_map
          (fun id =>
             match filter (fun r => fst r =? id) df with
             | [] => [(id, None)]
             | rs => map (fun r => (fst r, Some (snd r))) rs
             end) ids).

(** [.dropna()] *)
Definition dropna (is_nan : Z -> bool)
  (rows : list (Z * option (list Z))) : frame :=
  flat_map (fun r =>
              match snd r with
              | Some cells =>
                  if existsb is_nan cells then [] else [(fst r, cells)]
              | None => []
              end) rows.

(** [block.index.values] *)
Definition pd_index (o : pdobj) : list Z :=
  match o with
  | DataFrame _ index _ => index
  | Series _ v => map Z.of_nat (seq 0 (List.length v))
  | IndexedSeries _ index _ => index
  end.

Definition pd_rows (o : pdobj) : list (list Z) :=
  match o with
  | DataFrame _ _ rows => rows
  | Series _ v => map (fun x => [x]) v
  | IndexedSeries _ _ v => map (fun x => [x]) v
  end.

Definition pd_frame (o : pdobj) : frame := combine (pd_index o) (pd_rows o).

(** The NaN test of the cells: tables hold 4-byte floats, the series of
    this program hold integers. *)
Definition pd_is_nan (o : pdobj) : Z -> bool :=
  match o with
  | DataFrame _ _ _ => single_is_nan
  | _ => fun _ => false
  end.

(** The selected rows as an object of the kind of [o]. *)
Definition pd_select (o : pdobj) (fr : frame) : pdobj :=
  match o with
  | DataFrame columns _ _ => DataFrame columns (map fst fr) (map snd fr)
  | Series name _ => IndexedSeries name (map fst fr) (List.concat (map snd fr))
  | IndexedSeries name _ _ =>
      IndexedSeries name (map fst fr) (List.concat (map snd fr))
  end.

(** [filter_bloc_by_ids(block, ids, sorter)]: the filtered block and the
    sorter. *)
Definition filter_bloc_by_ids (block : pdobj) (ids : list Z)
  (sorter : list nat) : result (pdobj * list nat) :=
  (let ind := pd_index block in
   let sorter := if (List.length sorter =? 0)%nat then argsort ind
                 else sorter in
   mx <- np_max ind ;;
   let ids := filter (fun x => x <=? mx) ids in
   let i := map (searchsorted ind sorter) ids in
   let i := np_unique i in
   positions <- take sorter i ;;
   df <- take (pd_frame block) positions ;;
   sel <- loc df ids ;;
   Ok (pd_select block (dropna (pd_is_nan block) sel), sorter))%res.

(** [Simulation.filter_by_ids(block_type, particle_type, ids)] on the
    snapshot file [f]. *)
Definition filter_by_ids (f : file) (self : Simulation)
  (block_type particle_type : string) (ids : list Z) : result pdobj :=
  (block <- read_block f self block_type particle_type ;;
   sel <- loc (pd_frame block) ids ;;
   Ok (pd_select block (dropna (pd_is_nan block) sel)))%res.

(** ** Catalogue files

    [fromfile] reads items in the native (little-endian) byte order. A
    catalogue is a family of fragment files; [open] on a missing fragment
    raises. *)

(** [open(name, 'rb')] in a family of fragment files. *)
Definition open_fragment (files : nat -> option file) (i : nat) : result file :=
  match files i with
  | Some f => Ok f
  | None => Err IOError
  end.

(** [fromfile(f, dtype, count=1)[0]] for a record of [cells] items of
    [width] bytes each. A record without items is the empty array and
    nothing is read for it; otherwise [IndexError] (an empty array has no
    item 0) when the file ends before the record is complete. (Early numpy
    releases raise [ValueError] for a record without items instead of
    returning the empty array: there the constructors of the catalogues
    return in fewer cases, with the same objects.) *)
Definition fromfile_record (f : file) (cells : Z) (width : nat)
  (dec : Z -> Z) : IO (list Z) :=
  if cells <? 0 then raise (ValueError "negative dimensions are not allowed")
  else if cells =? 0 then ioret []
  else
    (data <- f_read f (cells * Z.of_nat width) ;;
     if Z.of_nat (List.length data) =? cells * Z.of_nat width
     then ioret (map (fun c => dec (le_bytes c))
                     (chunks width data (Z.to_nat cells)))
     else raise IndexError)%io.

(** [fromfile(f, dtype="i4", count=1)[0]] *)
Definition fromfile_i4 (f : file) : IO Z :=
  (data <- f_read f 4 ;;
   if (List.length data =? 4)%nat
   then ioret (to_signed 32 (le_bytes data))
   else raise IndexError)%io.

(** [fromfile(f, dtype, count=count)] for items of [width] bytes: the items
    the file still holds, at most [count] of them when [count] is not
    negative. *)
Definition fromfile_count (f : file) (width : nat) (dec : Z -> Z) (count : Z)
  : IO (list Z) :=
  fun pos =>
    let rest := skipn (Z.to_nat pos) f in
    let avail := (List.length rest / width)%nat in
    let n := if count <? 0 then avail else Nat.min (Z.to_nat count) avail in
    Ok (map (fun c => dec (le_bytes c)) (chunks width rest n),
        pos + Z.of_nat (n * width)).

(** The shape and item type of a catalogue array: rows, columns, item width
    in bytes and decoding of an item. *)
Record dtype : Type := mkDtype {
  dt_rows : Z;
  dt_cols : Z;
  dt_width : nat;
  dt_dec : Z -> Z
}.

Definition dt_i4 (rows cols : Z) : dtype := mkDtype rows cols 4 (to_signed 32).
Definition dt_i8 (rows cols : Z) : dtype := mkDtype rows cols 8 (to_signed 64).
Definition dt_f4 (rows cols : Z) : dtype := mkDtype rows cols 4 (fun z => z).
Definition dt_f8 (rows cols : Z) : dtype := mkDtype rows cols 8 (fun z => z).

(** [fromfile(f, dtype=dt, count=1)[0]], the array in row-major order. *)
Definition fromfile_dtype (f : file) (dt : dtype) : IO (list Z) :=
  if dt_rows dt <? 0
  then raise (ValueError "negative dimensions are not allowed")
  else fromfile_record f (dt_rows dt * dt_cols dt) (dt_width dt) (dt_dec dt).

Module Fof.

(** The attributes of a [Fof] object; the per-group arrays are kept by name,
    in row-major order. *)
Record t : Type := mk {
  totngroups : Z;
  ntask : Z;
  ngroups : list Z;
  nids : list Z;
  arrays : Dict.t (list Z);
  ids : list (Dict.t (list Z))
}.

Definition array_keys : list string :=
  ["grouplen"; "groupoffset"; "grouplentype"; "groupmasstype"; "groupcm";
   "groupsfr"].

Definition data_types (ngroups : Z) : Dict.t dtype :=
  [("grouplen", dt_i4 ngroups 1);
   ("groupoffset", dt_i4 ngroups 1);
   ("grouplentype", dt_i4 ngroups (Z.of_nat (List.length particle_keys)));
   ("groupmasstype", dt_f8 ngroups (Z.of_nat (List.length particle_keys)));
   ("groupcm", dt_f4 ngroups 3);
   ("groupsfr", dt_f4 ngroups 1)].

(** [Fof._read_header]: (totngroups, ntask) from fragment 0. *)
Definition _read_header (tab : nat -> option file) : result (Z * Z) :=
  (f <- open_fragment tab 0 ;;
   run (f_seek_set 8 ;;;
        totngroups <- fromfile_i4 f ;;
        ntask <- fromfile_i4 f ;;
        ioret (totngroups, ntask))%io)%res.

(** The state of the loop of [_load_catalogue]: [self.ngroups],
    [self.nids], [totngroups] and [value]. *)
Definition load_state : Type := (list Z * list Z * Z * Dict.t (list Z))%type.

(** The arrays of one fragment:
    [for key in array_keys: ... value[key] = data or concatenate(...)] *)
Fixpoint read_arrays (f : file) (ngroups totngroups : Z) (keys : list string)
  (value : Dict.t (list Z)) : IO (Dict.t (list Z)) :=
  match keys with
  | [] => ioret value
  | key :: keys' =>
      (dt <- lift (Dict.getitem (data_types ngroups) key) ;;
       data <- fromfile_dtype f dt ;;
       value <- (if totngroups =? 0 then ioret (Dict.set value key data)
                 else (old <- lift (Dict.getitem value key) ;;
                       ioret (Dict.set value key (old ++ data)%list))) ;;
       read_arrays f ngroups totngroups keys' value)%io
  end.

(** One iteration of the loop over the fragments. *)
Definition load_fragment (tab : nat -> option file) (st : load_state)
  (i : nat) : result load_state :=
  (let '(ngroups_l, nids_l, totngroups, value) := st in
   f <- open_fragment tab i ;;
   run (ngroups <- fromfile_i4 f ;;
        let ngroups_l := (ngroups_l ++ [ngroups])%list in
        nids <- fromfile_i4 f ;;
        let nids_l := (nids_l ++ [nids])%list in
        f_seek_cur (2 * 4) ;;;
        if 0 <? ngroups then
          value <- read_arrays f ngroups totngroups array_keys value ;;
          ioret (ngroups_l, nids_l, totngroups + ngroups, value)
        else ioret (ngroups_l, nids_l, totngroups, value))%io)%res.

(** [for key in array_keys: setattr(self, key, value[key])] *)
Definition set_arrays (value : Dict.t (list Z)) : result (Dict.t (list Z)) :=
  foldM (fun attrs key =>
           rbind (Dict.getitem value key)
                 (fun data => Ok (Dict.set attrs key data)))
        array_keys [].

(** [Fof._load_catalogue]: [self.ngroups], [self.nids] and the arrays. *)
Definition _load_catalogue (tab : nat -> option file) (ntask : Z)
  : result (list Z * list Z * Dict.t (list Z)) :=
  ('(ngroups_l, nids_l, _, value) <-
     foldM (load_fragment tab) (seq 0 (Z.to_nat ntask)) ([], [], 0, []) ;;
   attrs <- set_arrays value ;;
   Ok (ngroups_l, nids_l, attrs))%res.

(** The identifiers of one group: one run per particle type, of the length
    [grouplentype[group, p_type_n]]. *)
Fixpoint read_group_ids (f : file) (grouplentype : list Z) (group : nat)
  (p_type_n : nat) (keys : list string) (ids : Dict.t (list Z))
  : IO (Dict.t (list Z)) :=
  match keys with
  | [] => ioret ids
  | particle_type :: keys' =>
      match nth_error grouplentype
              (group * List.length particle_keys + p_type_n) with
      | None => raise IndexError
      | Some count =>
          (run_ids <- fromfile_count f 4 (fun z => z) count ;;
           read_group_ids f grouplentype group (S p_type_n) keys'
             (Dict.set ids particle_type run_ids))%io
      end
  end.

(** [for j in range(self.ngroups[i])] of [_load_ids]. *)
Fixpoint read_groups (f : file) (grouplentype : list Z) (n : nat)
  (group : nat) (acc : list (Dict.t (list Z)))
  : IO (list (Dict.t (list Z)) * nat) :=
  match n with
  | O => ioret (acc, group)
  | S n' =>
      (ids <- read_group_ids f grouplentype group 0 particle_keys [] ;;
       read_groups f grouplentype n' (S group) (acc ++ [ids])%list)%io
  end.

(** [Fof._load_ids] *)
Definition _load_ids (idf : nat -> option file) (ntask : Z)
  (ngroups_l : list Z) (attrs : Dict.t (list Z))
  : result (list (Dict.t (list Z))) :=
  ('(ids, _) <-
     foldM (fun '(acc, group) i =>
              f <- open_fragment idf i ;;
              n <- match nth_error ngroups_l i with
                   | Some n => Ok n
                   | None => Err IndexError
                   end ;;
              grouplentype <- Dict.getitem attrs "grouplentype" ;;
              run (f_seek_set (4 * 4) ;;;
                   read_groups f grouplentype (Z.to_nat n) group acc)%io)
           (seq 0 (Z.to_nat ntask)) ([], O) ;;
   Ok ids)%res.

(** [Fof.__init__] on the group table fragments [tab] and the identifier
    fragments [idf]. *)
Definition __init__ (tab idf : nat -> option file) : result t :=
  ('(totngroups, ntask) <- _read_header tab ;;
   '(ngroups_l, nids_l, attrs) <- _load_catalogue tab ntask ;;
   ids <- _load_ids idf ntask ngroups_l attrs ;;
   Ok (mk totngroups ntask ngroups_l nids_l attrs ids))%res.

End Fof.

(** [a[nmin:nmax]]: a slice with Python's treatment of negative and
    out-of-range bounds. *)
Definition slice_bound (n : Z) (i : Z) : Z :=
  if i <? 0 then Z.max (i + n) 0 else Z.min i n.

Definition py_slice {A} (l : list A) (nmin nmax : Z) : list A :=
  let n := Z.of_nat (List.length l) in
  let lo := slice_bound n nmin in
  let hi := slice_bound n nmax in
  firstn (Z.to_nat (hi - lo)) (skipn (Z.to_nat lo) l).

(** Addition of two numpy [int32] scalars: the result wraps around. *)
Definition add_int32 (a b : Z) : Z := to_signed 32 ((a + b) mod 2 ^ 32).

(** [a[i]] on an array given as a list. *)
Definition getidx {A} (l : list A) (i : nat) : result A :=
  match nth_error l i with
  | Some x => Ok x
  | None => Err IndexError
  end.

Module Subfind.

(** The attributes of a [Subfind] object. *)
Record t : Type := mk {
  totngroups : Z;
  ntask : Z;
  ngroups : list Z;
  nids : list Z;
  nsubhalos : list Z;
  arrays : Dict.t (list Z);
  ids : list (list Z)
}.

Definition array_keys : list string :=
  ["nsubperhalo"; "firstsubofhalo"; "sublen"; "suboffset"; "subparenthalo";
   "halo_m_mean200"; "halo_r_mean200"; "halo_m_crit200"; "halo_r_crit200";
   "halo_m_tophat200"; "halo_r_tophat200"; "subpos"; "subvel"; "subveldisp";
   "subvmax"; "subspin"; "submostboundid"; "subhalfmass"].

Definition data_types (ngroups nsubhalos : Z) : Dict.t dtype :=
  [("nsubperhalo", dt_i4 ngroups 1);
   ("firstsubofhalo", dt_i4 ngroups 1);
   ("sublen", dt_i4 nsubhalos 1);
   ("suboffset", dt_i4 nsubhalos 1);
   ("subparenthalo", dt_i4 nsubhalos 1);
   ("halo_m_mean200", dt_f4 ngroups 1);
   ("halo_r_mean200", dt_f4 ngroups 1);
   ("halo_m_crit200", dt_f4 ngroups 1);
   ("halo_r_crit200", dt_f4 ngroups 1);
   ("halo_m_tophat200", dt_f4 ngroups 1);
   ("halo_r_tophat200", dt_f4 ngroups 1);
   ("subpos", dt_f4 nsubhalos 3);
   ("subvel", dt_f4 nsubhalos 3);
   ("subspin", dt_f4 nsubhalos 3);
   ("subveldisp", dt_f4 nsubhalos 1);
   ("subvmax", dt_f4 nsubhalos 1);
   ("subhalfmass", dt_f4 nsubhalos 1);
   ("submostboundid", dt_i8 nsubhalos 1)].

(** [Subfind._read_header]: totngroups, the task count (set to 1 whatever
    the file says), and the lists ngroups, nids and nsubhalos. *)
Definition _read_header (tab : nat -> option file)
  : result (Z * Z * list Z * list Z * list Z) :=
  (f <- open_fragment tab 0 ;;
   '(totngroups, _) <-
     run (f_seek_set 8 ;;;
          totngroups <- fromfile_i4 f ;;
          ntask <- fromfile_i4 f ;;
          ioret (totngroups, ntask))%io ;;
   let ntask := 1 in
   '(ngroups, nids, nsubhalos) <-
     foldM (fun '(ngroups, nids, nsubhalos) i =>
              f <- open_fragment tab i ;;
              run (f_seek_set 0 ;;;
                   g <- fromfile_i4 f ;;
                   n <- fromfile_i4 f ;;
                   f_seek_cur 8 ;;;
                   s <- fromfile_i4 f ;;
                   ioret ((ngroups ++ [g])%list, (nids ++ [n])%list,
                          (nsubhalos ++ [s])%list))%io)
           (seq 0 (Z.to_nat ntask)) ([], [], []) ;;
   Ok (totngroups, ntask, ngroups, nids, nsubhalos))%res.

(** The arrays of one fragment, in the order of [array_keys]. *)
Fixpoint read_arrays (f : file) (types : Dict.t dtype) (i : nat)
  (keys : list string) (value : Dict.t (list Z)) : IO (Dict.t (list Z)) :=
  match keys with
  | [] => ioret value
  | key :: keys' =>
      (dt <- lift (Dict.getitem types key) ;;
       data <- fromfile_dtype f dt ;;
       value <- (if (i =? 0)%nat then ioret (Dict.set value key data)
                 else (old <- lift (Dict.getitem value key) ;;
                       ioret (Dict.set value key (old ++ data)%list))) ;;
       read_arrays f types i keys' value)%io
  end.

(** [Subfind._load_catalogue] *)
Definition _load_catalogue (tab : nat -> option file) (ntask : Z)
  (ngroups_l nsubhalos_l : list Z) : result (Dict.t (list Z)) :=
  (value <-
     foldM (fun value i =>
              ngroups <- getidx ngroups_l i ;;
              nsubhalos <- getidx nsubhalos_l i ;;
              f <- open_fragment tab i ;;
              run (f_seek_set (5 * 4) ;;;
                   read_arrays f (data_types ngroups nsubhalos) i
                     array_keys value)%io)
           (seq 0 (Z.to_nat ntask)) [] ;;
   foldM (fun attrs key =>
            data <- Dict.getitem value key ;; Ok (Dict.set attrs key data))
         array_keys [])%res.

(** The second loop of [_load_ids]:
    [nmin = self.suboffset[sub]; nmax = nmin + self.sublen[sub];
     self.ids.append(all_ids[nmin:nmax])] *)
Definition slice_runs (all_ids suboffset sublen : list Z) (n : nat)
  : result (list (list Z)) :=
  foldM (fun acc sub =>
           nmin <- getidx suboffset sub ;;
           len <- getidx sublen sub ;;
           let nmax := add_int32 nmin len in
           Ok (acc ++ [py_slice all_ids nmin nmax])%list)%res
        (seq 0 n) [].

(** [Subfind._load_ids]. The branch of the first loop for a fragment other
    than 0 uses an attribute that does not exist yet and raises; it is not
    reached, the task count being 1. *)
Definition _load_ids (idf : nat -> option file) (ntask : Z)
  (nids_l nsubhalos_l : list Z) (attrs : Dict.t (list Z))
  : result (list (list Z)) :=
  (all_ids <-
     foldM (fun (all_ids : list Z) i =>
              f <- open_fragment idf i ;;
              nids <- getidx nids_l i ;;
              ids <- run (f_seek_set (4 * 4) ;;;
                          fromfile_count f 8 (to_signed 64) nids)%io ;;
              if (i =? 0)%nat then Ok ids
              else Err (ValueError "concatenate of an undefined attribute"))
           (seq 0 (Z.to_nat ntask)) [] ;;
   n <- getidx nsubhalos_l 0 ;;
   suboffset <- Dict.getitem attrs "suboffset" ;;
   sublen <- Dict.getitem attrs "sublen" ;;
   slice_runs all_ids suboffset sublen (Z.to_nat n))%res.

(** [Subfind.__init__] on the table fragments [tab] and the identifier
    fragments [idf]. *)
Definition __init__ (tab idf : nat -> option file) : result t :=
  ('(totngroups, ntask, ngroups, nids, nsubhalos) <- _read_header tab ;;
   attrs <- _load_catalogue tab ntask ngroups nsubhalos ;;
   ids <- _load_ids idf ntask nids nsubhalos attrs ;;
   Ok (mk totngroups ntask ngroups nids nsubhalos attrs ids))%res.

End Subfind.

(** ** Snapshot images

    Builders of well-formed snapshot files, used as concrete inputs. *)

Definition byte_of (z : Z) : byte :=
  match Byte.of_N (Z.to_N (z mod 256)) with
  | Some b => b
  | None => x00
  end.

Fixpoint le_pack (n : nat) (z : Z) : list byte :=
  match n with
  | O => []
  | S n' => byte_of z :: le_pack n' (z / 256)
  end.

(** [pack(s + fmt, z)] for an integer format of [n] bytes. *)
Definition pack (s : endian) (n : nat) (z : Z) : list byte :=
  match s with
  | Little => le_pack n z
  | Big => rev (le_pack n z)
  end.

Definition pack_all (s : endian) (n : nat) (l : list Z) : list byte :=
  List.concat (map (pack s n) l).

(** The header record: counts and masses per type, then the five flags
    sfr, feedback, cooling, stellar_age, metals; every other field is zero
    except the number of files, which is one. *)
Definition header_image (s : endian) (counts masses : list Z)
  (sfr feedback cooling stellar_age metals : Z) : list byte :=
  pack s 4 256
  ++ pack_all s 4 counts ++ pack_all s 8 masses
  ++ pack s 8 0 ++ pack s 8 0
  ++ pack s 4 sfr ++ pack s 4 feedback
  ++ pack_all s 4 counts
  ++ pack s 4 cooling ++ pack s 4 1
  ++ pack s 8 0 ++ pack s 8 0 ++ pack s 8 0 ++ pack s 8 0
  ++ pack s 4 stellar_age ++ pack s 4 metals
  ++ pack_all s 4 [0; 0; 0; 0; 0; 0]
  ++ pack s 4 0
  ++ repeat x00 60
  ++ pack s 4 256.

(** A block: its payload between two record markers. *)
Definition block_image (s : endian) (payload : list byte) : list byte :=
  pack s 4 (Z.of_nat (List.length payload))
  ++ payload
  ++ pack s 4 (Z.of_nat (List.length payload)).

(** A payload of [n] four-byte items with values [start], [start+1], ... *)
Definition ramp (s : endian) (start : Z) (n : nat) : list byte :=
  pack_all s 4 (map (fun i => start + Z.of_nat i) (seq 0 n)).

(** The snapshot of the scenario: 100 gas, 50 halo and 10 star particles,
    per-particle masses for every type, cooling, sfr, stellar age and metals
    set. Positions are the ramp 1000, 1001, ...; identifiers 1, 2, ... *)
Definition scenario_file : file :=
  header_image Little [100; 50; 0; 0; 10; 0] [0; 0; 0; 0; 0; 0] 1 0 1 1 1
  ++ block_image Little (ramp Little 1000 480)
  ++ block_image Little (ramp Little 5000 480)
  ++ block_image Little (ramp Little 1 160)
  ++ block_image Little (ramp Little 0 160)
  ++ block_image Little (ramp Little 0 100)
  ++ block_image Little (ramp Little 0 100)
  ++ block_image Little (ramp Little 0 100)
  ++ block_image Little (ramp Little 0 100)
  ++ block_image Little (ramp Little 0 100)
  ++ block_image Little (ramp Little 0 100)
  ++ block_image Little (ramp Little 0 10)
  ++ block_image Little (ramp Little 0 1320).

(** ** Closed forms and auxiliary notions used by the statements *)

Definition flen (f : file) : Z := Z.of_nat (List.length f).

Definition u32_at (s : endian) (f : file) (p : Z) : Z := uint_of s (sub f p 4).
Definition i32_at (s : endian) (f : file) (p : Z) : Z :=
  to_signed 32 (uint_of s (sub f p 4)).
Definition f64_at (s : endian) (f : file) (p : Z) : Z := uint_of s (sub f p 8).

(** The six values of a per-type table stored from position [p] on. *)
Definition per_type (at_ : Z -> Z) (p width : Z) : Dict.t Z :=
  [("gas", at_ p); ("halo", at_ (p + width)); ("disk", at_ (p + 2 * width));
   ("bulge", at_ (p + 3 * width)); ("stars", at_ (p + 4 * width));
   ("bndry", at_ (p + 5 * width))].

(** The attributes [_read_header] stores, by position in the file. *)
Definition header_of (f : file) (self : Simulation) (s : endian) : Simulation :=
  mkSimulation (use_longids self)
    (Dict.set
       (Dict.set
          (Dict.set
             (Dict.set
                (Dict.set (Dict.set (flags self) "sfr" (i32_at s f 92))
                   "feedback" (i32_at s f 96))
                "cooling" (i32_at s f 124))
             "stellar_age" (i32_at s f 164))
          "metals" (i32_at s f 168))
       "entr_ics" (i32_at s f 196))
    s
    (per_type (u32_at s f) 4 4)
    (per_type (f64_at s f) 28 8)
    (f64_at s f 76) (f64_at s f 84)
    (per_type (u32_at s f) 100 4)
    (i32_at s f 128)
    (f64_at s f 132) (f64_at s f 140) (f64_at s f 148) (f64_at s f 156)
    (per_type (i32_at s f) 172 4)
    (block_sizes self).

Definition header_error : error := NameError "Error reading header in file".

Definition default0 (o : option Z) : Z :=
  match o with Some v => v | None => 0 end.

(** Header values by name. *)
Definition count (self : Simulation) (key : string) : Z :=
  default0 (Dict.get (particle_numbers self) key).
Definition pmass (self : Simulation) (key : string) : Z :=
  default0 (Dict.get (particle_mass self) key).
Definition flag (self : Simulation) (name : string) : Z :=
  default0 (Dict.get (flags self) name).

Definition flag_keys : list string :=
  ["pot"; "accel"; "endt"; "tstp"; "sfr"; "feedback"; "cooling";
   "stellar_age"; "metals"].

(** The state of an object whose header has been read: every per-type table
    and every flag is filled in, and the counts are not negative. *)
Definition wf_header (self : Simulation) : bool :=
  forallb (fun k => Dict.mem k (particle_numbers self)) particle_keys
  && forallb (fun k => Dict.mem k (particle_mass self)) particle_keys
  && forallb (fun k => Dict.mem k (flags self)) flag_keys
  && forallb (fun k => 0 <=? count self k) particle_keys.

(** The flags [__init__] stores before the header is read. *)
Definition flags_ready (self : Simulation) : bool :=
  forallb (fun k => Dict.mem k (flags self)) ["pot"; "accel"; "endt"; "tstp"].

Definition sumZ (l : list Z) : Z := fold_right Z.add 0 l.

Definition total_number (self : Simulation) : Z :=
  sumZ (map (count self) particle_keys).

(** The number of particles whose mass is stored per particle. *)
Definition mass_number (self : Simulation) : Z :=
  sumZ (map (fun k => if double_is_zero (pmass self k) then count self k else 0)
            particle_keys).

(** The size [_file_structure] gives to a block key, [None] when the key is
    not entered in [block_sizes]. *)
Definition block_size_spec (self : Simulation) (key : string) : option Z :=
  let size := total_number self * 4 in
  let size_gas := count self "gas" * 4 in
  let size_stars := count self "stars" * 4 in
  let size_baryons := size_gas + size_stars in
  if String.eqb key "esncold" && truthy (flag self "feedback")
  then Some size_baryons
  else if String.eqb key "esn" && truthy (flag self "feedback")
  then Some size_baryons
  else if String.eqb key "tstp" && truthy (flag self "tstp") then Some size
  else if String.eqb key "endt" && truthy (flag self "endt")
  then Some size_gas
  else if String.eqb key "accel" && truthy (flag self "accel")
  then Some (size * 3)
  else if String.eqb key "pot" && truthy (flag self "pot") then Some size
  else if String.eqb key "metals" && truthy (flag self "metals")
  then Some (size_baryons * 12)
  else if String.eqb key "age" && truthy (flag self "stellar_age")
  then Some size_stars
  else if String.eqb key "sfr" && truthy (flag self "sfr") then Some size_gas
  else if String.eqb key "hsml" then Some size_gas
  else if String.eqb key "nh" && truthy (flag self "cooling")
  then Some size_gas
  else if String.eqb key "ne" && truthy (flag self "cooling")
  then Some size_gas
  else if String.eqb key "rho" then Some size_gas
  else if String.eqb key "u" then Some size_gas
  else if String.eqb key "mass" then Some (mass_number self * 4)
  else if String.eqb key "id"
  then Some (if use_longids self then size * 2 else size)
  else if String.eqb key "vel" then Some (size * 3)
  else if String.eqb key "pos" then Some (size * 3)
  else if String.eqb key "header" then Some 256
  else None.

(** The block sizes of an object whose header has been read. *)
Definition sized (self : Simulation) : Prop :=
  wf_header self = true
  /\ forall key, Dict.get (block_sizes self) key = block_size_spec self key.

(** Whether [_compute_offset] enters the particle type [k] in the dictionary
    [particle_number] of the block. *)
Definition in_domain (self : Simulation) (block_type k : string) : bool :=
  if str_in block_type ["id"; "pos"; "vel"; "accel"; "pot"; "tstp"] then true
  else if str_in block_type ["u"; "rho"; "ne"; "nh"; "hsml"; "sfr"; "endt"]
  then String.eqb k "gas"
  else if str_in block_type ["esn"; "esncold"; "metals"]
  then String.eqb k "gas" || String.eqb k "stars"
  else if str_in block_type ["mass"]
  then double_is_zero (pmass self k) && negb (count self k =? 0)
  else if str_in block_type ["age"] then String.eqb k "stars"
  else false.

(** The number of 4-byte items per particle. *)
Definition dim_spec (self : Simulation) (block_type : string) : Z :=
  if str_in block_type ["id"; "pos"; "vel"; "accel"; "pot"; "tstp"] then
    if str_in block_type ["id"] && use_longids self then 2
    else if str_in block_type ["pos"; "vel"; "accel"] then 3 else 1
  else if str_in block_type ["u"; "rho"; "ne"; "nh"; "hsml"; "sfr"; "endt"]
  then 1
  else if str_in block_type ["esn"; "esncold"; "metals"]
  then if str_in block_type ["metals"] then 12 else 1
  else 1.

Definition domain_count (self : Simulation) (block_type k : string) : Z :=
  if in_domain self block_type k then count self k else 0.

(** The sum of the per-type counts the block holds, over the types [keys]. *)
Definition domain_sum (self : Simulation) (block_type : string)
  (keys : list string) : Z :=
  sumZ (map (domain_count self block_type) keys).

Definition block_error (block_type : string) : error :=
  NameError ("Error reading block: " ++ block_type).

(** The inner call of [read_block], for the identifiers. *)
Definition read_id (f : file) : Simulation -> string -> string -> result pdobj :=
  read_block_body f (fun _ _ _ => Err (ValueError "unreachable")).

Definition id_itemsize (self : Simulation) : nat :=
  if use_longids self then 8%nat else 4%nat.

(** The four-byte items of a payload. *)
Definition items (s : endian) (data : list byte) (n : nat) : list Z :=
  map (uint_of s) (chunks 4 data n).

(** The identifiers of the particles of a type, decoded in the byte order
    [s] from the bytes of the identifier block that belong to the type. *)
Definition id_values (s : endian) (self : Simulation) (particle_type : string)
  (iddata : list byte) : list Z :=
  map (uint_of s)
      (chunks (id_itemsize self) iddata (Z.to_nat (count self particle_type))).

(** The byte position of a block when only the blocks that are present
    (entered in [block_sizes] with a size above zero) take room in the file,
    each with its two 4-byte record markers. This is how [_file_check] walks
    the file. *)
Definition present_span (self : Simulation) (keys : list string) : Z :=
  sumZ (map (fun key =>
               match Dict.get (block_sizes self) key with
               | Some size => if 0 <? size then size + 8 else 0
               | None => 0
               end) keys).

Definition present_offset (self : Simulation) (order : nat) : Z :=
  present_span self (firstn order block_keys).

(** ** Concrete objects *)

(** [Simulation(name)] with every keyword argument at its default, before
    the header is read. *)
Definition scenario_self : Simulation :=
  new_simulation false
    [("pot", 0); ("accel", 0); ("endt", 0); ("tstp", 0)].

(** The object after [_read_header] on the scenario snapshot. *)
Definition scenario_header : Simulation :=
  Eval vm_compute in
    match _read_header scenario_file scenario_self with
    | Ok s => s
    | Err _ => scenario_self
    end.

(** A snapshot with one gas particle whose mass is given in the header
    (the double 1.0), so that the mass block is empty and is not written:
    pos, vel, id, then u, rho and hsml follow the header. *)
Definition mass_in_header_file : file :=
  header_image Little [1; 0; 0; 0; 0; 0]
    [4607182418800017408; 0; 0; 0; 0; 0] 0 0 0 0 0
  ++ block_image Little (ramp Little 1000 3)
  ++ block_image Little (ramp Little 2000 3)
  ++ block_image Little (ramp Little 1 1)
  ++ block_image Little (ramp Little 3000 1)
  ++ block_image Little (ramp Little 4000 1)
  ++ block_image Little (ramp Little 5000 1).

Definition mass_in_header_self : Simulation :=
  Eval vm_compute in
    match _read_header mass_in_header_file scenario_self with
    | Ok s => s
    | Err _ => scenario_self
    end.

(** A snapshot with one gas particle, per-particle masses and an
    acceleration block, read with [accel=True]. *)
Definition accel_file : file :=
  header_image Little [1; 0; 0; 0; 0; 0] [0; 0; 0; 0; 0; 0] 0 0 0 0 0
  ++ block_image Little (ramp Little 1000 3)
  ++ block_image Little (ramp Little 2000 3)
  ++ block_image Little (ramp Little 1 1)
  ++ block_image Little (ramp Little 6000 1)
  ++ block_image Little (ramp Little 3000 1)
  ++ block_image Little (ramp Little 4000 1)
  ++ block_image Little (ramp Little 5000 1)
  ++ block_image Little (ramp Little 7000 3).

Definition accel_self : Simulation :=
  new_simulation false
    [("pot", 0); ("accel", 1); ("endt", 0); ("tstp", 0)].

(** The scenario snapshot with the first byte of the leading record marker
    of block "pos" overwritten. *)
Definition corrupted_file : file :=
  firstn 264 scenario_file ++ xff :: skipn 265 scenario_file.

(** The snapshot [mass_in_header_file] with a density that is the float
    with the bytes of the integer 4, and with the first byte of the leading
    record marker of block "u" overwritten: the marker reads 255 where the
    size of the block is 4. *)
Definition corrupted_u_file : file :=
  header_image Little [1; 0; 0; 0; 0; 0]
    [4607182418800017408; 0; 0; 0; 0; 0] 0 0 0 0 0
  ++ block_image Little (ramp Little 1000 3)
  ++ block_image Little (ramp Little 2000 3)
  ++ block_image Little (ramp Little 1 1)
  ++ (xff :: skipn 1 (block_image Little (ramp Little 3000 1)))
  ++ block_image Little (ramp Little 4 1)
  ++ block_image Little (ramp Little 5000 1).

(** The object [Simulation(name, accel=True)] builds for [accel_file]. *)
Definition accel_header : Simulation :=
  Eval vm_compute in
    match _read_header accel_file accel_self with
    | Ok s => s
    | Err _ => accel_self
    end.

(** The words [read_block] checks for a block: the four bytes at
    the position it seeks to and the four bytes after the block both hold
    the size of the block. *)
Definition markers_ok (f : file) (self : Simulation) (block_type : string)
  : Prop :=
  exists size order,
    Dict.get (block_sizes self) block_type = Some size
    /\ list_index block_keys block_type = Ok order
    /\ read_block_skip self order + size + 8 <= flen f
    /\ u32_at (swap self) f (read_block_skip self order) = size
    /\ u32_at (swap self) f (read_block_skip self order + 4 + size) = size.



(** The row of a label in a table. *)
Definition lookup_row (fr : frame) (id : Z) : list Z :=
  match find (fun r => fst r =? id) fr with
  | Some r => snd r
  | None => []
  end.

(** The rows of a table that hold no NaN. *)
Definition no_nan (rows : list (list Z)) : Prop :=
  forall r, In r rows -> existsb single_is_nan r = false.

(** The positions of the star particles of the scenario snapshot. *)
Definition star_positions : pdobj :=
  Eval vm_compute in
    match read_block scenario_file scenario_header "pos" "stars" with
    | Ok o => o
    | Err _ => Series "" []
    end.

(** ** Catalogue images *)

(** A family of fragment files given as a list. *)
Definition fragments (l : list file) : nat -> option file := nth_error l.

(** A group table fragment that declares no group: ngroups = 0, nids = 0,
    totngroups = 0, ntask = 1. *)
Definition empty_group_tab : file :=
  pack_all Little 4 [0; 0; 0; 1].

(** A group table with one group of three particles (one gas, two halo) and
    its identifier file. *)
Definition one_group_tab : file :=
  pack_all Little 4 [1; 3; 1; 1]
  ++ pack_all Little 4 [3] ++ pack_all Little 4 [0]
  ++ pack_all Little 4 [1; 2; 0; 0; 0; 0]
  ++ pack_all Little 8 [0; 0; 0; 0; 0; 0]
  ++ pack_all Little 4 [0; 0; 0] ++ pack_all Little 4 [0].

Definition one_group_ids : file :=
  pack_all Little 4 [1; 3; 1; 1] ++ pack_all Little 4 [7; 8; 9].

(** A subhalo table with one halo and two subhalos of the given lengths and
    offsets, and an identifier file with the four identifiers 11..14. *)
Definition two_subhalo_tab (sublen suboffset : list Z) : file :=
  pack_all Little 4 [1; 4; 1; 1; 2]
  ++ pack_all Little 4 [2] ++ pack_all Little 4 [0]
  ++ pack_all Little 4 sublen ++ pack_all Little 4 suboffset
  ++ pack_all Little 4 [0; 0]
  ++ pack_all Little 4 [0; 0; 0; 0; 0; 0]
  ++ pack_all Little 4 [0; 0; 0; 0; 0; 0]
  ++ pack_all Little 4 [0; 0; 0; 0; 0; 0]
  ++ pack_all Little 4 [0; 0] ++ pack_all Little 4 [0; 0]
  ++ pack_all Little 4 [0; 0; 0; 0; 0; 0]
  ++ pack_all Little 8 [11; 13] ++ pack_all Little 4 [0; 0].

Definition four_ids : file :=
  pack_all Little 4 [1; 4; 1; 1] ++ pack_all Little 8 [11; 12; 13; 14].

(** The run [_load_ids] slices for subhalo [sub]. *)
Definition run_of (all_ids suboffset sublen : list Z) (sub : nat) : list Z :=
  py_slice all_ids (nth sub suboffset 0)
    (add_int32 (nth sub suboffset 0) (nth sub sublen 0)).


(** The identifier stream [_load_ids] reads from an identifier file: the
    8-byte items after the 16-byte header, at most [nids] of them when
    [nids] is not negative. *)
Definition id_stream (f : file) (nids : Z) : list Z :=
  let rest := skipn 16 f in
  let avail := (List.length rest / 8)%nat in
  let n := if nids <? 0 then avail else Nat.min (Z.to_nat nids) avail in
  map (fun c => to_signed 64 (le_bytes c)) (chunks 8 rest n).

(** The catalogue with two subhalos of two identifiers each. *)
Definition two_subhalo_catalogue : Subfind.t :=
  Eval vm_compute in
    match Subfind.__init__ (fragments [two_subhalo_tab [2; 2] [0; 2]])
            (fragments [four_ids]) with
    | Ok o => o
    | Err _ => Subfind.mk 0 0 [] [] [] [] []
    end.

(** ** The entries of [block_sizes] *)

(** The block keys [_file_structure] enters whatever the flags are. *)
Definition always_blocks : list string :=
  ["header"; "pos"; "vel"; "id"; "mass"; "u"; "rho"; "hsml"].

(** The block keys [_file_structure] enters under a flag, each with the
    name of its flag. *)
Definition optional_blocks : list (string * string) :=
  [("ne", "cooling"); ("nh", "cooling"); ("sfr", "sfr");
   ("age", "stellar_age"); ("metals", "metals"); ("pot", "pot");
   ("accel", "accel"); ("endt", "endt"); ("tstp", "tstp");
   ("esn", "feedback"); ("esncold", "feedback")].

(** The column names [read_block] gives to the table of a block. *)
Definition block_columns (block_type : string) : list string :=
  if str_in block_type ["pos"; "vel"; "accel"] then ["x"; "y"; "z"]
  else if str_in block_type ["metals"] then element_keys
       else [block_type].

(** ** Notions for the catalogue statements *)

(** The number of groups of a catalogue whose fragments declare the counts
    [l]: a count that is not above zero adds nothing. *)
Definition group_total (l : list Z) : Z := sumZ (map (Z.max 0) l).

(** The number of items each group has in a catalogue array, as
    [Fof.data_types] shapes it. *)
Definition group_cells (key : string) : Z :=
  match Dict.get (Fof.data_types 1) key with
  | Some dt => dt_cols dt
  | None => 0
  end.

(** The state of the loop of [Fof._load_catalogue]: [totngroups] counts the
    groups of the fragments read so far, and once it is above zero every
    array holds that many groups. *)
Definition fof_loaded (st : Fof.load_state) : Prop :=
  let '(ngroups_l, nids_l, tot, value) := st in
  tot = group_total ngroups_l
  /\ List.length nids_l = List.length ngroups_l
  /\ (tot = 0 /\ value = []
      \/ 0 < tot
         /\ forall key, In key Fof.array_keys ->
              exists d, Dict.get value key = Some d
                        /\ Z.of_nat (List.length d) = tot * group_cells key).

(** The identifiers [Fof._load_ids] stores for group [g]: one run per
    particle type, in the order of [particle_keys], the run of type number
    [p] being read with the count [grouplentype[g, p]]. *)
Definition group_ids_ok (grouplentype : list Z) (g : nat)
  (d : Dict.t (list Z)) : Prop :=
  Dict.keys d = particle_keys
  /\ forall p key, nth_error particle_keys p = Some key ->
       exists count run,
         nth_error grouplentype (g * List.length particle_keys + p)
         = Some count
         /\ Dict.get d key = Some run
         /\ (0 <= count -> Z.of_nat (List.length run) <= count).

(** The FOF catalogue with one group of one gas and two halo particles. *)
Definition one_group_catalogue : Fof.t :=
  Eval vm_compute in
    match Fof.__init__ (fragments [one_group_tab]) (fragments [one_group_ids])
    with
    | Ok o => o
    | Err _ => Fof.mk 0 0 [] [] [] []
    end.

(** A subhalo table that declares no halo and no subhalo, and an identifier
    file without identifiers. *)
Definition no_subhalo_tab : file := pack_all Little 4 [0; 0; 0; 1; 0].

Definition no_ids : file := pack_all Little 4 [0; 0; 0; 1].

(** ** The byte order of an object

    [read_block] decodes with the byte order the object has when the method
    is called. *)

(** The byte order of the object is the byte order of the file: reading the
    header of [f] leaves [self.swap] as it is. It holds for every object
    whose header was read from [f]. *)
Definition byte_order_kept (f : file) (self : Simulation) : Prop :=
  forall self', _read_header f self = Ok self' -> swap self' = swap self.

(** ** Snapshots by file name

    The methods above take the bytes of the snapshot file. Here the file is
    looked up by name, as [open(self.name, 'rb')] does, which is what
    [multiple_files] and [read_block_iter] are about. *)

From Stdlib Require DecimalString.

(** The files that exist, by name. *)
Definition filesystem : Type := string -> option file.

(** [open(name, 'rb')] *)
Definition open_rb (fs : filesystem) (name : string) : result file :=
  match fs name with
  | Some f => Ok f
  | None => Err IOError
  end.

(** ["%d" % i] for an [i] that is not negative. *)
Definition fmt_d (i : nat) : string :=
  DecimalString.NilEmpty.string_of_uint (Nat.to_uint i).

(** [self.flags = flags]: the object with another flag dictionary. *)
Definition set_flags (self : Simulation) (fl : Dict.t Z) : Simulation :=
  mkSimulation (use_longids self) fl (swap self)
    (particle_numbers self) (particle_mass self) (cosmic_time self)
    (redshift self) (particle_total_numbers self) (file_number self)
    (box_size self) (omega_matter self) (omega_lambda self) (h self)
    (particle_total_numbers_hw self) (block_sizes self).

Module Snapshot.

(** A [Simulation] object with its name attributes. *)
Record t : Type := mk {
  basename : string;
  name : string;
  multiple_files : bool;
  self : Simulation
}.

(** [Simulation.__init__(name, ...)]: with [multiple_files] the file read is
    [name + ".0"]. ([set_units], which only defines units from the attribute
    [h], is left out.) *)
Definition __init__ (fs : filesystem) (name : string)
  (pot accel endt tstp multiple_files skip_file_check use_longids : bool)
  : result t :=
  (let basename := name in
   let name := if multiple_files then basename ++ ".0" else name in
   f <- open_rb fs name ;;
   self <- __init__ f pot accel endt tstp skip_file_check use_longids ;;
   Ok (mk basename name multiple_files self))%res.

(** The loop of [read_block_iter], as the list of what the generator
    produces when it is run to its end: one block per fragment, or the
    exception that ends it.
    [snap = copy(self)] is a shallow copy, so [snap.flags] is the dictionary
    of [self]: the header flags a fragment read stores in it are those the
    next copy starts from. [flags] is that shared dictionary; every other
    attribute a fragment read stores is bound on the copy only. *)
Fixpoint iter_fragments (fs : filesystem) (obj : t)
  (block_type particle_type : string) (shared : Dict.t Z) (l : list nat)
  : list (result pdobj) :=
  match l with
  | [] => []
  | i :: l' =>
      let snap := set_flags (self obj) shared in
      let snap_name := basename obj ++ "." ++ fmt_d i in
      match open_rb fs snap_name with
      | Err e => [Err e]
      | Ok f =>
          match read_block f snap block_type particle_type with
          | Err e => [Err e]
          | Ok block =>
              let shared :=
                match _read_header f snap with
                | Ok snap' => flags snap'
                | Err _ => shared
                end in
              Ok block
              :: iter_fragments fs obj block_type particle_type shared l'
          end
      end
  end.

(** [Simulation.read_block_iter]:
    [for i in range(self.file_number): ... yield block] *)
Definition read_block_iter (fs : filesystem) (obj : t)
  (block_type particle_type : string) : list (result pdobj) :=
  iter_fragments fs obj block_type particle_type (flags (self obj))
    (seq 0 (Z.to_nat (file_number (self obj)))).

(** [Simulation.read_block] with [iter_files=False], on the file the name of
    the object refers to. *)
Definition read_block (fs : filesystem) (obj : t)
  (block_type particle_type : string) : result pdobj :=
  (f <- open_rb fs (name obj) ;;
   read_block f (self obj) block_type particle_type)%res.

End Snapshot.

(** What a generator produces up to the exception that ends it. *)
Fixpoint until_error {A} (l : list (result A)) : list (result A) :=
  match l with
  | [] => []
  | Ok a :: l' => Ok a :: until_error l'
  | Err e :: _ => [Err e]
  end.

(** The flag dictionary of an object built by the constructor: the four
    flags of the call, then the six flags of the header. *)
Definition constructor_flags (pot accel endt tstp : bool) (fl : Dict.t Z)
  : Prop :=
  exists sfr feedback cooling stellar_age metals entr_ics,
    fl = [("pot", of_bool pot); ("accel", of_bool accel);
          ("endt", of_bool endt); ("tstp", of_bool tstp);
          ("sfr", sfr); ("feedback", feedback); ("cooling", cooling);
          ("stellar_age", stellar_age); ("metals", metals);
          ("entr_ics", entr_ics)].

(** A file system with the scenario snapshot as the only fragment of the
    snapshot "snap", and the object the constructor builds for it. *)
Definition scenario_fs : filesystem :=
  fun name => if String.eqb name "snap.0" then Some scenario_file else None.

Definition scenario_snapshot : Snapshot.t :=
  Snapshot.mk "snap" "snap.0" true scenario_header.

(** ** The catalogue methods that read a snapshot

    A catalogue object keeps the snapshot it was given as [self.snap]
    ([None] by default). The snapshot is given here as the bytes of its file
    and its [Simulation] object. The methods below raise, besides the
    exceptions of the readers, [AttributeError]. *)

Inductive raised : Type :=
| Exception (e : error)
| AttributeError (msg : string).

Inductive outcome (A : Type) : Type :=
| Returns (a : A)
| Raises (x : raised).

Arguments Returns {A} a.
Arguments Raises {A} x.

Definition of_result {A} (r : result A) : outcome A :=
  match r with
  | Ok a => Returns a
  | Err e => Raises (Exception e)
  end.

Definition obind {A B} (m : outcome A) (k : A -> outcome B) : outcome B :=
  match m with
  | Returns a => k a
  | Raises x => Raises x
  end.

Declare Scope out_scope.
Delimit Scope out_scope with out.
Notation "x <- m ;; k" := (obind m (fun x => k))
  (at level 61, m at next level, right associativity) : out_scope.
Notation "' pat <- m ;; k" := (obind m (fun x => match x with pat => k end))
  (at level 61, pat pattern, m at next level, right associativity) : out_scope.

(** [l[i]] on a Python list or on the rows of an array: a negative index
    counts from the end. *)
Definition py_getitem {A} (l : list A) (i : Z) : result A :=
  let n := Z.of_nat (List.length l) in
  let j := if i <? 0 then i + n else i in
  if (0 <=? j) && (j <? n) then getidx l (Z.to_nat j) else Err IndexError.

(** [self.snap.method]: an attribute of the associated snapshot. *)
Definition snap_method (snap : option (file * Simulation)) (method : string)
  : outcome (file * Simulation) :=
  match snap with
  | Some s => Returns s
  | None =>
      Raises (AttributeError
                ("'NoneType' object has no attribute '" ++ method ++ "'"))
  end.

(** [Subfind.read_block_by_subhalo]: the pair of the filtered block and the
    sorter. *)
Definition read_block_by_subhalo (obj : Subfind.t)
  (snap : option (file * Simulation)) (block_type particle_type : string)
  (subhalo : Z) (sorter : list nat) : outcome (pdobj * list nat) :=
  ('(f, self) <- snap_method snap "read_block" ;;
   block <- of_result (read_block f self block_type particle_type) ;;
   sub_ids <- of_result (py_getitem (Subfind.ids obj) subhalo) ;;
   of_result (filter_bloc_by_ids block sub_ids sorter))%out.

(** [Fof.read_block_by_group] *)
Definition read_block_by_group (obj : Fof.t)
  (snap : option (file * Simulation)) (block_type particle_type : string)
  (group : Z) : outcome pdobj :=
  (group_ids <- of_result (py_getitem (Fof.ids obj) group) ;;
   ids <- of_result (Dict.getitem group_ids particle_type) ;;
   '(f, self) <- snap_method snap "filter_by_ids" ;;
   of_result (filter_by_ids f self block_type particle_type ids))%out.

(** One iteration of the loop of [Subfind.mass_inside_radius], whose body
    is in [try: ... except KeyError: pass]. The first statement of the body,
    [pos = self.read_block_by_subhalo("pos", key, subhalo).values], asks the
    pair that [read_block_by_subhalo] returns for an attribute [values] and
    raises [AttributeError]; the statements after it are never reached. The
    result is whether the loop goes on. *)
Definition mass_inside_key (obj : Subfind.t)
  (snap : option (file * Simulation)) (subhalo : Z) (key : string)
  : outcome unit :=
  match read_block_by_subhalo obj snap "pos" key subhalo [] with
  | Returns _ =>
      Raises (AttributeError "'tuple' object has no attribute 'values'")
  | Raises (Exception (KeyError _)) => Returns tt
  | Raises x => Raises x
  end.

Fixpoint mass_inside_loop (obj : Subfind.t)
  (snap : option (file * Simulation)) (subhalo : Z) (keys : list string)
  : outcome unit :=
  match keys with
  | [] => Returns tt
  | key :: keys' =>
      (_ <- mass_inside_key obj snap subhalo key ;;
       mass_inside_loop obj snap subhalo keys')%out
  end.

(** [Subfind.mass_inside_radius(radius, subhalo, particle_keys)]: the
    dictionary of the masses. [total_mass_inside] is the integer 0 it starts
    from when no iteration adds to it. *)
Definition mass_inside_radius (obj : Subfind.t)
  (snap : option (file * Simulation)) (radius : Z) (subhalo : Z)
  (keys : list string) : outcome (Dict.t Z) :=
  (let mass_inside : Dict.t Z := [] in
   let total_mass_inside := 0 in
   subpos <- match Dict.get (Subfind.arrays obj) "subpos" with
             | Some a => Returns a
             | None => Raises (AttributeError "subpos")
             end ;;
   cm <- of_result
           (py_getitem (chunks 3 subpos (List.length subpos / 3)) subhalo) ;;
   _ <- mass_inside_loop obj snap subhalo keys ;;
   Returns (Dict.set mass_inside "total" total_mass_inside))%out.

(** [bounding_box(block_pos, ids, sorter, padding)]. The first statement
    binds [df] to the pair [filter_bloc_by_ids] returns, and the second,
    [xlims = [df.x.min() - padding[0], ...]], asks the pair for an attribute
    [x] and raises [AttributeError]; nothing after it is reached. *)
Definition bounding_box (block_pos : pdobj) (ids : list Z)
  (sorter : list nat) (padding : list Z) : outcome (Dict.t (list Z)) :=
  (df <- of_result (filter_bloc_by_ids block_pos ids sorter) ;;
   Raises (AttributeError "'tuple' object has no attribute 'x'"))%out.

(** The gas positions of subhalo 0 of the two-subhalo catalogue in the
    scenario snapshot, with the sorter, and those of group 0 of the
    one-group catalogue. *)
Definition subhalo_zero_gas : pdobj * list nat :=
  Eval vm_compute in
    match read_block_by_subhalo two_subhalo_catalogue
            (Some (scenario_file, scenario_header)) "pos" "gas" 0 [] with
    | Returns p => p
    | Raises _ => (Series "" [], [])
    end.

Definition group_zero_gas : pdobj :=
  Eval vm_compute in
    match read_block_by_group one_group_catalogue
            (Some (scenario_file, scenario_header)) "pos" "gas" 0 with
    | Returns o => o
    | Raises _ => Series "" []
    end.

(** The position of the star particle 151 of the scenario snapshot, as
    [filter_by_ids] selects it. *)
Definition star_151 : pdobj :=
  Eval vm_compute in
    match filter_by_ids scenario_file scenario_header "pos" "stars" [151] with
    | Ok o => o
    | Err _ => Series "" []
    end.

(** ** The memoization decorator

    [memoize(func)] keeps a dictionary [cache] from argument tuples to
    results. The wrapped function is modelled on an explicit state: the
    cache, and the list of the arguments [func] has been called with, which
    is there to state how often [func] is called. [eqb] is the equality of
    argument tuples, [func] a function whose outcome depends on its
    arguments only. *)

Definition cache_get {A B} (eqb : A -> A -> bool) (cache : list (A * B))
  (args : A) : option B :=
  match find (fun kv => eqb args (fst kv)) cache with
  | Some kv => Some (snd kv)
  | None => None
  end.

(** [cache[args] = v] *)
Fixpoint cache_set {A B} (eqb : A -> A -> bool) (cache : list (A * B))
  (args : A) (v : B) : list (A * B) :=
  match cache with
  | [] => [(args, v)]
  | (k, w) :: cache' =>
      if eqb args k then (k, v) :: cache'
      else (k, w) :: cache_set eqb cache' args v
  end.

(** [wrap( *args)]:
    [if args not in cache: cache[args] = func( *args)
     return cache[args]] *)
Definition wrap {A B} (eqb : A -> A -> bool) (func : A -> result B)
  (st : list (A * B) * list A) (args : A)
  : result B * (list (A * B) * list A) :=
  let '(cache, calls) := st in
  match cache_get eqb cache args with
  | None =>
      match func args with
      | Ok v =>
          let cache := cache_set eqb cache args v in
          (match cache_get eqb cache args with
           | Some v' => Ok v'
           | None => Err (KeyError "args")
           end, (cache, calls ++ [args])%list)
      | Err e => (Err e, (cache, calls ++ [args])%list)
      end
  | Some v => (Ok v, (cache, calls))
  end.

(** A sequence of calls of the wrapped function. *)
Fixpoint wrap_all {A B} (eqb : A -> A -> bool) (func : A -> result B)
  (st : list (A * B) * list A) (l : list A)
  : list (result B) * (list (A * B) * list A) :=
  match l with
  | [] => ([], st)
  | args :: l' =>
      let '(r, st') := wrap eqb func st args in
      let '(rs, st'') := wrap_all eqb func st' l' in
      (r :: rs, st'')
  end.

(** The number of calls of [func] with the arguments [a]. *)
Definition calls_with {A} (eqb : A -> A -> bool) (a : A) (calls : list A)
  : nat :=
  List.length (filter (eqb a) calls).

(** The cache holds results of [func] only, and [func] has been called once
    with every cached argument and never with the other arguments it
    returns for. *)
Definition cache_sound {A B} (eqb : A -> A -> bool) (func : A -> result B)
  (st : list (A * B) * list A) : Prop :=
  (forall a v, cache_get eqb (fst st) a = Some v -> func a = Ok v)
  /\ (forall a v, func a = Ok v ->
        calls_with eqb a (snd st)
        = match cache_get eqb (fst st) a with
          | Some _ => 1%nat
          | None => 0%nat
          end).

(** * Properties *)

(** ** Dictionaries *)

Lemma get_set {V} (d : Dict.t V) (k k' : string) (v : V) :
  Dict.get (Dict.set d k v) k' =
  if String.eqb k' k then Some v else Dict.get d k'.
Proof.
  induction d as [|[k0 v0] d IH]; simpl.
  - reflexivity.
  - destruct (String.eqb k k0) eqn:E; simpl.
    + apply String.eqb_eq in E. subst k0.
      destruct (String.eqb k' k); reflexivity.
    + rewrite IH. destruct (String.eqb k' k0) eqn:E'; [|reflexivity].
      apply String.eqb_eq in E'. subst k0.
      destruct (String.eqb k' k) eqn:E''; [|reflexivity].
      apply String.eqb_eq in E''. subst k'.
      rewrite String.eqb_refl in E. discriminate.
Qed.

Lemma set_same {V} (d : Dict.t V) (k : string) (v : V) :
  Dict.get d k = Some v -> Dict.set d k v = d.
Proof.
  induction d as [|[k0 v0] d IH]; simpl; [discriminate|].
  destruct (String.eqb k k0) eqn:E.
  - intros H; inversion H; reflexivity.
  - intros H. rewrite (IH H). reflexivity.
Qed.

Lemma set_set {V} (d : Dict.t V) (k : string) (v w : V) :
  Dict.set (Dict.set d k v) k w = Dict.set d k w.
Proof.
  induction d as [|[k0 v0] d IH]; simpl.
  - rewrite String.eqb_refl. reflexivity.
  - destruct (String.eqb k k0) eqn:E; simpl; rewrite E; [reflexivity|].
    rewrite IH. reflexivity.
Qed.

(** ** Bytes *)

Lemma byte_val_range (b : byte) : 0 <= byte_val b < 256.
Proof.
  unfold byte_val. pose proof (Byte.to_N_bounded b). lia.
Qed.

Lemma byte_val_inj (a b : byte) : byte_val a = byte_val b -> a = b.
Proof.
  unfold byte_val. intros H. apply N2Z.inj in H.
  pose proof (Byte.of_to_N a) as Ha. pose proof (Byte.of_to_N b) as Hb.
  rewrite H in Ha. congruence.
Qed.

Lemma le_bytes_range (l : list byte) :
  0 <= le_bytes l < 256 ^ Z.of_nat (List.length l).
Proof.
  induction l as [|b l IH].
  - simpl. lia.
  - cbn [le_bytes List.length]. rewrite Nat2Z.inj_succ, Z.pow_succ_r by lia.
    pose proof (byte_val_range b). lia.
Qed.

Lemma le_bytes_inj (l1 l2 : list byte) :
  List.length l1 = List.length l2 -> le_bytes l1 = le_bytes l2 -> l1 = l2.
Proof.
  revert l2. induction l1 as [|a l1 IH]; destruct l2 as [|b l2];
    cbn [le_bytes List.length]; try discriminate; [reflexivity|].
  intros Hlen H. injection Hlen as Hlen.
  pose proof (byte_val_range a). pose proof (byte_val_range b).
  assert (byte_val a = byte_val b) by lia.
  assert (le_bytes l1 = le_bytes l2) by lia.
  f_equal; [apply byte_val_inj; assumption | apply IH; assumption].
Qed.

Lemma uint_of_inj (s : endian) (l1 l2 : list byte) :
  List.length l1 = List.length l2 -> uint_of s l1 = uint_of s l2 -> l1 = l2.
Proof.
  destruct s; simpl; intros Hlen H.
  - apply le_bytes_inj; assumption.
  - apply le_bytes_inj in H; [|rewrite !length_rev; assumption].
    rewrite <- (rev_involutive l1), <- (rev_involutive l2), H. reflexivity.
Qed.

Lemma uint_of_range (s : endian) (l : list byte) :
  0 <= uint_of s l < 256 ^ Z.of_nat (List.length l).
Proof.
  destruct s; simpl; [apply le_bytes_range|].
  rewrite <- (length_rev l). apply le_bytes_range.
Qed.

(** ** Reads *)

Lemma sub_length (f : file) (p n : Z) :
  0 <= p -> 0 <= n ->
  Z.of_nat (List.length (sub f p n))
  = Z.min n (Z.max 0 (Z.of_nat (List.length f) - p)).
Proof.
  intros Hp Hn. unfold sub. rewrite length_firstn, length_skipn. lia.
Qed.

Lemma sub_full (f : file) (p n : Z) :
  0 <= p -> 0 <= n -> p + n <= Z.of_nat (List.length f) ->
  List.length (sub f p n) = Z.to_nat n.
Proof.
  intros Hp Hn H. pose proof (sub_length f p n Hp Hn). lia.
Qed.

Lemma bind_read_val (f : file) (n : nat) (dec : list byte -> Z)
  (unpack : list byte -> result Z) {B} (k : Z -> IO B) (p : Z) :
  (forall data, unpack data =
     if (List.length data =? n)%nat then Ok (dec data) else Err StructError) ->
  (0 < n)%nat -> 0 <= p ->
  iobind (read_val f (Z.of_nat n) unpack) k p =
  if p + Z.of_nat n <=? flen f
  then k (dec (sub f p (Z.of_nat n))) (p + Z.of_nat n)
  else Err StructError.
Proof.
  intros Hu Hn Hp. unfold read_val, iobind, f_read, lift, flen. rewrite Hu.
  pose proof (sub_length f p (Z.of_nat n) Hp ltac:(lia)) as HL.
  destruct (Z.leb_spec (p + Z.of_nat n) (Z.of_nat (List.length f))) as [H|H].
  - assert (E : List.length (sub f p (Z.of_nat n)) = n) by lia.
    rewrite E, Nat.eqb_refl. reflexivity.
  - assert (E : (List.length (sub f p (Z.of_nat n)) =? n)%nat = false)
      by (apply Nat.eqb_neq; lia).
    rewrite E. reflexivity.
Qed.

Lemma bind_read_I (f : file) (s : endian) {B} (k : Z -> IO B) (p : Z) :
  0 <= p ->
  iobind (read_val f 4 (unpack_I s)) k p =
  if p + 4 <=? flen f then k (uint_of s (sub f p 4)) (p + 4)
  else Err StructError.
Proof.
  intros Hp. apply (bind_read_val f 4 (uint_of s)); [reflexivity | lia | exact Hp].
Qed.

Lemma bind_read_i (f : file) (s : endian) {B} (k : Z -> IO B) (p : Z) :
  0 <= p ->
  iobind (read_val f 4 (unpack_i s)) k p =
  if p + 4 <=? flen f then k (to_signed 32 (uint_of s (sub f p 4))) (p + 4)
  else Err StructError.
Proof.
  intros Hp.
  apply (bind_read_val f 4 (fun d => to_signed 32 (uint_of s d)));
    [reflexivity | lia | exact Hp].
Qed.

Lemma bind_read_d (f : file) (s : endian) {B} (k : Z -> IO B) (p : Z) :
  0 <= p ->
  iobind (read_val f 8 (unpack_d s)) k p =
  if p + 8 <=? flen f then k (uint_of s (sub f p 8)) (p + 8)
  else Err StructError.
Proof.
  intros Hp. apply (bind_read_val f 8 (uint_of s)); [reflexivity | lia | exact Hp].
Qed.

Lemma bind_read_dict_nil (f : file) n u d {B} (k : Dict.t Z -> IO B) p :
  iobind (read_dict f n u [] d) k p = k d p.
Proof. reflexivity. Qed.

Lemma bind_read_dict_cons (f : file) n u key keys d {B}
  (k : Dict.t Z -> IO B) p :
  iobind (read_dict f n u (key :: keys) d) k p =
  iobind (read_val f n u)
    (fun v => iobind (read_dict f n u keys (Dict.set d key v)) k) p.
Proof.
  cbn [read_dict]. unfold read_val, iobind, f_read, lift.
  destruct (u (sub f p n)); reflexivity.
Qed.

Lemma bind_ioret {A B} (a : A) (k : A -> IO B) p :
  iobind (ioret a) k p = k a p.
Proof. reflexivity. Qed.

Lemma bind_raise {A B} (e : error) (k : A -> IO B) p :
  iobind (raise e) k p = Err e.
Proof. reflexivity. Qed.

Lemma bind_f_read (f : file) (n : Z) {B} (k : list byte -> IO B) p :
  iobind (f_read f n) k p
  = k (sub f p n) (p + Z.of_nat (List.length (sub f p n))).
Proof. reflexivity. Qed.

Lemma bind_lift_ok {A B} (a : A) (k : A -> IO B) p :
  iobind (lift (Ok a)) k p = k a p.
Proof. reflexivity. Qed.

Lemma bind_lift_err {A B} (e : error) (k : A -> IO B) p :
  iobind (lift (Err e)) k p = Err e.
Proof. reflexivity. Qed.

Lemma bind_seek_set {B} (o : Z) (k : unit -> IO B) p :
  0 <= o -> iobind (f_seek_set o) k p = k tt o.
Proof.
  intros H. unfold iobind, f_seek_set.
  destruct (Z.ltb_spec o 0); [lia | reflexivity].
Qed.

Lemma bind_seek_cur {B} (o : Z) (k : unit -> IO B) p :
  0 <= p + o -> iobind (f_seek_cur o) k p = k tt (p + o).
Proof.
  intros H. unfold iobind, f_seek_cur.
  destruct (Z.ltb_spec (p + o) 0); [lia | reflexivity].
Qed.

(** ** The header *)

Ltac io_step :=
  first
    [ rewrite bind_read_dict_nil
    | rewrite bind_read_dict_cons
    | rewrite bind_ioret
    | rewrite bind_raise
    | rewrite bind_read_I by lia
    | rewrite bind_read_i by lia
    | rewrite bind_read_d by lia ].

Ltac leb_true :=
  match goal with
  | |- context [?a <=? ?b] =>
      let H := fresh in
      assert (H : (a <=? b) = true) by (apply Z.leb_le; lia);
      rewrite H; clear H
  end.

Lemma read_header_io_tail (f : file) (self : Simulation) (s : endian) :
  264 <= flen f ->
  iobind (read_dict f 4 (unpack_I s) particle_keys [])
    (fun particle_numbers =>
     particle_mass <- read_dict f 8 (unpack_d s) particle_keys [] ;;
     cosmic_time <- read_val f 8 (unpack_d s) ;;
     redshift <- read_val f 8 (unpack_d s) ;;
     fl_sfr <- read_val f 4 (unpack_i s) ;;
     let flags := Dict.set (flags self) "sfr" fl_sfr in
     fl_feedback <- read_val f 4 (unpack_i s) ;;
     let flags := Dict.set flags "feedback" fl_feedback in
     particle_total_numbers <- read_dict f 4 (unpack_I s) particle_keys [] ;;
     fl_cooling <- read_val f 4 (unpack_i s) ;;
     let flags := Dict.set flags "cooling" fl_cooling in
     file_number <- read_val f 4 (unpack_i s) ;;
     box_size <- read_val f 8 (unpack_d s) ;;
     omega_matter <- read_val f 8 (unpack_d s) ;;
     omega_lambda <- read_val f 8 (unpack_d s) ;;
     h <- read_val f 8 (unpack_d s) ;;
     fl_stellar_age <- read_val f 4 (unpack_i s) ;;
     let flags := Dict.set flags "stellar_age" fl_stellar_age in
     fl_metals <- read_val f 4 (unpack_i s) ;;
     let flags := Dict.set flags "metals" fl_metals in
     particle_total_numbers_hw <- read_dict f 4 (unpack_i s) particle_keys [] ;;
     fl_entr_ics <- read_val f 4 (unpack_i s) ;;
     let flags := Dict.set flags "entr_ics" fl_entr_ics in
     f_read f size_unused ;;;
     size <- read_val f 4 (unpack_i s) ;;
     if negb (size =? size_checked)
     then raise (NameError "Error reading header in file")
     else ioret (mkSimulation (use_longids self) flags s particle_numbers
                   particle_mass cosmic_time redshift particle_total_numbers
                   file_number box_size omega_matter omega_lambda h
                   particle_total_numbers_hw (block_sizes self)))%io 4
  = if i32_at s f 260 =? 256 then Ok (header_of f self s, 264)
    else Err header_error.
Proof.
  intros Hlen. unfold particle_keys.
  repeat (io_step; try leb_true).
  rewrite bind_f_read.
  rewrite (sub_full f _ size_unused)
    by (unfold size_unused, size_checked, size_used, flen in *; lia).
  change (Z.of_nat (Z.to_nat size_unused)) with 60.
  io_step. leb_true.
  unfold size_checked.
  match goal with
  | |- context [negb (?x =? 256)] => change x with (i32_at s f 260)
  end.
  destruct (i32_at s f 260 =? 256); reflexivity.
Qed.

Ltac leb_case :=
  match goal with
  | |- context [?a <=? ?b] => destruct (Z.leb_spec a b); [| reflexivity]
  end.

Lemma read_header_io_tail_short (f : file) (self : Simulation) (s : endian) :
  flen f < 264 ->
  iobind (read_dict f 4 (unpack_I s) particle_keys [])
    (fun particle_numbers =>
     particle_mass <- read_dict f 8 (unpack_d s) particle_keys [] ;;
     cosmic_time <- read_val f 8 (unpack_d s) ;;
     redshift <- read_val f 8 (unpack_d s) ;;
     fl_sfr <- read_val f 4 (unpack_i s) ;;
     let flags := Dict.set (flags self) "sfr" fl_sfr in
     fl_feedback <- read_val f 4 (unpack_i s) ;;
     let flags := Dict.set flags "feedback" fl_feedback in
     particle_total_numbers <- read_dict f 4 (unpack_I s) particle_keys [] ;;
     fl_cooling <- read_val f 4 (unpack_i s) ;;
     let flags := Dict.set flags "cooling" fl_cooling in
     file_number <- read_val f 4 (unpack_i s) ;;
     box_size <- read_val f 8 (unpack_d s) ;;
     omega_matter <- read_val f 8 (unpack_d s) ;;
     omega_lambda <- read_val f 8 (unpack_d s) ;;
     h <- read_val f 8 (unpack_d s) ;;
     fl_stellar_age <- read_val f 4 (unpack_i s) ;;
     let flags := Dict.set flags "stellar_age" fl_stellar_age in
     fl_metals <- read_val f 4 (unpack_i s) ;;
     let flags := Dict.set flags "metals" fl_metals in
     particle_total_numbers_hw <- read_dict f 4 (unpack_i s) particle_keys [] ;;
     fl_entr_ics <- read_val f 4 (unpack_i s) ;;
     let flags := Dict.set flags "entr_ics" fl_entr_ics in
     f_read f size_unused ;;;
     size <- read_val f 4 (unpack_i s) ;;
     if negb (size =? size_checked)
     then raise (NameError "Error reading header in file")
     else ioret (mkSimulation (use_longids self) flags s particle_numbers
                   particle_mass cosmic_time redshift particle_total_numbers
                   file_number box_size omega_matter omega_lambda h
                   particle_total_numbers_hw (block_sizes self)))%io 4
  = Err StructError.
Proof.
  intros Hlen. unfold particle_keys.
  repeat (io_step; try leb_case).
  rewrite bind_f_read. io_step. leb_case.
  exfalso.
  match goal with
  | H : context [List.length (sub f ?p ?n)] |- _ =>
      pose proof (sub_length f p n ltac:(lia)
                    ltac:(unfold size_unused, size_checked, size_used; lia))
  end.
  unfold size_unused, size_checked, size_used, flen in *. lia.
Qed.

(** The header parse, case by case. *)
Lemma read_header_io_spec (f : file) (self : Simulation) :
  run (_read_header_io f self) =
  if 4 <=? flen f then
    if i32_at Little f 0 =? 65536 then
      if 264 <=? flen f then
        if i32_at Big f 260 =? 256 then Ok (header_of f self Big)
        else Err header_error
      else Err StructError
    else if i32_at Little f 0 =? 256 then
      if 264 <=? flen f then
        if i32_at Little f 260 =? 256 then Ok (header_of f self Little)
        else Err header_error
      else Err StructError
    else Err header_error
  else Err StructError.
Proof.
  unfold run, _read_header_io. rewrite bind_read_i by lia.
  change (0 + 4) with 4.
  destruct (Z.leb_spec 4 (flen f)) as [H4|H4]; [|reflexivity].
  change (to_signed 32 (uint_of Little (sub f 0 4))) with (i32_at Little f 0).
  unfold size_swaped, size_checked at 1.
  destruct (i32_at Little f 0 =? 65536).
  - rewrite bind_ioret.
    destruct (Z.leb_spec 264 (flen f)) as [H|H].
    + rewrite read_header_io_tail by exact H.
      destruct (i32_at Big f 260 =? 256); reflexivity.
    + rewrite read_header_io_tail_short by exact H. reflexivity.
  - destruct (i32_at Little f 0 =? 256).
    + rewrite bind_ioret.
      destruct (Z.leb_spec 264 (flen f)) as [H|H].
      * rewrite read_header_io_tail by exact H.
        destruct (i32_at Little f 260 =? 256); reflexivity.
      * rewrite read_header_io_tail_short by exact H. reflexivity.
    + rewrite bind_raise. reflexivity.
Qed.

(** ** The layout *)

Lemma getitem_mem {V} (d : Dict.t V) (k : string) :
  Dict.mem k d = true -> exists v, Dict.get d k = Some v.
Proof.
  unfold Dict.mem. destruct (Dict.get d k); [eauto | discriminate].
Qed.

Lemma getitem_count (self : Simulation) (k : string) :
  Dict.mem k (particle_numbers self) = true ->
  Dict.getitem (particle_numbers self) k = Ok (count self k).
Proof.
  intros H. apply getitem_mem in H as [v Hv].
  unfold Dict.getitem, count. rewrite Hv. reflexivity.
Qed.

Lemma getitem_pmass (self : Simulation) (k : string) :
  Dict.mem k (particle_mass self) = true ->
  Dict.getitem (particle_mass self) k = Ok (pmass self k).
Proof.
  intros H. apply getitem_mem in H as [v Hv].
  unfold Dict.getitem, pmass. rewrite Hv. reflexivity.
Qed.

Lemma getitem_flag (self : Simulation) (k : string) :
  Dict.mem k (flags self) = true ->
  Dict.getitem (flags self) k = Ok (flag self k).
Proof.
  intros H. apply getitem_mem in H as [v Hv].
  unfold Dict.getitem, flag. rewrite Hv. reflexivity.
Qed.

Lemma get_set_if (d : Dict.t Z) (c : bool) (k k' : string) (v : Z) :
  Dict.get (if c then Dict.set d k v else d) k'
  = if String.eqb k' k && c then Some v else Dict.get d k'.
Proof.
  destruct c; [rewrite get_set|]; destruct (String.eqb k' k); reflexivity.
Qed.

Lemma get_set2_if (d : Dict.t Z) (c : bool) (k1 k2 k' : string) (v1 v2 : Z) :
  Dict.get (if c then Dict.set (Dict.set d k1 v1) k2 v2 else d) k'
  = if String.eqb k' k2 && c then Some v2
    else if String.eqb k' k1 && c then Some v1 else Dict.get d k'.
Proof.
  destruct c; [rewrite !get_set|];
    destruct (String.eqb k' k2), (String.eqb k' k1); reflexivity.
Qed.

(** What the fields of a well-formed header give. *)
Lemma wf_header_inv (self : Simulation) :
  wf_header self = true ->
  (forall k, In k particle_keys ->
     Dict.mem k (particle_numbers self) = true
     /\ Dict.mem k (particle_mass self) = true /\ 0 <= count self k)
  /\ (forall k, In k flag_keys -> Dict.mem k (flags self) = true).
Proof.
  unfold wf_header. rewrite !andb_true_iff, !forallb_forall.
  intros [[[H1 H2] H3] H4]. split.
  - intros k Hk. repeat split; auto. apply Z.leb_le. auto.
  - auto.
Qed.

Ltac in_list := cbn; tauto.

Lemma file_structure_loop (self : Simulation) :
  wf_header self = true ->
  foldM (count_particles self) particle_keys (0, 0)
  = Ok (total_number self, mass_number self).
Proof.
  intros Hwf. apply wf_header_inv in Hwf as [Hk _].
  assert (Hstep : forall k t m rest,
    In k particle_keys ->
    foldM (count_particles self) (k :: rest) (t, m)
    = foldM (count_particles self) rest
        (t + count self k,
         m + if double_is_zero (pmass self k) then count self k else 0)).
  { intros k t m rest Hin. destruct (Hk k Hin) as (Hn & Hm & _).
    cbn [foldM]. unfold count_particles at 1.
    rewrite (getitem_count _ _ Hn). cbn [rbind].
    destruct (Z.eqb_spec (count self k) 0) as [E|E]; cbn [negb rbind].
    - rewrite E. destruct (double_is_zero (pmass self k));
        rewrite ?Z.add_0_r; reflexivity.
    - rewrite (getitem_pmass _ _ Hm). cbn [rbind].
      destruct (double_is_zero (pmass self k)); cbn [rbind];
        rewrite ?Z.add_0_r; reflexivity. }
  unfold particle_keys at 1.
  rewrite !Hstep by in_list. cbn [foldM].
  unfold total_number, mass_number, sumZ, particle_keys. cbn [map fold_right].
  f_equal. f_equal; lia.
Qed.

Lemma file_structure_spec (self : Simulation) :
  wf_header self = true ->
  exists bs,
    _file_structure self = Ok (set_block_sizes self bs)
    /\ forall key, Dict.get bs key = block_size_spec self key.
Proof.
  intros Hwf. pose proof (wf_header_inv self Hwf) as [Hk Hf].
  unfold _file_structure.
  rewrite (file_structure_loop self Hwf). cbn [rbind].
  rewrite !getitem_count by (apply Hk; in_list). cbn [rbind].
  unfold set_if_flag.
  rewrite !getitem_flag by (apply Hf; in_list).
  cbn [rbind fold_left fst snd].
  eexists. split; [reflexivity|].
  intros key. unfold block_size_spec.
  repeat first [rewrite get_set2_if | rewrite get_set_if | rewrite get_set].
  destruct (use_longids self);
    repeat first [rewrite get_set2_if | rewrite get_set_if | rewrite get_set];
    reflexivity.
Qed.

Lemma wf_set_block_sizes (self : Simulation) (bs : Dict.t Z) :
  wf_header (set_block_sizes self bs) = wf_header self.
Proof. reflexivity. Qed.

Lemma file_structure_sized (self : Simulation) :
  wf_header self = true ->
  exists self', _file_structure self = Ok self' /\ sized self'
    /\ exists bs, self' = set_block_sizes self bs.
Proof.
  intros Hwf. destruct (file_structure_spec self Hwf) as (bs & E & Hbs).
  exists (set_block_sizes self bs). split; [exact E|]. split.
  - split; [exact Hwf | exact Hbs].
  - exists bs. reflexivity.
Qed.

Lemma get_count (self : Simulation) (k : string) :
  Dict.mem k (particle_numbers self) = true ->
  Dict.get (particle_numbers self) k = Some (count self k).
Proof.
  intros H. apply getitem_mem in H as [v Hv]. unfold count.
  rewrite Hv. reflexivity.
Qed.

(** ** The particle types of a block *)

Lemma mass_domain_loop (self : Simulation) :
  wf_header self = true ->
  exists pn,
    foldM (fun d key =>
             m <- Dict.getitem (particle_mass self) key ;;
             if double_is_zero m then
               n <- Dict.getitem (particle_numbers self) key ;;
               if negb (n =? 0) then Ok (Dict.set d key n) else Ok d
             else Ok d)%res
          particle_keys []
    = Ok pn
    /\ forall k, In k particle_keys ->
         Dict.get pn k =
         if double_is_zero (pmass self k) && negb (count self k =? 0)
         then Some (count self k) else None.
Proof.
  intros Hwf. apply wf_header_inv in Hwf as [Hk _].
  set (body := fun (d : Dict.t Z) key =>
             (m <- Dict.getitem (particle_mass self) key ;;
              if double_is_zero m then
                n <- Dict.getitem (particle_numbers self) key ;;
                if negb (n =? 0) then Ok (Dict.set d key n) else Ok d
              else Ok d)%res).
  assert (Hstep : forall k d rest, In k particle_keys ->
    foldM body (k :: rest) d
    = foldM body rest
        (if double_is_zero (pmass self k) && negb (count self k =? 0)
         then Dict.set d k (count self k) else d)).
  { intros k d rest Hin. destruct (Hk k Hin) as (Hn & Hm & _).
    cbn [foldM]. unfold body at 1.
    rewrite (getitem_pmass _ _ Hm). cbn [rbind].
    destruct (double_is_zero (pmass self k)); cbn [andb]; [|reflexivity].
    rewrite (getitem_count _ _ Hn). cbn [rbind].
    destruct (negb (count self k =? 0)); reflexivity. }
  unfold particle_keys at 1.
  rewrite !Hstep by in_list. cbn [foldM].
  eexists. split; [reflexivity|].
  intros k Hin. rewrite !get_set_if. cbn [Dict.get].
  cbn in Hin.
  destruct Hin as [<-|[<-|[<-|[<-|[<-|[<-|[]]]]]]]; cbn [String.eqb Ascii.eqb Bool.eqb andb];
    repeat match goal with
           | |- context [if ?c then _ else _] => destruct c
           end; reflexivity.
Qed.

Lemma block_domain_spec (self : Simulation) (block_type : string) :
  wf_header self = true ->
  exists pn,
    _block_domain self block_type = Ok (pn, dim_spec self block_type)
    /\ forall k, In k particle_keys ->
         Dict.get pn k =
         if in_domain self block_type k then Some (count self k) else None.
Proof.
  intros Hwf. pose proof (wf_header_inv self Hwf) as [Hk _].
  unfold _block_domain, in_domain, dim_spec.
  destruct (str_in block_type ["id"; "pos"; "vel"; "accel"; "pot"; "tstp"]).
  { eexists. split.
    - destruct (str_in block_type ["id"] && use_longids self),
        (str_in block_type ["pos"; "vel"; "accel"]); reflexivity.
    - intros k Hin. apply get_count. apply Hk. exact Hin. }
  destruct (str_in block_type ["u"; "rho"; "ne"; "nh"; "hsml"; "sfr"; "endt"]).
  { cbn [foldM]. rewrite !getitem_count by (apply Hk; in_list).
    cbn [rbind Dict.set]. eexists. split; [reflexivity|].
    intros k _. cbn [Dict.get].
    destruct (String.eqb_spec k "gas"); subst; reflexivity. }
  destruct (str_in block_type ["esn"; "esncold"; "metals"]).
  { cbn [foldM].
    repeat (rewrite getitem_count by (apply Hk; in_list); cbn [rbind foldM]).
    eexists. split.
    - destruct (str_in block_type ["metals"]); reflexivity.
    - intros k _. rewrite !get_set. cbn [Dict.get].
      destruct (String.eqb_spec k "gas"), (String.eqb_spec k "stars");
        subst; try discriminate; reflexivity. }
  destruct (str_in block_type ["mass"]).
  { destruct (mass_domain_loop self Hwf) as (pn & E & Hpn).
    rewrite E. cbn [rbind]. exists pn. split; [reflexivity | exact Hpn]. }
  destruct (str_in block_type ["age"]).
  { cbn [foldM]. rewrite !getitem_count by (apply Hk; in_list).
    cbn [rbind Dict.set]. eexists. split; [reflexivity|].
    intros k _. cbn [Dict.get].
    destruct (String.eqb_spec k "stars"); subst; reflexivity. }
  eexists. split; [reflexivity|]. intros k _. reflexivity.
Qed.

Lemma sum_present_acc (pn : Dict.t Z) (keys : list string) (acc : Z) :
  fold_left (fun acc key =>
               match Dict.get pn key with
               | Some n => acc + n
               | None => acc
               end) keys acc
  = acc + sum_present pn keys.
Proof.
  unfold sum_present. revert acc.
  induction keys as [|k keys IH]; intros acc; cbn [fold_left]; [lia|].
  rewrite IH. rewrite (IH (match Dict.get pn k with
                           | Some n => 0 + n | None => 0 end)).
  destruct (Dict.get pn k); lia.
Qed.

Lemma sum_present_spec (pn : Dict.t Z) (dom : string -> bool)
  (cnt : string -> Z) (keys : list string) :
  (forall k, In k keys ->
     Dict.get pn k = if dom k then Some (cnt k) else None) ->
  sum_present pn keys = sumZ (map (fun k => if dom k then cnt k else 0) keys).
Proof.
  induction keys as [|k keys IH]; intros H; [reflexivity|].
  unfold sum_present. cbn [fold_left]. rewrite sum_present_acc.
  rewrite IH by (intros k' Hk'; apply H; right; exact Hk').
  rewrite (H k) by (left; reflexivity).
  cbn [map sumZ fold_right]. destruct (dom k); reflexivity.
Qed.

Lemma list_index_split (l : list string) (x : string) (n : nat) :
  list_index l x = Ok n ->
  l = (firstn n l ++ x :: skipn (n + 1) l)%list.
Proof.
  revert n. induction l as [|y l IH]; intros n; cbn [list_index];
    [discriminate|].
  destruct (String.eqb_spec x y) as [->|Hne].
  - intros H. injection H as <-. reflexivity.
  - destruct (list_index l x) as [m|e] eqn:E; cbn [rbind]; [|discriminate].
    intros H. injection H as <-. cbn [firstn Nat.add skipn app].
    f_equal. apply IH. reflexivity.
Qed.

Lemma list_index_In (l : list string) (x : string) (n : nat) :
  list_index l x = Ok n -> In x l.
Proof.
  intros H. rewrite (list_index_split l x n H).
  apply in_or_app. right. left. reflexivity.
Qed.

Lemma sumZ_app (l1 l2 : list Z) : sumZ (l1 ++ l2) = sumZ l1 + sumZ l2.
Proof.
  unfold sumZ. induction l1 as [|a l1 IH]; cbn [app fold_right]; lia.
Qed.

Lemma domain_sum_split (self : Simulation) (block_type : string)
  (l1 l2 : list string) (x : string) :
  domain_sum self block_type (l1 ++ x :: l2)
  = domain_sum self block_type l1 + domain_count self block_type x
    + domain_sum self block_type l2.
Proof.
  unfold domain_sum. rewrite map_app, sumZ_app. cbn [map].
  unfold sumZ. cbn [fold_right]. lia.
Qed.

(** [_compute_offset] in closed form. *)
Lemma compute_offset_spec (self : Simulation) (block_type particle_type : string) :
  wf_header self = true ->
  _compute_offset self block_type particle_type =
  match list_index particle_keys particle_type with
  | Err e => Err e
  | Ok order =>
      if in_domain self block_type particle_type then
        Ok (domain_sum self block_type (firstn order particle_keys)
              * (dim_spec self block_type * 4),
            count self particle_type * (dim_spec self block_type * 4),
            domain_sum self block_type (skipn (order + 1) particle_keys)
              * (dim_spec self block_type * 4))
      else Err (KeyError particle_type)
  end.
Proof.
  intros Hwf. unfold _compute_offset.
  destruct (block_domain_spec self block_type Hwf) as (pn & E & Hpn).
  rewrite E. cbn [rbind].
  destruct (list_index particle_keys particle_type) as [order|e] eqn:Eo;
    cbn [rbind]; [|reflexivity].
  pose proof (list_index_In _ _ _ Eo) as Hin.
  pose proof (list_index_split _ _ _ Eo) as Hsplit.
  unfold Dict.getitem. rewrite (Hpn _ Hin).
  destruct (in_domain self block_type particle_type); [|reflexivity].
  cbn [rbind]. unfold domain_sum, domain_count.
  rewrite !(sum_present_spec pn (in_domain self block_type) (count self)).
  - reflexivity.
  - intros k Hk. apply Hpn. rewrite Hsplit. apply in_or_app. right. right.
    exact Hk.
  - intros k Hk. apply Hpn. rewrite Hsplit. apply in_or_app. left. exact Hk.
Qed.

(** The three parts of a block add up to the types the block holds. *)
Lemma compute_offset_total (self : Simulation) (block_type particle_type : string)
  (offset read_size remainder : Z) :
  wf_header self = true ->
  _compute_offset self block_type particle_type
  = Ok (offset, read_size, remainder) ->
  offset + read_size + remainder
  = domain_sum self block_type particle_keys * (dim_spec self block_type * 4)
  /\ in_domain self block_type particle_type = true
  /\ In particle_type particle_keys.
Proof.
  intros Hwf. rewrite (compute_offset_spec _ _ _ Hwf).
  destruct (list_index particle_keys particle_type) as [order|e] eqn:Eo;
    [|discriminate].
  destruct (in_domain self block_type particle_type) eqn:Ed; [|discriminate].
  intros H. injection H as <- <- <-.
  split; [|split; [reflexivity | eapply list_index_In; exact Eo]].
  pose proof (list_index_split _ _ _ Eo) as Hsplit.
  replace (domain_sum self block_type particle_keys)
    with (domain_sum self block_type
            (firstn order particle_keys
             ++ particle_type :: skipn (order + 1) particle_keys))
    by (f_equal; symmetry; exact Hsplit).
  rewrite domain_sum_split. unfold domain_count. rewrite Ed. lia.
Qed.

Lemma domain_count_nonneg (self : Simulation) (block_type k : string) :
  wf_header self = true -> In k particle_keys ->
  0 <= domain_count self block_type k.
Proof.
  intros Hwf Hin. apply wf_header_inv in Hwf as [Hk _].
  unfold domain_count. destruct (in_domain self block_type k); [|lia].
  apply Hk. exact Hin.
Qed.

Lemma domain_sum_nonneg (self : Simulation) (block_type : string)
  (keys : list string) :
  wf_header self = true -> (forall k, In k keys -> In k particle_keys) ->
  0 <= domain_sum self block_type keys.
Proof.
  intros Hwf. unfold domain_sum.
  induction keys as [|k keys IH]; intros Hsub; cbn [map sumZ fold_right];
    [lia|].
  pose proof (domain_count_nonneg self block_type k Hwf
                (Hsub k (or_introl eq_refl))).
  assert (0 <= sumZ (map (domain_count self block_type) keys))
    by (apply IH; intros k' Hk'; apply Hsub; right; exact Hk').
  unfold sumZ in *. lia.
Qed.

Lemma dim_spec_pos (self : Simulation) (block_type : string) :
  0 < dim_spec self block_type.
Proof.
  unfold dim_spec.
  repeat match goal with
         | |- context [if ?c then _ else _] => destruct c
         end; lia.
Qed.

Lemma compute_offset_nonneg (self : Simulation) (block_type particle_type : string)
  (offset read_size remainder : Z) :
  wf_header self = true ->
  _compute_offset self block_type particle_type
  = Ok (offset, read_size, remainder) ->
  0 <= offset /\ 0 <= read_size /\ 0 <= remainder.
Proof.
  intros Hwf. rewrite (compute_offset_spec _ _ _ Hwf).
  destruct (list_index particle_keys particle_type) as [order|e] eqn:Eo;
    [|discriminate].
  destruct (in_domain self block_type particle_type) eqn:Ed; [|discriminate].
  intros H. injection H as <- <- <-.
  pose proof (dim_spec_pos self block_type).
  pose proof (list_index_split _ _ _ Eo) as Hsplit.
  pose proof (list_index_In _ _ _ Eo) as Hin.
  assert (0 <= count self particle_type)
    by (apply wf_header_inv in Hwf as [Hk _]; apply Hk; exact Hin).
  assert (0 <= domain_sum self block_type (firstn order particle_keys)).
  { apply domain_sum_nonneg; [exact Hwf|]. intros k Hk.
    rewrite Hsplit. apply in_or_app. left. exact Hk. }
  assert (0 <= domain_sum self block_type (skipn (order + 1) particle_keys)).
  { apply domain_sum_nonneg; [exact Hwf|]. intros k Hk.
    rewrite Hsplit. apply in_or_app. right. right. exact Hk. }
  repeat split; apply Z.mul_nonneg_nonneg; lia.
Qed.

Ltac eval_keys :=
  cbn [str_in existsb String.eqb Ascii.eqb Bool.eqb orb andb negb map
       particle_keys sumZ fold_right].

Lemma mass_count_eq (z : bool) (n : Z) :
  (if z && negb (n =? 0) then n else 0) = (if z then n else 0).
Proof.
  destruct z; cbn [andb]; [|reflexivity].
  destruct (Z.eqb_spec n 0); cbn [negb]; lia.
Qed.

(** The size of every data block is the number of particles it holds times
    the bytes per particle. *)
Lemma domain_total (self : Simulation) (block_type : string) (size : Z) :
  block_size_spec self block_type = Some size ->
  block_type <> "header" ->
  domain_sum self block_type particle_keys * (dim_spec self block_type * 4)
  = size.
Proof.
  unfold block_size_spec. intros H Hne.
  repeat match type of H with
  | (if String.eqb block_type ?k && ?c then _ else _) = _ =>
      destruct (String.eqb_spec block_type k) as [->|?];
      [destruct c; cbn [andb] in H|cbn [andb] in H]
  | (if String.eqb block_type ?k then _ else _) = _ =>
      destruct (String.eqb_spec block_type k) as [->|?]
  end;
  try discriminate; try congruence;
  injection H as <-;
  unfold domain_sum, domain_count, in_domain, dim_spec, total_number,
    mass_number;
  eval_keys; rewrite ?mass_count_eq;
  try (destruct (use_longids self)); lia.
Qed.

(** ** The block reader *)

Lemma block_size_nonneg (self : Simulation) (key : string) (size : Z) :
  wf_header self = true -> block_size_spec self key = Some size -> 0 <= size.
Proof.
  intros Hwf H.
  destruct (String.eqb_spec key "header") as [->|Hne].
  - cbn in H. injection H as <-. lia.
  - rewrite <- (domain_total self key size H Hne).
    pose proof (dim_spec_pos self key).
    pose proof (domain_sum_nonneg self key particle_keys Hwf (fun k H => H)).
    apply Z.mul_nonneg_nonneg; lia.
Qed.

Lemma read_block_skip_nonneg (self : Simulation) (order : nat) :
  sized self -> 0 <= read_block_skip self order.
Proof.
  intros [Hwf Hbs]. unfold read_block_skip.
  assert (G : forall keys acc, 0 <= acc ->
    0 <= fold_left (fun skip key =>
               match Dict.get (block_sizes self) key with
               | Some size => skip + (size + 8)
               | None => skip
               end) keys acc).
  { induction keys as [|k keys IH]; intros acc Hacc; cbn [fold_left];
      [exact Hacc|].
    apply IH. destruct (Dict.get (block_sizes self) k) as [v|] eqn:E;
      [|exact Hacc].
    rewrite Hbs in E. pose proof (block_size_nonneg self k v Hwf E). lia. }
  apply G. lia.
Qed.

(** The raw read of [read_block], case by case. *)
Lemma read_block_io_spec (f : file) (s : endian) (self : Simulation)
  (block_type particle_type : string) :
  sized self ->
  run (read_block_io f s self block_type particle_type) =
  match Dict.get (block_sizes self) block_type with
  | None => Err (KeyError block_type)
  | Some size =>
      match list_index block_keys block_type with
      | Err e => Err e
      | Ok order =>
          let skip := read_block_skip self order in
          if skip + 4 <=? flen f then
            if u32_at s f skip =? size then
              match _compute_offset self block_type particle_type with
              | Err e => Err e
              | Ok (offset, read_size, remainder) =>
                  let trail := skip + 4 + offset + read_size + remainder in
                  if trail + 4 <=? flen f then
                    if u32_at s f trail =? size
                    then Ok (sub f (skip + 4 + offset) read_size)
                    else Err (block_error block_type)
                  else Err StructError
              end
            else Err (block_error block_type)
          else Err StructError
      end
  end.
Proof.
  intros Hs. pose proof Hs as [Hwf Hbs].
  unfold run, read_block_io, Dict.getitem.
  destruct (Dict.get (block_sizes self) block_type) as [size|];
    [|reflexivity].
  rewrite bind_lift_ok.
  destruct (list_index block_keys block_type) as [order|e];
    [|reflexivity].
  rewrite bind_lift_ok. cbv zeta.
  pose proof (read_block_skip_nonneg self order Hs) as Hskip.
  set (skip := read_block_skip self order) in *.
  rewrite bind_seek_set by exact Hskip.
  rewrite bind_read_I by exact Hskip.
  destruct (Z.leb_spec (skip + 4) (flen f)) as [Hl|Hl]; [|reflexivity].
  fold (u32_at s f skip).
  destruct (u32_at s f skip =? size); cbn [negb];
    [|reflexivity].
  destruct (_compute_offset self block_type particle_type)
    as [[[offset read_size] remainder]|e] eqn:Eo; [|reflexivity].
  rewrite bind_lift_ok.
  pose proof (compute_offset_nonneg _ _ _ _ _ _ Hwf Eo) as (Ho & Hr & Hm).
  rewrite bind_seek_cur by lia.
  rewrite bind_f_read.
  pose proof (sub_length f (skip + 4 + offset) read_size ltac:(lia) Hr) as HL.
  rewrite bind_seek_cur by lia.
  rewrite bind_read_I by lia.
  fold (flen f) in HL.
  destruct (Z.leb_spec (skip + 4 + offset + read_size + remainder + 4) (flen f))
    as [Ht|Ht].
  - assert (E : Z.of_nat (List.length (sub f (skip + 4 + offset) read_size))
                = read_size) by lia.
    rewrite E.
    destruct (Z.leb_spec (skip + 4 + offset + read_size + remainder + 4)
                (flen f)); [|lia].
    fold (u32_at s f (skip + 4 + offset + read_size + remainder)).
    destruct (u32_at s f (skip + 4 + offset + read_size + remainder)
              =? size); reflexivity.
  - match goal with
    | |- context [if ?a <=? ?b then _ else _] =>
        destruct (Z.leb_spec a b); [lia | reflexivity]
    end.
Qed.

(** ** Reading the header gives a well-formed object *)

Lemma flags_ready_inv (self : Simulation) :
  flags_ready self = true ->
  forall k, In k ["pot"; "accel"; "endt"; "tstp"] ->
            exists v, Dict.get (flags self) k = Some v.
Proof.
  unfold flags_ready. rewrite forallb_forall. intros H k Hk.
  apply getitem_mem. apply H. exact Hk.
Qed.

Lemma header_of_wf (f : file) (self : Simulation) (s : endian) :
  flags_ready self = true ->
  wf_header (header_of f self s) = true
  /\ flags_ready (header_of f self s) = true.
Proof.
  intros Hr. pose proof (flags_ready_inv self Hr) as Hf.
  destruct (Hf "pot" ltac:(in_list)) as [v1 E1].
  destruct (Hf "accel" ltac:(in_list)) as [v2 E2].
  destruct (Hf "endt" ltac:(in_list)) as [v3 E3].
  destruct (Hf "tstp" ltac:(in_list)) as [v4 E4].
  assert (Hflags : forall k, In k flag_keys ->
            Dict.mem k (flags (header_of f self s)) = true).
  { intros k Hk. unfold Dict.mem, header_of. cbn [flags].
    rewrite !get_set. cbn in Hk.
    destruct Hk as [<-|[<-|[<-|[<-|[<-|[<-|[<-|[<-|[<-|[]]]]]]]]]];
      cbn [String.eqb Ascii.eqb Bool.eqb]; rewrite ?E1, ?E2, ?E3, ?E4;
      reflexivity. }
  split.
  - unfold wf_header. rewrite !andb_true_iff, !forallb_forall.
    repeat split.
    + intros k Hk. cbn in Hk.
      destruct Hk as [<-|[<-|[<-|[<-|[<-|[<-|[]]]]]]]; reflexivity.
    + intros k Hk. cbn in Hk.
      destruct Hk as [<-|[<-|[<-|[<-|[<-|[<-|[]]]]]]]; reflexivity.
    + exact Hflags.
    + intros k Hk. apply Z.leb_le. cbn in Hk.
      destruct Hk as [<-|[<-|[<-|[<-|[<-|[<-|[]]]]]]];
        unfold count, header_of, per_type;
        cbn [particle_numbers Dict.get String.eqb Ascii.eqb Bool.eqb default0];
        apply uint_of_range.
  - unfold flags_ready. rewrite forallb_forall. intros k Hk.
    apply Hflags. cbn in Hk. cbn. tauto.
Qed.

Lemma file_structure_ignores_sizes (self : Simulation) (bs : Dict.t Z) :
  _file_structure (set_block_sizes self bs) = _file_structure self.
Proof. reflexivity. Qed.

(** A sentinel that reads 65536 in the native order reads 256 in the other. *)
Lemma sentinel_swapped (f : file) :
  List.length (sub f 0 4) = 4%nat ->
  i32_at Little f 0 = 65536 -> i32_at Big f 0 = 256.
Proof.
  unfold i32_at, uint_of.
  destruct (sub f 0 4) as [|b0 [|b1 [|b2 [|b3 [|]]]]]; try discriminate.
  intros _. cbn [rev app le_bytes]. unfold to_signed.
  change (2 ^ (32 - 1)) with 2147483648. change (2 ^ 32) with 4294967296.
  pose proof (byte_val_range b0). pose proof (byte_val_range b1).
  pose proof (byte_val_range b2). pose proof (byte_val_range b3).
  repeat match goal with
         | |- context [?a <? ?b] => destruct (Z.ltb_spec a b)
         end; lia.
Qed.

(** The outcome of [_read_header] on an object prepared by [__init__]. *)
Lemma read_header_inv (f : file) (self self' : Simulation) :
  flags_ready self = true ->
  _read_header f self = Ok self' ->
  264 <= flen f
  /\ sized self' /\ flags_ready self' = true
  /\ use_longids self' = use_longids self
  /\ exists s bs,
       self' = set_block_sizes (header_of f self s) bs
       /\ _file_structure (header_of f self s) = Ok self'
       /\ i32_at s f 0 = 256 /\ i32_at s f 260 = 256
       /\ (s = Little /\ i32_at Little f 0 = 256
           \/ s = Big /\ i32_at Little f 0 = 65536).
Proof.
  intros Hr. unfold _read_header. rewrite read_header_io_spec.
  assert (G : forall s, 264 <= flen f -> i32_at s f 260 = 256 ->
            (s = Little /\ i32_at Little f 0 = 256
             \/ s = Big /\ i32_at Little f 0 = 65536) ->
            i32_at s f 0 = 256 ->
            (x <- Ok (header_of f self s);; _file_structure x)%res = Ok self' ->
            264 <= flen f
            /\ sized self' /\ flags_ready self' = true
            /\ use_longids self' = use_longids self
            /\ exists s bs,
                self' = set_block_sizes (header_of f self s) bs
                /\ _file_structure (header_of f self s) = Ok self'
                /\ i32_at s f 0 = 256 /\ i32_at s f 260 = 256
                /\ (s = Little /\ i32_at Little f 0 = 256
                    \/ s = Big /\ i32_at Little f 0 = 65536)).
  { intros s Hlen Ht Hs H0. cbn [rbind].
    destruct (header_of_wf f self s Hr) as [Hwf Hfr].
    destruct (file_structure_spec _ Hwf) as (bs & E & Hbs).
    rewrite E. intros H. injection H as <-.
    split; [exact Hlen|]. split; [split; [exact Hwf | exact Hbs]|].
    split; [exact Hfr|]. split; [reflexivity|].
    exists s, bs. repeat split; assumption. }
  destruct (Z.leb_spec 4 (flen f)); [|discriminate].
  destruct (Z.eqb_spec (i32_at Little f 0) 65536) as [E0|E0].
  - destruct (Z.leb_spec 264 (flen f)); [|discriminate].
    destruct (Z.eqb_spec (i32_at Big f 260) 256); [|discriminate].
    apply G; auto.
    apply sentinel_swapped; [|exact E0].
    apply sub_full; unfold flen in *; lia.
  - destruct (Z.eqb_spec (i32_at Little f 0) 256) as [E1|E1]; [|discriminate].
    destruct (Z.leb_spec 264 (flen f)); [|discriminate].
    destruct (Z.eqb_spec (i32_at Little f 260) 256); [|discriminate].
    apply G; auto.
Qed.

Lemma read_header_io_ok (f : file) (self : Simulation) (s : endian) :
  264 <= flen f ->
  (s = Little /\ i32_at Little f 0 = 256
   \/ s = Big /\ i32_at Little f 0 = 65536) ->
  i32_at s f 260 = 256 ->
  run (_read_header_io f self) = Ok (header_of f self s).
Proof.
  intros Hlen Hs Ht. rewrite read_header_io_spec.
  destruct (Z.leb_spec 4 (flen f)); [|lia].
  destruct (Z.leb_spec 264 (flen f)); [|lia].
  destruct Hs as [[-> E]|[-> E]]; rewrite E; cbn [Z.eqb Pos.eqb];
    rewrite Ht; reflexivity.
Qed.

Lemma header_of_again (f : file) (self : Simulation) (s : endian)
  (bs : Dict.t Z) :
  header_of f (set_block_sizes (header_of f self s) bs) s
  = set_block_sizes (header_of f self s) bs.
Proof.
  unfold header_of, set_block_sizes.
  cbn [use_longids flags swap particle_numbers particle_mass cosmic_time
       redshift particle_total_numbers file_number box_size omega_matter
       omega_lambda h particle_total_numbers_hw block_sizes].
  f_equal.
  repeat (rewrite (set_same _ _ _)
            by (rewrite !get_set; reflexivity)).
  reflexivity.
Qed.

(** Reading the header of the same file again changes nothing. *)
Lemma read_header_idem (f : file) (self self' : Simulation) :
  flags_ready self = true ->
  _read_header f self = Ok self' -> _read_header f self' = Ok self'.
Proof.
  intros Hr H.
  destruct (read_header_inv f self self' Hr H)
    as (Hlen & _ & _ & _ & s & bs & -> & Hfs & _ & Ht & Hs).
  unfold _read_header.
  rewrite (read_header_io_ok f _ s Hlen Hs Ht). cbn [rbind].
  rewrite header_of_again, file_structure_ignores_sizes. exact Hfs.
Qed.

Lemma read_header_ok (f : file) (self : Simulation) (s : endian) :
  flags_ready self = true ->
  264 <= flen f ->
  (s = Little /\ i32_at Little f 0 = 256
   \/ s = Big /\ i32_at Little f 0 = 65536) ->
  i32_at s f 260 = 256 ->
  exists self', _read_header f self = Ok self'.
Proof.
  intros Hr Hlen Hs Ht. unfold _read_header.
  rewrite (read_header_io_ok f self s Hlen Hs Ht). cbn [rbind].
  destruct (header_of_wf f self s Hr) as [Hwf _].
  destruct (file_structure_spec _ Hwf) as (bs & E & _).
  eexists. exact E.
Qed.

Lemma rbind_inv {A B} (m : result A) (k : A -> result B) (r : B) :
  rbind m k = Ok r -> exists a, m = Ok a /\ k a = Ok r.
Proof.
  destruct m as [a|e]; cbn [rbind]; [eauto | discriminate].
Qed.

Lemma file_structure_fields (self self' : Simulation) :
  _file_structure self = Ok self' ->
  exists bs, self' = set_block_sizes self bs.
Proof.
  unfold _file_structure. intros H.
  repeat match type of H with
         | rbind ?m _ = Ok _ =>
             let a := fresh "a" in
             let E := fresh "E" in
             apply rbind_inv in H as (a & E & H)
         | (let '(_, _) := ?p in _) = Ok _ => destruct p
         end.
  injection H as <-. eexists. reflexivity.
Qed.

(** [_read_header] succeeds only on an object that carries the four flags
    given to [__init__]. *)
Lemma file_structure_needs_flags (self self' : Simulation) :
  _file_structure self = Ok self' ->
  forall k, In k ["pot"; "accel"; "endt"; "tstp"] ->
            Dict.mem k (flags self) = true.
Proof.
  unfold _file_structure, set_if_flag. intros H.
  repeat match type of H with
         | rbind ?m _ = Ok _ =>
             let a := fresh "a" in
             let E := fresh "E" in
             apply rbind_inv in H as (a & E & H)
         | (let '(_, _) := ?p in _) = Ok _ => destruct p
         end.
  repeat match goal with
         | E : rbind _ _ = Ok _ |- _ => apply rbind_inv in E as (? & ? & ?)
         end.
  assert (G : forall k v, Dict.getitem (flags self) k = Ok v ->
                          Dict.mem k (flags self) = true).
  { intros k v. unfold Dict.getitem, Dict.mem.
    destruct (Dict.get (flags self) k); [reflexivity | discriminate]. }
  intros k Hk. cbn in Hk.
  destruct Hk as [<-|[<-|[<-|[<-|[]]]]]; eapply G; eassumption.
Qed.

Lemma read_header_ready (f : file) (self self' : Simulation) :
  _read_header f self = Ok self' -> flags_ready self = true.
Proof.
  unfold _read_header. intros H. apply rbind_inv in H as (x & Hx & H).
  pose proof (file_structure_needs_flags x self' H) as Hk.
  assert (Ex : exists s, x = header_of f self s).
  { rewrite read_header_io_spec in Hx.
    repeat match type of Hx with
           | (if ?c then _ else _) = Ok _ => destruct c; try discriminate
           end; injection Hx as <-; eauto. }
  destruct Ex as [s ->].
  unfold flags_ready. apply forallb_forall. intros k Hin.
  specialize (Hk k Hin). unfold Dict.mem, header_of in Hk. cbn [flags] in Hk.
  rewrite !get_set in Hk. unfold Dict.mem. cbn in Hin.
  destruct Hin as [<-|[<-|[<-|[<-|[]]]]];
    cbn [String.eqb Ascii.eqb Bool.eqb] in Hk; exact Hk.
Qed.

(** An object whose header was read from [f] has the byte order of [f]. *)
Lemma byte_order_kept_after (f : file) (self0 self : Simulation) :
  _read_header f self0 = Ok self -> byte_order_kept f self.
Proof.
  intros Hh self' H.
  pose proof (read_header_ready f self0 self Hh) as Hr.
  rewrite (read_header_idem f self0 self Hr Hh) in H.
  injection H as <-. reflexivity.
Qed.

(** Reading the header again changes nothing. *)
Lemma read_header_again (f : file) (self0 self : Simulation) :
  _read_header f self0 = Ok self ->
  _read_header f self = Ok self /\ flags_ready self = true.
Proof.
  intros Hh. pose proof (read_header_ready f self0 self Hh) as Hr.
  pose proof (read_header_idem f self0 self Hr Hh) as Hi.
  split; [exact Hi|]. exact (read_header_ready f self self Hi).
Qed.

Lemma i32_at_inj (s : endian) (f : file) (p q : Z) :
  List.length (sub f p 4) = 4%nat -> List.length (sub f q 4) = 4%nat ->
  i32_at s f p = i32_at s f q -> sub f p 4 = sub f q 4.
Proof.
  intros Hp Hq. unfold i32_at, to_signed. intros H.
  pose proof (uint_of_range s (sub f p 4)) as Rp.
  pose proof (uint_of_range s (sub f q 4)) as Rq.
  rewrite Hp in Rp. rewrite Hq in Rq.
  change (256 ^ Z.of_nat 4) with 4294967296 in *.
  change (2 ^ (32 - 1)) with 2147483648 in H.
  change (2 ^ 32) with 4294967296 in H.
  apply (uint_of_inj s); [congruence|].
  repeat match type of H with
         | context [?a <? ?b] => destruct (Z.ltb_spec a b)
         end; lia.
Qed.

(** The detected byte order reads the leading record size as 256. *)
Lemma leading_is_256 (f : file) (s : endian) :
  4 <= flen f ->
  (s = Little /\ i32_at Little f 0 = 256
   \/ s = Big /\ i32_at Little f 0 = 65536) ->
  i32_at s f 0 = 256.
Proof.
  intros Hlen [[-> E]|[-> E]]; [exact E|].
  apply sentinel_swapped; [|exact E].
  apply sub_full; unfold flen in *; lia.
Qed.

(** C4. Header parsing reads a 4-byte sentinel in the native (little-endian)
    order: the value 256 selects the native byte order, the byte-swapped
    value 65536 selects the reversed (big-endian) order, and any other value
    raises the header error; with an accepted sentinel, the four bytes that
    follow the 256-byte header region must equal the leading four bytes, or
    the header error is raised; and a file that passes both checks is read
    successfully. *)
Theorem read_header_sentinel_and_trailer (f : file) (self : Simulation) :
  4 <= flen f ->
  (i32_at Little f 0 <> 256 -> i32_at Little f 0 <> 65536 ->
   _read_header f self = Err header_error)
  /\ (264 <= flen f ->
      i32_at Little f 0 = 256 \/ i32_at Little f 0 = 65536 ->
      sub f 260 4 <> sub f 0 4 ->
      _read_header f self = Err header_error)
  /\ (forall self', _read_header f self = Ok self' ->
        (i32_at Little f 0 = 256 /\ swap self' = Little
         \/ i32_at Little f 0 = 65536 /\ swap self' = Big)
        /\ sub f 260 4 = sub f 0 4)
  /\ (flags_ready self = true -> 264 <= flen f ->
      i32_at Little f 0 = 256 \/ i32_at Little f 0 = 65536 ->
      sub f 260 4 = sub f 0 4 ->
      exists self', _read_header f self = Ok self').
Proof.
  intros H4.
  assert (L0 : List.length (sub f 0 4) = 4%nat)
    by (apply sub_full; unfold flen in *; lia).
  assert (L260 : 264 <= flen f -> List.length (sub f 260 4) = 4%nat)
    by (intros; apply sub_full; unfold flen in *; lia).
  assert (Hcase : forall s,
            i32_at Little f 0 = 256 \/ i32_at Little f 0 = 65536 ->
            (s = Little /\ i32_at Little f 0 = 256
             \/ s = Big /\ i32_at Little f 0 = 65536) ->
            i32_at s f 0 = 256)
    by (intros s _ Hs; apply leading_is_256; assumption).
  unfold _read_header. rewrite read_header_io_spec.
  destruct (Z.leb_spec 4 (flen f)); [|lia].
  repeat split.
  - intros N1 N2.
    destruct (Z.eqb_spec (i32_at Little f 0) 65536); [contradiction|].
    destruct (Z.eqb_spec (i32_at Little f 0) 256); [contradiction|].
    reflexivity.
  - intros Hlen Hs Hne.
    destruct (Z.leb_spec 264 (flen f)); [|lia].
    destruct (Z.eqb_spec (i32_at Little f 0) 65536) as [E|E].
    + destruct (Z.eqb_spec (i32_at Big f 260) 256) as [Et|Et];
        [|reflexivity].
      exfalso. apply Hne. apply (i32_at_inj Big); auto.
      rewrite Et. symmetry. apply leading_is_256; auto.
    + destruct Hs as [E1|E1]; [|contradiction]. rewrite E1. cbn [Z.eqb Pos.eqb].
      destruct (Z.eqb_spec (i32_at Little f 260) 256) as [Et|Et];
        [|reflexivity].
      exfalso. apply Hne. apply (i32_at_inj Little); auto. congruence.
  - destruct (Z.eqb_spec (i32_at Little f 0) 65536) as [E|E].
    + destruct (Z.leb_spec 264 (flen f)); [|discriminate].
      destruct (Z.eqb_spec (i32_at Big f 260) 256); [|discriminate].
      cbn [rbind] in H0. apply file_structure_fields in H0 as [bs ->].
      right. split; [exact E | reflexivity].
    + destruct (Z.eqb_spec (i32_at Little f 0) 256) as [E1|E1];
        [|discriminate].
      destruct (Z.leb_spec 264 (flen f)); [|discriminate].
      destruct (Z.eqb_spec (i32_at Little f 260) 256); [|discriminate].
      cbn [rbind] in H0. apply file_structure_fields in H0 as [bs ->].
      left. split; [exact E1 | reflexivity].
  - destruct (Z.eqb_spec (i32_at Little f 0) 65536) as [E|E].
    + destruct (Z.leb_spec 264 (flen f)); [|discriminate].
      destruct (Z.eqb_spec (i32_at Big f 260) 256) as [Et|]; [|discriminate].
      apply (i32_at_inj Big); auto.
      rewrite Et. symmetry. apply leading_is_256; auto.
    + destruct (Z.eqb_spec (i32_at Little f 0) 256) as [E1|E1];
        [|discriminate].
      destruct (Z.leb_spec 264 (flen f)); [|discriminate].
      destruct (Z.eqb_spec (i32_at Little f 260) 256) as [Et|];
        [|discriminate].
      apply (i32_at_inj Little); auto. congruence.
  - intros Hr Hlen Hs Heq.
    destruct (Z.leb_spec 264 (flen f)); [|lia].
    destruct (Z.eqb_spec (i32_at Little f 0) 65536) as [E|E].
    + assert (Et : i32_at Big f 260 = 256).
      { unfold i32_at. rewrite Heq. apply (leading_is_256 f Big); auto. }
      rewrite Et. cbn [Z.eqb Pos.eqb rbind].
      destruct (header_of_wf f self Big Hr) as [Hwf _].
      destruct (file_structure_spec _ Hwf) as (bs & Efs & _).
      eexists. exact Efs.
    + destruct Hs as [E1|E1]; [|contradiction]. rewrite E1. cbn [Z.eqb Pos.eqb].
      assert (Et : i32_at Little f 260 = 256).
      { unfold i32_at. rewrite Heq. exact E1. }
      rewrite Et. cbn [Z.eqb Pos.eqb rbind].
      destruct (header_of_wf f self Little Hr) as [Hwf _].
      destruct (file_structure_spec _ Hwf) as (bs & Efs & _).
      eexists. exact Efs.
Qed.

(** ** What a successful raw read implies, and when it succeeds *)

Lemma read_block_io_inv (f : file) (s : endian) (self : Simulation)
  (block_type particle_type : string) (data : list byte) :
  sized self ->
  run (read_block_io f s self block_type particle_type) = Ok data ->
  exists size order offset read_size remainder,
    Dict.get (block_sizes self) block_type = Some size
    /\ list_index block_keys block_type = Ok order
    /\ _compute_offset self block_type particle_type
       = Ok (offset, read_size, remainder)
    /\ read_block_skip self order + 4 + offset + read_size + remainder + 4
       <= flen f
    /\ u32_at s f (read_block_skip self order) = size
    /\ u32_at s f
         (read_block_skip self order + 4 + offset + read_size + remainder)
       = size
    /\ data = sub f (read_block_skip self order + 4 + offset) read_size.
Proof.
  intros Hs. rewrite (read_block_io_spec f s self _ _ Hs).
  destruct (Dict.get (block_sizes self) block_type) as [size|];
    [|discriminate].
  destruct (list_index block_keys block_type) as [order|]; [|discriminate].
  cbv zeta.
  destruct (Z.leb_spec (read_block_skip self order + 4) (flen f));
    [|discriminate].
  destruct (Z.eqb_spec (u32_at s f (read_block_skip self order)) size);
    [|discriminate].
  destruct (_compute_offset self block_type particle_type)
    as [[[offset read_size] remainder]|]; [|discriminate].
  destruct (Z.leb_spec
              (read_block_skip self order + 4 + offset + read_size + remainder
               + 4) (flen f)); [|discriminate].
  destruct (Z.eqb_spec
              (u32_at s f
                 (read_block_skip self order + 4 + offset + read_size
                  + remainder)) size); [|discriminate].
  intros Hd. injection Hd as <-.
  exists size, order, offset, read_size, remainder.
  repeat split; auto.
Qed.

Lemma read_block_io_ok (f : file) (s : endian) (self : Simulation)
  (block_type particle_type : string)
  (size : Z) (order : nat) (offset read_size remainder : Z) :
  sized self ->
  Dict.get (block_sizes self) block_type = Some size ->
  list_index block_keys block_type = Ok order ->
  _compute_offset self block_type particle_type
  = Ok (offset, read_size, remainder) ->
  read_block_skip self order + 4 + offset + read_size + remainder + 4
  <= flen f ->
  u32_at s f (read_block_skip self order) = size ->
  u32_at s f
    (read_block_skip self order + 4 + offset + read_size + remainder) = size ->
  run (read_block_io f s self block_type particle_type)
  = Ok (sub f (read_block_skip self order + 4 + offset) read_size).
Proof.
  intros Hs Hsize Ho Hc Hlen Hlead Htrail.
  rewrite (read_block_io_spec f s self _ _ Hs), Hsize, Ho, Hc. cbv zeta.
  pose proof (compute_offset_nonneg _ _ _ _ _ _ (proj1 Hs) Hc) as (? & ? & ?).
  destruct (Z.leb_spec (read_block_skip self order + 4) (flen f)); [|lia].
  rewrite Hlead, Z.eqb_refl.
  destruct (Z.leb_spec
              (read_block_skip self order + 4 + offset + read_size + remainder
               + 4) (flen f)); [|lia].
  rewrite Htrail, Z.eqb_refl. reflexivity.
Qed.

(** ** Decoding *)

Lemma length_chunks {A} (k : nat) (l : list A) (n : nat) :
  List.length (chunks k l n) = n.
Proof. unfold chunks. rewrite length_map, length_seq. reflexivity. Qed.

Lemma length_chunk {A} (k : nat) (l : list A) (i : nat) :
  ((i + 1) * k <= List.length l)%nat -> List.length (chunk k l i) = k.
Proof.
  intros H. unfold chunk. rewrite length_firstn, length_skipn. lia.
Qed.

Lemma chunks_rows {A} (k : nat) (l : list A) (n : nat) :
  (n * k <= List.length l)%nat ->
  Forall (fun r => List.length r = k) (chunks k l n).
Proof.
  intros H. unfold chunks. apply Forall_forall. intros r Hr.
  apply in_map_iff in Hr as (i & <- & Hi). apply in_seq in Hi.
  apply length_chunk. nia.
Qed.

Lemma fromstring_ok (s : endian) (k : nat) (data : list byte) (n : nat) :
  (0 < k)%nat -> List.length data = (n * k)%nat ->
  fromstring s k data
  = Ok (mkArray (map (uint_of s) (chunks k data n)) [Z.of_nat n]).
Proof.
  intros Hk Hlen. unfold fromstring. rewrite Hlen.
  rewrite Nat.Div0.mod_mul, Nat.div_mul by lia. reflexivity.
Qed.

Lemma set_shape_ok (items : list Z) (shape0 shape : list Z) :
  forallb (fun d => 0 <=? d) shape = true ->
  fold_right Z.mul 1 shape = Z.of_nat (List.length items) ->
  set_shape (mkArray items shape0) shape = Ok (mkArray items shape).
Proof.
  intros H1 H2. unfold set_shape. cbn [nd_data].
  rewrite H1, H2, Z.eqb_refl. reflexivity.
Qed.

Lemma read_block_unfold (f : file) (self self' : Simulation)
  (block_type particle_type : string) :
  _read_header f self = Ok self' ->
  read_block f self block_type particle_type
  = (data <- run (read_block_io f (swap self) self' block_type particle_type) ;;
     read_block_finish (swap self) (read_id f) self' block_type particle_type
       data)%res.
Proof.
  intros H. unfold read_block, read_block_body. cbv zeta. rewrite H.
  reflexivity.
Qed.

(** The bytes a successful raw read returns are those of the particles of
    the requested type, all of them. *)
Lemma raw_read_length (f : file) (s : endian) (self : Simulation)
  (block_type particle_type : string) (data : list byte) :
  sized self ->
  run (read_block_io f s self block_type particle_type) = Ok data ->
  List.length data
  = Z.to_nat (count self particle_type * (dim_spec self block_type * 4))
  /\ in_domain self block_type particle_type = true
  /\ In particle_type particle_keys.
Proof.
  intros Hs H.
  destruct (read_block_io_inv f s self _ _ _ Hs H)
    as (size & order & offset & read_size & remainder
        & Hsize & Ho & Hc & Hlen & _ & _ & ->).
  pose proof (compute_offset_nonneg _ _ _ _ _ _ (proj1 Hs) Hc) as (? & ? & ?).
  pose proof (read_block_skip_nonneg self order Hs).
  destruct (compute_offset_total _ _ _ _ _ _ (proj1 Hs) Hc) as (_ & Hd & Hin).
  split; [|split; assumption].
  rewrite (compute_offset_spec _ _ _ (proj1 Hs)) in Hc.
  destruct (list_index particle_keys particle_type); [|discriminate].
  rewrite Hd in Hc. injection Hc as _ <- _.
  apply sub_full; unfold flen in *; lia.
Qed.

Lemma wf_count (self : Simulation) (k : string) :
  wf_header self = true -> In k particle_keys ->
  Dict.getitem (particle_numbers self) k = Ok (count self k)
  /\ 0 <= count self k.
Proof.
  intros Hwf Hin. apply wf_header_inv in Hwf as [Hk _].
  destruct (Hk k Hin) as (Hn & _ & Hc).
  split; [apply getitem_count; exact Hn | exact Hc].
Qed.

(** Decoding the identifier block. *)
Lemma finish_id (s : endian)
  (rec : Simulation -> string -> string -> result pdobj)
  (self : Simulation) (particle_type : string) (data : list byte) (n : nat) :
  wf_header self = true -> In particle_type particle_keys ->
  List.length data = (n * (if use_longids self then 8 else 4))%nat ->
  read_block_finish s rec self "id" particle_type data
  = Ok (Series "id"
          (map (uint_of s)
               (chunks (if use_longids self then 8 else 4)%nat data n))).
Proof.
  intros Hwf Hin Hlen. unfold read_block_finish.
  cbn [str_in existsb String.eqb Ascii.eqb Bool.eqb orb negb].
  rewrite (fromstring_ok _ _ _ n) by (try exact Hlen; destruct (use_longids self); lia).
  cbn [rbind]. rewrite (proj1 (wf_count self _ Hwf Hin)). cbn [rbind nd_shape].
  rewrite set_shape_ok.
  - reflexivity.
  - cbn [forallb]. rewrite andb_true_r. apply Z.leb_le. lia.
  - cbn [fold_right]. rewrite length_map, length_chunks. lia.
Qed.

Lemma dim_spec_id (self : Simulation) :
  dim_spec self "id" * 4 = Z.of_nat (id_itemsize self).
Proof.
  unfold dim_spec, id_itemsize. cbn [str_in existsb String.eqb Ascii.eqb Bool.eqb orb andb].
  destruct (use_longids self); reflexivity.
Qed.

(** The inner call returns the identifiers of the particle type. *)
Lemma read_id_ok (f : file) (self : Simulation) (particle_type : string)
  (data : list byte) :
  sized self -> _read_header f self = Ok self ->
  run (read_block_io f (swap self) self "id" particle_type) = Ok data ->
  read_id f self "id" particle_type
  = Ok (Series "id"
          (map (uint_of (swap self))
               (chunks (id_itemsize self) data
                  (Z.to_nat (count self particle_type))))).
Proof.
  intros Hs Hh Hd. unfold read_id, read_block_body. cbv zeta.
  rewrite Hh. cbn [rbind]. rewrite Hd. cbn [rbind].
  destruct (raw_read_length f _ self _ _ _ Hs Hd) as (Hlen & _ & Hin).
  apply finish_id; [exact (proj1 Hs) | exact Hin |].
  rewrite Hlen, dim_spec_id. fold (id_itemsize self).
  pose proof (proj2 (wf_count self _ (proj1 Hs) Hin)). nia.
Qed.

Lemma length_items (s : endian) (data : list byte) (n : nat) :
  List.length (items s data n) = n.
Proof. unfold items. rewrite length_map, length_chunks. reflexivity. Qed.

Lemma pd_DataFrame_2d (values : list Z) (r : Z) (c : nat)
  (columns : list string) (index : list Z) :
  0 <= r -> List.length columns = c -> List.length index = Z.to_nat r ->
  pd_DataFrame (mkArray values [r; Z.of_nat c]) columns index
  = Ok (DataFrame columns index (chunks c values (Z.to_nat r))).
Proof.
  intros H0 Hc Hr. unfold pd_DataFrame, table_of. cbn [nd_shape nd_data rbind].
  rewrite Hc, Hr, Z2Nat.id, !Z.eqb_refl, !Nat2Z.id by exact H0. reflexivity.
Qed.

Lemma pd_DataFrame_1d (values : list Z) (n : Z) (column : string)
  (index : list Z) :
  0 <= n -> List.length index = Z.to_nat n ->
  pd_DataFrame (mkArray values [n]) [column] index
  = Ok (DataFrame [column] index (map (fun x => [x]) values)).
Proof.
  intros H0 Hn. unfold pd_DataFrame, table_of. cbn [nd_shape nd_data rbind].
  rewrite Hn, Z2Nat.id by exact H0. cbn [List.length Z.of_nat Pos.of_succ_nat].
  rewrite !Z.eqb_refl. reflexivity.
Qed.

(** Decoding a block of [width] columns given as [ydim] rows. *)
Lemma finish_table (s : endian)
  (rec : Simulation -> string -> string -> result pdobj)
  (self : Simulation) (block_type particle_type : string)
  (data : list byte) (width : nat) (columns : list string) :
  wf_header self = true -> In particle_type particle_keys ->
  (block_type = "pos" /\ width = 3%nat /\ columns = ["x"; "y"; "z"]
   \/ block_type = "vel" /\ width = 3%nat /\ columns = ["x"; "y"; "z"]
   \/ block_type = "metals" /\ width = 12%nat /\ columns = element_keys) ->
  List.length data
  = (Z.to_nat (count self particle_type) * width * 4)%nat ->
  read_block_finish s rec self block_type particle_type data
  = (ids <- rec self "id" particle_type ;;
     pd_DataFrame
       (mkArray (items s data
                   (Z.to_nat (count self particle_type) * width))
                [count self particle_type; Z.of_nat width])
       columns (pd_values ids))%res.
Proof.
  intros Hwf Hin Hbt Hlen.
  destruct (wf_count self _ Hwf Hin) as [Hget Hnn].
  set (n := Z.to_nat (count self particle_type)) in *.
  unfold read_block_finish.
  destruct Hbt as [(-> & -> & ->)|[(-> & -> & ->)|(-> & -> & ->)]];
    cbn [str_in existsb String.eqb Ascii.eqb Bool.eqb orb negb];
    rewrite (fromstring_ok _ 4 data (n * _)) by (try lia; exact Hlen);
    cbn [rbind]; rewrite Hget; cbn [rbind];
    (rewrite set_shape_ok;
     [ reflexivity
     | cbn [forallb];
       replace (0 <=? count self particle_type) with true
         by (symmetry; apply Z.leb_le; lia);
       reflexivity
     | cbn [fold_right element_keys List.length];
       rewrite length_map, length_chunks; lia ]).
Qed.

(** Decoding a one-column block. *)
Lemma finish_column (s : endian)
  (rec : Simulation -> string -> string -> result pdobj)
  (self : Simulation) (block_type particle_type : string)
  (data : list byte) :
  wf_header self = true -> In particle_type particle_keys ->
  str_in block_type ["pos"; "vel"; "acc"; "accel"; "metals"; "id"] = false ->
  List.length data = (Z.to_nat (count self particle_type) * 4)%nat ->
  read_block_finish s rec self block_type particle_type data
  = (ids <- rec self "id" particle_type ;;
     pd_DataFrame
       (mkArray (items s data (Z.to_nat (count self particle_type)))
                [count self particle_type])
       [block_type] (pd_values ids))%res.
Proof.
  intros Hwf Hin Hbt Hlen.
  destruct (wf_count self _ Hwf Hin) as [Hget Hnn].
  cbn [str_in existsb] in Hbt.
  repeat (apply orb_false_iff in Hbt as [? Hbt]).
  unfold read_block_finish. cbn [str_in existsb].
  repeat match goal with
         | H : String.eqb block_type _ = false |- _ => rewrite H; clear H
         end.
  cbn [orb negb].
  rewrite (fromstring_ok _ 4 data (Z.to_nat (count self particle_type)))
    by (try lia; exact Hlen).
  cbn [rbind]. rewrite Hget. cbn [rbind nd_shape].
  rewrite set_shape_ok.
  - cbn [rbind]. rewrite Z2Nat.id by exact Hnn. reflexivity.
  - cbn [forallb]. rewrite andb_true_r. apply Z.leb_le. lia.
  - cbn [fold_right]. rewrite length_map, length_chunks. lia.
Qed.

(** The inner call, in closed form. *)
Lemma read_id_spec (f : file) (self : Simulation) (particle_type : string) :
  sized self -> _read_header f self = Ok self ->
  read_id f self "id" particle_type
  = (data <- run (read_block_io f (swap self) self "id" particle_type) ;;
     Ok (Series "id"
           (map (uint_of (swap self))
                (chunks (id_itemsize self) data
                   (Z.to_nat (count self particle_type))))))%res.
Proof.
  intros Hs Hh.
  destruct (run (read_block_io f (swap self) self "id" particle_type))
    as [data|e] eqn:E.
  - cbn [rbind]. apply read_id_ok; assumption.
  - unfold read_id, read_block_body. cbv zeta. rewrite Hh. cbn [rbind].
    rewrite E. reflexivity.
Qed.

(** [read_block] on the identifier block. *)
Lemma read_block_id (f : file) (self self' : Simulation) (particle_type : string) :
  flags_ready self = true -> _read_header f self = Ok self' ->
  read_block f self "id" particle_type
  = (iddata <- run (read_block_io f (swap self) self' "id" particle_type) ;;
     Ok (Series "id" (id_values (swap self) self' particle_type iddata)))%res.
Proof.
  intros Hr Hh.
  destruct (read_header_inv f self self' Hr Hh) as (_ & Hs & _).
  rewrite (read_block_unfold f self self' _ _ Hh).
  destruct (run (read_block_io f (swap self) self' "id" particle_type))
    as [data|e] eqn:E; [|reflexivity].
  cbn [rbind].
  destruct (raw_read_length f _ self' _ _ _ Hs E) as (Hlen & _ & Hin).
  apply finish_id; [exact (proj1 Hs) | exact Hin |].
  rewrite Hlen, dim_spec_id. fold (id_itemsize self').
  pose proof (proj2 (wf_count self' _ (proj1 Hs) Hin)). nia.
Qed.

(** [read_block] on the blocks given a shape of several columns by name:
    the raw bytes of the block, then those of the identifiers, then a table
    of [width] columns with one row per particle of the type. *)
Lemma read_block_table (f : file) (self self' : Simulation)
  (block_type particle_type : string) (width : nat) (columns : list string) :
  flags_ready self = true -> _read_header f self = Ok self' ->
  (block_type = "pos" /\ width = 3%nat /\ columns = ["x"; "y"; "z"]
   \/ block_type = "vel" /\ width = 3%nat /\ columns = ["x"; "y"; "z"]
   \/ block_type = "metals" /\ width = 12%nat /\ columns = element_keys) ->
  read_block f self block_type particle_type
  = (data <- run (read_block_io f (swap self) self' block_type
                    particle_type) ;;
     iddata <- run (read_block_io f (swap self') self' "id" particle_type) ;;
     Ok (DataFrame columns
           (id_values (swap self') self' particle_type iddata)
           (chunks width
              (items (swap self) data
                 (Z.to_nat (count self' particle_type) * width))
              (Z.to_nat (count self' particle_type)))))%res.
Proof.
  intros Hr Hh Hbt.
  destruct (read_header_inv f self self' Hr Hh) as (_ & Hs & Hr' & _).
  pose proof (read_header_idem f self self' Hr Hh) as Hidem.
  rewrite (read_block_unfold f self self' _ _ Hh).
  destruct (run (read_block_io f (swap self) self' block_type particle_type))
    as [data|e] eqn:E; [|reflexivity].
  cbn [rbind].
  destruct (raw_read_length f _ self' _ _ _ Hs E) as (Hlen & _ & Hin).
  destruct (wf_count self' _ (proj1 Hs) Hin) as [_ Hnn].
  rewrite (finish_table _ _ self' block_type particle_type data width columns
             (proj1 Hs) Hin Hbt).
  - rewrite (read_id_spec f self' particle_type Hs Hidem).
    destruct (run (read_block_io f (swap self') self' "id" particle_type))
      as [iddata|e]; [|reflexivity].
    cbn [rbind pd_values].
    fold (id_values (swap self') self' particle_type iddata).
    apply pd_DataFrame_2d; [exact Hnn | |].
    + destruct Hbt as [(_ & -> & ->)|[(_ & -> & ->)|(_ & -> & ->)]];
        reflexivity.
    + unfold id_values. rewrite length_map, length_chunks. reflexivity.
  - rewrite Hlen.
    destruct Hbt as [(-> & -> & _)|[(-> & -> & _)|(-> & -> & _)]];
      unfold dim_spec;
      cbn [str_in existsb String.eqb Ascii.eqb Bool.eqb orb andb]; nia.
Qed.

(** [read_block] on a one-column block other than the identifiers. *)
Lemma read_block_column (f : file) (self self' : Simulation)
  (block_type particle_type : string) :
  flags_ready self = true -> _read_header f self = Ok self' ->
  str_in block_type ["pos"; "vel"; "acc"; "accel"; "metals"; "id"] = false ->
  read_block f self block_type particle_type
  = (data <- run (read_block_io f (swap self) self' block_type
                    particle_type) ;;
     iddata <- run (read_block_io f (swap self') self' "id" particle_type) ;;
     Ok (DataFrame [block_type]
           (id_values (swap self') self' particle_type iddata)
           (map (fun x => [x])
              (items (swap self) data
                 (Z.to_nat (count self' particle_type))))))%res.
Proof.
  intros Hr Hh Hbt.
  destruct (read_header_inv f self self' Hr Hh) as (_ & Hs & Hr' & _).
  pose proof (read_header_idem f self self' Hr Hh) as Hidem.
  rewrite (read_block_unfold f self self' _ _ Hh).
  destruct (run (read_block_io f (swap self) self' block_type particle_type))
    as [data|e] eqn:E; [|reflexivity].
  cbn [rbind].
  destruct (raw_read_length f _ self' _ _ _ Hs E) as (Hlen & _ & Hin).
  destruct (wf_count self' _ (proj1 Hs) Hin) as [_ Hnn].
  rewrite (finish_column _ _ self' block_type particle_type data
             (proj1 Hs) Hin Hbt).
  - rewrite (read_id_spec f self' particle_type Hs Hidem).
    destruct (run (read_block_io f (swap self') self' "id" particle_type))
      as [iddata|e]; [|reflexivity].
    cbn [rbind pd_values].
    fold (id_values (swap self') self' particle_type iddata).
    apply pd_DataFrame_1d; [exact Hnn|].
    unfold id_values. rewrite length_map, length_chunks. reflexivity.
  - rewrite Hlen.
    assert (Hd : dim_spec self' block_type = 1).
    { unfold dim_spec. cbn [str_in existsb] in Hbt |- *.
      repeat (apply orb_false_iff in Hbt as [? Hbt]).
      repeat match goal with
             | H : String.eqb block_type _ = false |- _ => rewrite H; clear H
             end.
      cbn [orb andb].
      repeat match goal with
             | |- context [if ?c then _ else _] => destruct c
             end; reflexivity. }
    rewrite Hd. nia.
Qed.

(** * The claims *)

Lemma count_of_get (self : Simulation) (k : string) (n : Z) :
  Dict.get (particle_numbers self) k = Some n -> count self k = n.
Proof. intros H. unfold count. rewrite H. reflexivity. Qed.

Lemma truthy_of_ne (z : Z) : z <> 0 -> truthy z = true.
Proof.
  intros H. unfold truthy. destruct (Z.eqb_spec z 0); [contradiction|].
  reflexivity.
Qed.

Ltac eval_strings :=
  cbn [str_in existsb String.eqb Ascii.eqb Bool.eqb orb andb negb].

Section Scenario.
Variables (f : file) (self self' : Simulation).
Hypothesis Hready : flags_ready self = true.
Hypothesis Hshort : use_longids self = false.
Hypothesis Hheader : _read_header f self = Ok self'.
Hypothesis Hgas : Dict.get (particle_numbers self') "gas" = Some 100.
Hypothesis Hhalo : Dict.get (particle_numbers self') "halo" = Some 50.
Hypothesis Hdisk : Dict.get (particle_numbers self') "disk" = Some 0.
Hypothesis Hbulge : Dict.get (particle_numbers self') "bulge" = Some 0.
Hypothesis Hstars : Dict.get (particle_numbers self') "stars" = Some 10.
Hypothesis Hbndry : Dict.get (particle_numbers self') "bndry" = Some 0.
Hypothesis Hcooling : flag self' "cooling" <> 0.
Hypothesis Hsfr : flag self' "sfr" <> 0.
Hypothesis Hage : flag self' "stellar_age" <> 0.
Hypothesis Hmetals : flag self' "metals" <> 0.

Lemma scenario_sized : sized self' /\ use_longids self' = false.
Proof.
  destruct (read_header_inv f self self' Hready Hheader)
    as (_ & Hs & _ & Hl & _).
  split; [exact Hs | congruence].
Qed.

Lemma scenario_total : total_number self' = 160.
Proof.
  unfold total_number, sumZ. cbn [map fold_right particle_keys].
  rewrite (count_of_get _ _ _ Hgas), (count_of_get _ _ _ Hhalo),
    (count_of_get _ _ _ Hdisk), (count_of_get _ _ _ Hbulge),
    (count_of_get _ _ _ Hstars), (count_of_get _ _ _ Hbndry).
  reflexivity.
Qed.

Lemma scenario_size (key : string) (size : Z) :
  block_size_spec self' key = Some size ->
  Dict.get (block_sizes self') key = Some size.
Proof.
  intros H. destruct scenario_sized as [[_ Hbs] _]. rewrite Hbs. exact H.
Qed.

Ltac scenario_spec :=
  unfold block_size_spec; eval_strings;
  rewrite ?(truthy_of_ne _ Hcooling), ?(truthy_of_ne _ Hsfr),
    ?(truthy_of_ne _ Hage), ?(truthy_of_ne _ Hmetals);
  rewrite ?scenario_total, ?(count_of_get _ _ _ Hgas),
    ?(count_of_get _ _ _ Hstars), ?(proj2 scenario_sized);
  reflexivity.

Lemma scenario_sizes :
  Dict.get (block_sizes self') "header" = Some 256
  /\ Dict.get (block_sizes self') "pos" = Some 1920
  /\ Dict.get (block_sizes self') "vel" = Some 1920
  /\ Dict.get (block_sizes self') "id" = Some 640
  /\ Dict.get (block_sizes self') "u" = Some 400
  /\ Dict.get (block_sizes self') "rho" = Some 400
  /\ Dict.get (block_sizes self') "hsml" = Some 400
  /\ Dict.get (block_sizes self') "ne" = Some 400
  /\ Dict.get (block_sizes self') "nh" = Some 400
  /\ Dict.get (block_sizes self') "sfr" = Some 400
  /\ Dict.get (block_sizes self') "age" = Some 40
  /\ Dict.get (block_sizes self') "metals" = Some 5280.
Proof.
  repeat split; apply scenario_size; scenario_spec.
Qed.

Lemma scenario_offset (block_type : string) :
  block_type = "pos" \/ block_type = "id" ->
  _compute_offset self' block_type "stars"
  = Ok (150 * (dim_spec self' block_type * 4),
        10 * (dim_spec self' block_type * 4), 0).
Proof.
  intros Hbt. rewrite (compute_offset_spec _ _ _ (proj1 (proj1 scenario_sized))).
  cbn [list_index particle_keys String.eqb Ascii.eqb Bool.eqb rbind].
  unfold domain_sum, domain_count, in_domain.
  destruct Hbt as [->| ->]; eval_strings;
    cbn [firstn skipn Nat.add map sumZ fold_right particle_keys];
    rewrite (count_of_get _ _ _ Hgas), (count_of_get _ _ _ Hhalo),
      (count_of_get _ _ _ Hdisk), (count_of_get _ _ _ Hbulge),
      (count_of_get _ _ _ Hstars), (count_of_get _ _ _ Hbndry);
    reflexivity.
Qed.

Lemma scenario_skip :
  read_block_skip self' 1 = 264 /\ read_block_skip self' 3 = 4120.
Proof.
  destruct scenario_sizes as (Hh & Hp & Hv & _).
  unfold read_block_skip. cbn [firstn block_keys fold_left].
  rewrite Hh, Hp, Hv. split; reflexivity.
Qed.

End Scenario.

(** C1. A snapshot whose header declares 100 gas, 50 halo, 0 disk, 0 bulge,
    10 stars and 0 boundary particles, read with wide identifiers disabled
    and with the cooling, sfr, stellar-age and metals flags set, has the block
    sizes pos = 1920, id = 640, u = rho = hsml = ne = nh = sfr = 400,
    age = 40 and metals = 5280 bytes. The part of block "pos" that belongs to
    "stars" starts 150 rows (150 * 12 bytes) into the payload and is 10 rows
    (10 * 12 bytes) long; whenever [read_block] returns for ("pos", "stars"),
    on the object whose header was read from the snapshot, it returns
    exactly 10 rows of 3 columns decoded from those bytes, indexed by 10
    identifiers; and it does return when the record markers of the "pos" and
    "id" blocks hold the block sizes. *)
Theorem scenario_block_sizes_and_pos_of_stars
  (f : file) (self self' : Simulation) :
  flags_ready self = true ->
  use_longids self = false ->
  _read_header f self = Ok self' ->
  Dict.get (particle_numbers self') "gas" = Some 100 ->
  Dict.get (particle_numbers self') "halo" = Some 50 ->
  Dict.get (particle_numbers self') "disk" = Some 0 ->
  Dict.get (particle_numbers self') "bulge" = Some 0 ->
  Dict.get (particle_numbers self') "stars" = Some 10 ->
  Dict.get (particle_numbers self') "bndry" = Some 0 ->
  flag self' "cooling" <> 0 -> flag self' "sfr" <> 0 ->
  flag self' "stellar_age" <> 0 -> flag self' "metals" <> 0 ->
  (Dict.get (block_sizes self') "pos" = Some 1920
   /\ Dict.get (block_sizes self') "id" = Some 640
   /\ Dict.get (block_sizes self') "u" = Some 400
   /\ Dict.get (block_sizes self') "rho" = Some 400
   /\ Dict.get (block_sizes self') "hsml" = Some 400
   /\ Dict.get (block_sizes self') "ne" = Some 400
   /\ Dict.get (block_sizes self') "nh" = Some 400
   /\ Dict.get (block_sizes self') "sfr" = Some 400
   /\ Dict.get (block_sizes self') "age" = Some 40
   /\ Dict.get (block_sizes self') "metals" = Some 5280)
  /\ _compute_offset self' "pos" "stars" = Ok (150 * 12, 10 * 12, 0)
  /\ (forall r, read_block f self' "pos" "stars" = Ok r ->
        exists ids rows,
          r = DataFrame ["x"; "y"; "z"] ids rows
          /\ rows = chunks 3 (items (swap self')
                                (sub f (264 + 4 + 150 * 12) (10 * 12)) 30) 10
          /\ List.length rows = 10%nat
          /\ Forall (fun row => List.length row = 3%nat) rows
          /\ List.length ids = 10%nat)
  /\ (4768 <= flen f ->
      u32_at (swap self') f 264 = 1920 ->
      u32_at (swap self') f (264 + 4 + 1920) = 1920 ->
      u32_at (swap self') f 4120 = 640 ->
      u32_at (swap self') f (4120 + 4 + 640) = 640 ->
      exists r, read_block f self' "pos" "stars" = Ok r).
Proof.
  intros Hready Hshort Hheader Hgas Hhalo Hdisk Hbulge Hstars Hbndry
    Hcooling Hsfr Hage Hmetals.
  destruct (scenario_sizes f self self') as
    (Hh & Hp & Hv & Hi & Hu & Hrho & Hhsml & Hne & Hnh & Hsf & Ha & Hm);
    try assumption.
  destruct (scenario_sized f self self' Hready Hshort Hheader) as [Hs Hl].
  destruct (scenario_skip f self self') as [Hskip1 Hskip3]; try assumption.
  assert (Hopos : _compute_offset self' "pos" "stars" = Ok (1800, 120, 0)).
  { rewrite (scenario_offset f self self' Hready Hshort Hheader Hgas Hhalo
               Hdisk Hbulge Hstars Hbndry "pos") by (left; reflexivity).
    reflexivity. }
  assert (Hoid : _compute_offset self' "id" "stars" = Ok (600, 40, 0)).
  { rewrite (scenario_offset f self self' Hready Hshort Hheader Hgas Hhalo
               Hdisk Hbulge Hstars Hbndry "id") by (right; reflexivity).
    unfold dim_spec. eval_strings. rewrite Hl. reflexivity. }
  assert (Hcount : count self' "stars" = 10) by (apply count_of_get; exact Hstars).
  destruct (read_header_again f self self' Hheader) as [Hagain Hready'].
  pose proof (read_block_table f self' self' "pos" "stars" 3 ["x"; "y"; "z"]
                Hready' Hagain ltac:(left; repeat split)) as Heq.
  rewrite Hcount in Heq. change (Z.to_nat 10 * 3)%nat with 30%nat in Heq.
  change (Z.to_nat 10) with 10%nat in Heq.
  split; [repeat split; assumption|].
  split; [exact Hopos|].
  split.
  - intros r Hr. rewrite Heq in Hr.
    apply rbind_inv in Hr as (data & Hd & Hr).
    apply rbind_inv in Hr as (iddata & Hid & Hr).
    injection Hr as <-.
    destruct (read_block_io_inv f _ self' _ _ _ Hs Hd)
      as (size & order & offset & read_size & remainder
          & Hsize & Ho & Hc & Hlen & _ & _ & Hdata).
    cbn in Ho. injection Ho as <-.
    rewrite Hopos in Hc. injection Hc as <- <- <-.
    rewrite Hskip1 in Hdata, Hlen.
    exists (id_values (swap self') self' "stars" iddata). eexists.
    split; [reflexivity|]. split; [rewrite Hdata; reflexivity|].
    split; [apply length_chunks|].
    split.
    + apply chunks_rows. rewrite length_items. lia.
    + unfold id_values. rewrite length_map, length_chunks, Hcount.
      reflexivity.
  - intros Hlen M1 M2 M3 M4. rewrite Heq.
    rewrite (read_block_io_ok f _ self' "pos" "stars" 1920 1 1800 120 0);
      try assumption; try reflexivity;
      try (rewrite Hskip1; first [exact M1 | exact M2 | lia]).
    cbn [rbind].
    rewrite (read_block_io_ok f _ self' "id" "stars" 640 3 600 40 0);
      try assumption; try reflexivity;
      try (rewrite Hskip3; first [exact M3 | exact M4 | lia]).
    cbn [rbind]. eexists. reflexivity.
Qed.

Ltac by_compute :=
  first [ vm_compute; reflexivity
        | vm_compute; discriminate
        | vm_compute; intro; discriminate ].

Lemma scenario_block_sizes_and_pos_of_stars_witness :
  flags_ready scenario_self = true
  /\ _read_header scenario_file scenario_self = Ok scenario_header
  /\ Dict.get (block_sizes scenario_header) "metals" = Some 5280
  /\ exists r, read_block scenario_file scenario_header "pos" "stars" = Ok r.
Proof.
  assert (H1 : flags_ready scenario_self = true) by by_compute.
  assert (H2 : _read_header scenario_file scenario_self = Ok scenario_header)
    by by_compute.
  pose proof (scenario_block_sizes_and_pos_of_stars
                scenario_file scenario_self scenario_header H1
                ltac:(by_compute) H2
                ltac:(by_compute) ltac:(by_compute) ltac:(by_compute)
                ltac:(by_compute) ltac:(by_compute) ltac:(by_compute)
                ltac:(by_compute) ltac:(by_compute) ltac:(by_compute)
                ltac:(by_compute))
    as (Hsizes & _ & _ & Hex).
  split; [exact H1|]. split; [exact H2|].
  split; [apply Hsizes|].
  apply Hex; by_compute.
Defined.

Lemma read_header_sentinel_and_trailer_witness :
  4 <= flen scenario_file
  /\ exists self', _read_header scenario_file scenario_self = Ok self'
                   /\ swap self' = Little.
Proof.
  assert (H4 : 4 <= flen scenario_file) by by_compute.
  split; [exact H4|].
  destruct (read_header_sentinel_and_trailer scenario_file scenario_self H4)
    as (_ & _ & Hinv & Hex).
  assert (Hs : i32_at Little scenario_file 0 = 256) by by_compute.
  destruct (Hex ltac:(by_compute) ltac:(by_compute) (or_introl Hs)
              ltac:(by_compute)) as [self' Hself'].
  exists self'. split; [exact Hself'|].
  destruct (Hinv self' Hself') as [[[_ Hl]|[Hbad _]] _]; [exact Hl|].
  exfalso. rewrite Hs in Hbad. discriminate Hbad.
Defined.

(** ** The seek position of [read_block] and the walk of [_file_check] *)

Lemma read_block_skip_fold (self : Simulation) (keys : list string) (acc : Z) :
  fold_left (fun skip key =>
               match Dict.get (block_sizes self) key with
               | Some size => skip + (size + 8)
               | None => skip
               end) keys acc
  = acc + sumZ (map (fun key =>
                       match Dict.get (block_sizes self) key with
                       | Some size => size + 8
                       | None => 0
                       end) keys).
Proof.
  revert acc. induction keys as [|k keys IH]; intros acc;
    cbn [fold_left map sumZ fold_right]; [lia|].
  rewrite IH. unfold sumZ. destruct (Dict.get (block_sizes self) k); lia.
Qed.

(** [read_block] seeks past every preceding entry of [block_sizes], the
    empty ones included: its position exceeds the position of the block in
    the file by the markers it counts for the preceding empty entries. *)
Lemma read_block_skip_excess (self : Simulation) (order : nat) :
  read_block_skip self order
  = present_offset self order
    + sumZ (map (fun key =>
                   match Dict.get (block_sizes self) key with
                   | Some size => if 0 <? size then 0 else size + 8
                   | None => 0
                   end) (firstn order block_keys)).
Proof.
  unfold read_block_skip, present_offset, present_span.
  rewrite read_block_skip_fold.
  induction (firstn order block_keys) as [|k keys IH];
    cbn [map sumZ fold_right]; [reflexivity|].
  unfold sumZ in *.
  destruct (Dict.get (block_sizes self) k) as [size|]; [|lia].
  destruct (0 <? size); lia.
Qed.

(** The two positions agree when no preceding entry is empty. *)
Lemma read_block_skip_present (self : Simulation) (order : nat) :
  (forall key size, In key (firstn order block_keys) ->
     Dict.get (block_sizes self) key = Some size -> 0 < size) ->
  read_block_skip self order = present_offset self order.
Proof.
  intros H. rewrite read_block_skip_excess.
  assert (E : sumZ (map (fun key =>
                   match Dict.get (block_sizes self) key with
                   | Some size => if 0 <? size then 0 else size + 8
                   | None => 0
                   end) (firstn order block_keys)) = 0).
  { induction (firstn order block_keys) as [|k keys IH];
      cbn [map sumZ fold_right]; [reflexivity|].
    unfold sumZ in *. rewrite IH by (intros; eapply H; [right|]; eassumption).
    destruct (Dict.get (block_sizes self) k) as [size|] eqn:E; [|reflexivity].
    specialize (H k size (or_introl eq_refl) E).
    destruct (Z.ltb_spec 0 size); lia. }
  lia.
Qed.

Lemma file_check_block_spec (f : file) (self : Simulation) (key : string)
  (p : Z) :
  0 <= p ->
  _file_check_block f self key p =
  match Dict.get (block_sizes self) key with
  | Some size =>
      if 0 <? size then
        if p + 4 <=? flen f then
          if u32_at (swap self) f p =? size then
            if p + 4 + size + 4 <=? flen f then
              if u32_at (swap self) f (p + 4 + size) =? size
              then Ok (tt, p + 4 + size + 4)
              else Err (NameError ("Error in block: " ++ key))
            else Err StructError
          else Err (NameError ("Error in block: " ++ key))
        else Err StructError
      else Ok (tt, p)
  | None => Ok (tt, p)
  end.
Proof.
  intros Hp. unfold _file_check_block, Dict.mem.
  destruct (Dict.get (block_sizes self) key) as [size|]; [|reflexivity].
  destruct (Z.ltb_spec 0 size) as [Hs|Hs]; [|reflexivity].
  rewrite bind_read_I by exact Hp.
  destruct (Z.leb_spec (p + 4) (flen f)); [|reflexivity].
  fold (u32_at (swap self) f p).
  destruct (u32_at (swap self) f p =? size); cbn [negb]; [|reflexivity].
  rewrite bind_seek_cur by lia. rewrite bind_read_I by lia.
  destruct (Z.leb_spec (p + 4 + size + 4) (flen f)); [|reflexivity].
  fold (u32_at (swap self) f (p + 4 + size)).
  destruct (u32_at (swap self) f (p + 4 + size) =? size); reflexivity.
Qed.

(** A file accepted by the loop of [_file_check] has, for every present
    block, both record markers equal to the block size. *)
Lemma file_check_loop_inv (f : file) (self : Simulation) (keys : list string) :
  forall p p', 0 <= p ->
  _file_check_loop f self keys p = Ok (tt, p') ->
  p' = p + present_span self keys
  /\ forall pre key post size,
       keys = (pre ++ key :: post)%list ->
       Dict.get (block_sizes self) key = Some size -> 0 < size ->
       p + present_span self pre + size + 8 <= flen f
       /\ u32_at (swap self) f (p + present_span self pre) = size
       /\ u32_at (swap self) f (p + present_span self pre + 4 + size) = size.
Proof.
  induction keys as [|k keys IH]; intros p p' Hp H.
  - cbn in H. injection H as <-. split; [unfold present_span; cbn; lia|].
    intros pre key post size E. destruct pre; discriminate.
  - cbn [_file_check_loop] in H. unfold iobind in H.
    rewrite (file_check_block_spec f self k p Hp) in H.
    assert (Hstep : exists q,
              _file_check_loop f self keys q = Ok (tt, p')
              /\ 0 <= q
              /\ q = p + present_span self [k]
              /\ forall size, Dict.get (block_sizes self) k = Some size ->
                   0 < size ->
                   p + size + 8 <= flen f
                   /\ u32_at (swap self) f p = size
                   /\ u32_at (swap self) f (p + 4 + size) = size).
    { unfold present_span. cbn [map sumZ fold_right].
      destruct (Dict.get (block_sizes self) k) as [size|].
      - destruct (Z.ltb_spec 0 size) as [Hs|Hs].
        + destruct (Z.leb_spec (p + 4) (flen f)); [|discriminate].
          destruct (Z.eqb_spec (u32_at (swap self) f p) size);
            [|discriminate].
          destruct (Z.leb_spec (p + 4 + size + 4) (flen f)); [|discriminate].
          destruct (Z.eqb_spec (u32_at (swap self) f (p + 4 + size)) size);
            [|discriminate].
          exists (p + 4 + size + 4).
          split; [exact H|]. split; [lia|]. split; [lia|].
          intros size' E' _. injection E' as <-. repeat split; auto. lia.
        + exists p. split; [exact H|]. split; [lia|]. split; [lia|].
          intros size' E' Hpos. injection E' as <-. lia.
      - exists p. split; [exact H|]. split; [lia|]. split; [lia|].
        intros size' E'. discriminate. }
    destruct Hstep as (q & Hq & Hq0 & Eq & Hk).
    destruct (IH q p' Hq0 Hq) as [Hp' Hrest].
    assert (Hcons : forall l, present_span self (k :: l)
                              = present_span self [k] + present_span self l).
    { intros l. unfold present_span, sumZ. cbn [map fold_right]. lia. }
    split; [rewrite Hcons; lia|].
    intros pre key post size E Hget Hpos.
    destruct pre as [|k0 pre].
    + cbn [app] in E. injection E as <- _.
      replace (p + present_span self []) with p
        by (unfold present_span; cbn; lia).
      apply Hk; assumption.
    + cbn [app] in E. injection E as <- E.
      rewrite Hcons.
      replace (p + (present_span self [k] + present_span self pre))
        with (q + present_span self pre) by lia.
      apply (Hrest pre key post size E Hget Hpos).
Qed.

Lemma init_checked (f : file) (pot accel endt tstp longids : bool)
  (self : Simulation) :
  __init__ f pot accel endt tstp false longids = Ok self ->
  exists self0, _read_header f self0 = Ok self /\ _file_check f self = Ok tt.
Proof.
  unfold __init__. intros H. apply rbind_inv in H as (x & Hx & H).
  cbn [negb] in H. apply rbind_inv in H as (u & Hu & H).
  injection H as <-. destruct u. eauto.
Qed.

Lemma nth_error_firstn_split (l : list string) (n : nat) (x : string) :
  nth_error l n = Some x ->
  exists post, l = (firstn n l ++ x :: post)%list.
Proof.
  intros H. apply nth_error_split in H as (l1 & l2 & -> & <-).
  exists l2. rewrite firstn_app, Nat.sub_diag, firstn_all. cbn [firstn].
  rewrite app_nil_r. reflexivity.
Qed.

Lemma in_domain_not_header (self : Simulation) (k : string) :
  in_domain self "header" k = false.
Proof. reflexivity. Qed.

(** What a successful [read_block] went through; the record markers are
    decoded in the byte order the object has when the method is called. *)
Lemma read_block_inv (f : file) (self : Simulation)
  (block_type particle_type : string) (r : pdobj) :
  read_block f self block_type particle_type = Ok r ->
  exists self' size order data,
    _read_header f self = Ok self' /\ sized self'
    /\ Dict.get (block_sizes self') block_type = Some size
    /\ list_index block_keys block_type = Ok order
    /\ In particle_type particle_keys
    /\ in_domain self' block_type particle_type = true
    /\ run (read_block_io f (swap self) self' block_type particle_type)
       = Ok data
    /\ read_block_skip self' order + size + 8 <= flen f
    /\ u32_at (swap self) f (read_block_skip self' order) = size
    /\ u32_at (swap self) f (read_block_skip self' order + 4 + size) = size.
Proof.
  intros H. unfold read_block, read_block_body in H. cbv zeta in H.
  apply rbind_inv in H as (self' & Hh & H).
  apply rbind_inv in H as (data & Hd & _).
  pose proof (read_header_ready f self self' Hh) as Hr.
  destruct (read_header_inv f self self' Hr Hh) as (_ & Hs & _).
  destruct (read_block_io_inv f _ self' _ _ _ Hs Hd)
    as (size & order & offset & read_size & remainder
        & Hsize & Ho & Hc & Hlen & Hlead & Htrail & _).
  destruct (compute_offset_total _ _ _ _ _ _ (proj1 Hs) Hc)
    as (Htot & Hdom & Hin).
  assert (Hne : block_type <> "header").
  { intros ->. rewrite in_domain_not_header in Hdom. discriminate. }
  pose proof Hsize as Hsize'. rewrite (proj2 Hs) in Hsize'.
  rewrite (domain_total self' block_type size Hsize' Hne) in Htot.
  exists self', size, order, data.
  replace (read_block_skip self' order + 4 + offset + read_size + remainder)
    with (read_block_skip self' order + 4 + size) in * by lia.
  split; [exact Hh|]. split; [exact Hs|].
  repeat split; try assumption. lia.
Qed.

(** C3. The file check does what the claim says: an object built with the
    file check on exists only if both record markers of every present
    block, at the position of the block in the file, hold the computed
    size. [read_block] checks the two words at the position it seeks to:
    they are the markers of the block, and a marker that differs makes the
    read raise, when no entry of [block_sizes] before the block is empty.
    After an empty entry they are not: on a snapshot with one gas particle
    whose mass is in the header, the leading marker of block "u" (at byte
    316) holds 255 where the size is 4; the constructor rejects the file
    when the file check is on, and when it is skipped [read_block] seeks to
    byte 324 and returns a table. *)
Theorem read_block_misses_a_corrupted_marker :
  (forall f pot accel endt tstp longids self,
     __init__ f pot accel endt tstp false longids = Ok self ->
     forall order key size,
       nth_error block_keys order = Some key ->
       Dict.get (block_sizes self) key = Some size -> 0 < size ->
       present_offset self order + size + 8 <= flen f
       /\ u32_at (swap self) f (present_offset self order) = size
       /\ u32_at (swap self) f (present_offset self order + 4 + size) = size)
  /\ (forall f self self' block_type particle_type size order,
        _read_header f self = Ok self' ->
        Dict.get (block_sizes self') block_type = Some size ->
        list_index block_keys block_type = Ok order ->
        (forall key sz, In key (firstn order block_keys) ->
           Dict.get (block_sizes self') key = Some sz -> 0 < sz) ->
        u32_at (swap self) f (present_offset self' order) <> size
        \/ u32_at (swap self) f (present_offset self' order + 4 + size)
           <> size ->
        exists e, read_block f self block_type particle_type = Err e)
  /\ (__init__ corrupted_u_file false false false false false false
      = Err (NameError "Error in block: u")
      /\ __init__ corrupted_u_file false false false false true false
         = Ok mass_in_header_self
      /\ Dict.get (block_sizes mass_in_header_self) "mass" = Some 0
      /\ Dict.get (block_sizes mass_in_header_self) "u" = Some 4
      /\ list_index block_keys "u" = Ok 5%nat
      /\ present_offset mass_in_header_self 5 = 316
      /\ u32_at (swap mass_in_header_self) corrupted_u_file 316 = 255
      /\ read_block_skip mass_in_header_self 5 = 324
      /\ read_block corrupted_u_file mass_in_header_self "u" "gas"
         = Ok (DataFrame ["u"] [1] [[4]])).
Proof.
  split; [|split].
  - intros f pot accel endt tstp longids self Hinit order key size Hnth Hget Hpos.
    destruct (init_checked f _ _ _ _ _ _ Hinit) as (self0 & _ & Hcheck).
    unfold _file_check, run in Hcheck.
    destruct (_file_check_loop f self block_keys 0) as [[[] p']|e] eqn:E;
      [|discriminate].
    destruct (file_check_loop_inv f self block_keys 0 p' ltac:(lia) E)
      as [_ Hall].
    destruct (nth_error_firstn_split _ _ _ Hnth) as [post Hsplit].
    specialize (Hall _ _ _ size Hsplit Hget Hpos).
    unfold present_offset. cbn [Z.add] in Hall. exact Hall.
  - intros f self self' block_type particle_type size order Hh Hsize Ho
      Hfull Hbad.
    destruct (read_block f self block_type particle_type) as [r|e] eqn:E;
      [|eauto].
    exfalso.
    destruct (read_block_inv f self _ _ r E)
      as (self1 & size1 & order1 & data & Hh1 & _ & Hsize1 & Ho1 & _ & _ & _
          & _ & Hlead & Htrail).
    rewrite Hh in Hh1. injection Hh1 as <-.
    rewrite Hsize in Hsize1. injection Hsize1 as <-.
    rewrite Ho in Ho1. injection Ho1 as <-.
    rewrite (read_block_skip_present self' order Hfull) in Hlead, Htrail.
    destruct Hbad as [Hbad|Hbad]; contradiction.
  - repeat split; vm_compute; reflexivity.
Qed.

(** C2. The position [read_block] seeks to is the sum of size + 8 over every
    preceding key entered in [block_sizes], the entries of size zero
    included, while an absent block takes no room in the file. On a snapshot
    whose only particle type has its mass in the header, the mass block is
    empty: the file passes the file check of [__init__], block "u" starts at
    byte 316, [read_block] seeks to byte 324 and raises on a well-formed
    file. *)
Theorem read_block_seeks_past_empty_mass_block :
  __init__ mass_in_header_file false false false false false false
  = Ok mass_in_header_self
  /\ Dict.get (block_sizes mass_in_header_self) "mass" = Some 0
  /\ Dict.get (block_sizes mass_in_header_self) "u" = Some 4
  /\ list_index block_keys "u" = Ok 5%nat
  /\ present_offset mass_in_header_self 5 = 316
  /\ u32_at Little mass_in_header_file 316 = 4
  /\ u32_at Little mass_in_header_file (316 + 4 + 4) = 4
  /\ read_block_skip mass_in_header_self 5 = 324
  /\ read_block mass_in_header_file mass_in_header_self "u" "gas"
     = Err (block_error "u").
Proof.
  repeat split; vm_compute; reflexivity.
Qed.

Lemma fromstring_shape (s : endian) (k : nat) (data : list byte)
  (block : ndarray) :
  fromstring s k data = Ok block -> exists n, nd_shape block = [n].
Proof.
  unfold fromstring. destruct (List.length data mod k =? 0)%nat;
    [|discriminate].
  intros H. injection H as <-. eexists. reflexivity.
Qed.

Lemma set_shape_shape (block block' : ndarray) (shape : list Z) :
  set_shape block shape = Ok block' -> nd_shape block' = shape.
Proof.
  unfold set_shape.
  destruct (forallb (fun d => 0 <=? d) shape
            && (fold_right Z.mul 1 shape
                =? Z.of_nat (List.length (nd_data block)))); [|discriminate].
  intros H. injection H as <-. reflexivity.
Qed.

(** The acceleration block is never given three columns: the shape test
    names "acc", the block is named "accel", so the one-dimensional array is
    handed to the table constructor with three column names. *)
Lemma read_block_accel_never_returns (f : file) (self : Simulation)
  (particle_type : string) (r : pdobj) :
  read_block f self "accel" particle_type <> Ok r.
Proof.
  intros H. unfold read_block, read_block_body in H. cbv zeta in H.
  apply rbind_inv in H as (self' & _ & H).
  apply rbind_inv in H as (data & _ & H).
  unfold read_block_finish in H.
  cbn [str_in existsb String.eqb Ascii.eqb Bool.eqb orb negb] in H.
  apply rbind_inv in H as (block & Hb & H).
  apply rbind_inv in H as (ydim & _ & H).
  apply rbind_inv in H as (block' & Hb' & H).
  apply rbind_inv in H as (ids & _ & H).
  destruct (fromstring_shape _ _ _ _ Hb) as [n Hn].
  apply set_shape_shape in Hb'. rewrite Hn in Hb'.
  unfold pd_DataFrame, table_of in H. rewrite Hb' in H.
  cbn in H. discriminate H.
Qed.

(** C7. Blocks "pos" and "vel" are decoded as 4-byte items and returned as
    rows of 3 columns, block "metals" as rows of 12 columns; block "accel" is
    not: [read_block] never returns for it, and on a snapshot with one gas
    particle and an acceleration block it raises where "pos" returns one row
    of three columns. *)
Theorem accel_block_is_not_reshaped :
  (forall f self particle_type r,
     read_block f self "accel" particle_type <> Ok r)
  /\ __init__ accel_file false true false false false false
     = _read_header accel_file accel_self
  /\ _read_header accel_file accel_self = Ok accel_header
  /\ read_block accel_file accel_header "accel" "gas"
     = Err (ValueError "Shape of passed values does not match indices")
  /\ read_block accel_file accel_header "pos" "gas"
     = Ok (DataFrame ["x"; "y"; "z"] [1] [[1000; 1001; 1002]]).
Proof.
  split; [exact read_block_accel_never_returns|].
  repeat split; vm_compute; reflexivity.
Qed.

(** ** Particle types with no particles in a block *)

Lemma list_index_of_In (particle_type : string) :
  In particle_type particle_keys ->
  exists idx, list_index particle_keys particle_type = Ok idx.
Proof.
  intros H. cbn in H.
  destruct H as [<-|[<-|[<-|[<-|[<-|[<-|[]]]]]]]; eexists; reflexivity.
Qed.

(** The raw read succeeds on a block whose markers are right, for a particle
    type the block holds. *)
Lemma raw_read_ok (f : file) (self : Simulation)
  (block_type particle_type : string) :
  sized self -> markers_ok f self block_type ->
  In particle_type particle_keys ->
  in_domain self block_type particle_type = true ->
  exists data,
    run (read_block_io f (swap self) self block_type particle_type) = Ok data.
Proof.
  intros Hs (size & order & Hsize & Ho & Hlen & Hlead & Htrail) Hin Hdom.
  destruct (list_index_of_In _ Hin) as [idx Hidx].
  pose proof (compute_offset_spec self block_type particle_type (proj1 Hs))
    as Hc.
  rewrite Hidx, Hdom in Hc.
  destruct (compute_offset_total _ _ _ _ _ _ (proj1 Hs) Hc) as (Htot & _ & _).
  assert (Hne : block_type <> "header").
  { intros ->. rewrite in_domain_not_header in Hdom. discriminate. }
  pose proof Hsize as Hsize'. rewrite (proj2 Hs) in Hsize'.
  rewrite (domain_total self block_type size Hsize' Hne) in Htot.
  eexists.
  apply (read_block_io_ok f _ self block_type particle_type size order
           _ _ _ Hs Hsize Ho Hc).
  - lia.
  - exact Hlead.
  - match goal with
    | |- u32_at _ _ ?p = _ =>
        replace p with (read_block_skip self order + 4 + size) by lia
    end.
    exact Htrail.
Qed.

(** The raw read raises [KeyError] for a particle type the block does not
    hold, once the leading marker has been accepted. *)
Lemma raw_read_outside_domain (f : file) (self : Simulation)
  (block_type particle_type : string) :
  sized self -> markers_ok f self block_type ->
  In particle_type particle_keys ->
  in_domain self block_type particle_type = false ->
  run (read_block_io f (swap self) self block_type particle_type)
  = Err (KeyError particle_type).
Proof.
  intros Hs (size & order & Hsize & Ho & Hlen & Hlead & Htrail) Hin Hdom.
  destruct (list_index_of_In _ Hin) as [idx Hidx].
  rewrite (read_block_io_spec f _ self _ _ Hs), Hsize, Ho. cbv zeta.
  pose proof (read_block_skip_nonneg self order Hs).
  pose proof (block_size_nonneg self block_type size (proj1 Hs)
                ltac:(rewrite <- (proj2 Hs); exact Hsize)).
  destruct (Z.leb_spec (read_block_skip self order + 4) (flen f)); [|lia].
  rewrite Hlead, Z.eqb_refl.
  rewrite (compute_offset_spec _ _ _ (proj1 Hs)), Hidx, Hdom. reflexivity.
Qed.

Lemma block_keys_cases (block_type : string) (order : nat) :
  list_index block_keys block_type = Ok order ->
  In block_type block_keys.
Proof. apply list_index_In. Qed.

(** The dictionary of a block holds a particle type exactly when the closed
    form says so, and then with the count of the type. *)
Lemma block_domain_mem (self : Simulation) (block_type particle_type : string)
  (pn : Dict.t Z) (dim : Z) :
  wf_header self = true -> In particle_type particle_keys ->
  _block_domain self block_type = Ok (pn, dim) ->
  Dict.get pn particle_type
  = if in_domain self block_type particle_type
    then Some (count self particle_type) else None.
Proof.
  intros Hwf Hin E.
  destruct (block_domain_spec self block_type Hwf) as (pn' & E' & Hpn).
  rewrite E in E'. injection E' as <- _. apply Hpn. exact Hin.
Qed.





(** ** The mass block *)

(** C6 (amended). After a successful header read, a particle type is entered
    in the dictionary of the mass block if and only if its header mass is
    zero and its particle count is not zero, and then with its count: a type
    with a non-zero header mass is never entered, a type with zero header
    mass is entered exactly when it has particles. The size of the mass block
    is 4 bytes times the counts of the types with zero header mass. *)
Theorem mass_domain_zero_mass_and_particles
  (f : file) (self self' : Simulation) :
  _read_header f self = Ok self' ->
  exists pn,
    _block_domain self' "mass" = Ok (pn, 1)
    /\ (forall particle_type, In particle_type particle_keys ->
          (Dict.mem particle_type pn = true <->
           double_is_zero (pmass self' particle_type) = true
           /\ count self' particle_type <> 0)
          /\ (Dict.mem particle_type pn = true ->
              Dict.get pn particle_type = Some (count self' particle_type)))
    /\ Dict.get (block_sizes self') "mass"
       = Some (sumZ (map (fun k => if double_is_zero (pmass self' k)
                                   then count self' k else 0)
                         particle_keys) * 4).
Proof.
  intros Hh.
  pose proof (read_header_ready f self self' Hh) as Hr.
  destruct (read_header_inv f self self' Hr Hh) as (_ & [Hwf Hbs] & _).
  destruct (block_domain_spec self' "mass" Hwf) as (pn & E & Hpn).
  exists pn. split; [exact E|]. split.
  - intros particle_type Hin. specialize (Hpn _ Hin).
    unfold in_domain in Hpn. eval_strings. cbn [str_in existsb String.eqb
      Ascii.eqb Bool.eqb orb] in Hpn.
    unfold Dict.mem. rewrite Hpn.
    destruct (double_is_zero (pmass self' particle_type));
      destruct (Z.eqb_spec (count self' particle_type) 0);
      cbn [andb negb]; repeat split; try tauto; try discriminate;
      try (intros [? ?]; try discriminate; contradiction).
  - rewrite Hbs. reflexivity.
Qed.

Lemma mass_domain_zero_mass_and_particles_witness :
  exists pn,
    _block_domain scenario_header "mass" = Ok (pn, 1)
    /\ Dict.mem "gas" pn = true /\ Dict.mem "disk" pn = false
    /\ Dict.get (block_sizes scenario_header) "mass" = Some 640.
Proof.
  destruct (mass_domain_zero_mass_and_particles
              scenario_file scenario_self scenario_header
              ltac:(by_compute)) as (pn & E & Hdom & Hsize).
  exists pn. split; [exact E|].
  split; [|split].
  - apply (Hdom "gas" ltac:(in_list)). split; by_compute.
  - destruct (Dict.mem "disk" pn) eqn:Em; [|reflexivity].
    apply (Hdom "disk" ltac:(in_list)) in Em as [_ Hc].
    exfalso. apply Hc. by_compute.
  - rewrite Hsize. by_compute.
Defined.

(** C6 as stated fails: in the scenario snapshot the type "disk" has a zero
    header mass and is not in the dictionary of the mass block, and reading
    the mass block for it raises [KeyError]. *)
Lemma mass_domain_counterexample :
  double_is_zero (pmass scenario_header "disk") = true
  /\ (exists pn dim,
        _block_domain scenario_header "mass" = Ok (pn, dim)
        /\ Dict.mem "disk" pn = false)
  /\ read_block scenario_file scenario_header "mass" "disk"
     = Err (KeyError "disk").
Proof.
  split; [vm_compute; reflexivity|]. split.
  - eexists. eexists. split; vm_compute; reflexivity.
  - vm_compute. reflexivity.
Qed.

(** ** Filtering by identifier *)

Lemma map_fst_combine {A B} (l : list A) (l' : list B) :
  List.length l = List.length l' -> map fst (combine l l') = l.
Proof.
  revert l'. induction l as [|a l IH]; destruct l' as [|b l'];
    cbn [List.length combine map fst]; try discriminate; [reflexivity|].
  intros H. injection H as H. rewrite IH by exact H. reflexivity.
Qed.

Lemma map_snd_combine {A B} (l : list A) (l' : list B) :
  List.length l = List.length l' -> map snd (combine l l') = l'.
Proof.
  revert l'. induction l as [|a l IH]; destruct l' as [|b l'];
    cbn [List.length combine map snd]; try discriminate; [reflexivity|].
  intros H. injection H as H. rewrite IH by exact H. reflexivity.
Qed.

Lemma combine_seq_nth (a : list Z) (s : nat) (v : Z) (p : nat) :
  In (v, p) (combine a (seq s (List.length a))) ->
  nth (p - s) a 0 = v /\ (s <= p < s + List.length a)%nat.
Proof.
  revert s. induction a as [|x a IH]; intros s; cbn [List.length seq combine].
  - intros [].
  - intros [H|H].
    + injection H as -> ->. rewrite Nat.sub_diag. cbn [nth]. split; [reflexivity | lia].
    + apply IH in H as [H1 H2].
      replace (p - s)%nat with (S (p - S s)) by lia. cbn [nth].
      split; [exact H1 | lia].
Qed.

Lemma argsort_perm (a : list Z) :
  Permutation (argsort a) (seq 0 (List.length a)).
Proof.
  unfold argsort. apply Permutation_sym.
  rewrite <- (map_snd_combine a (seq 0 (List.length a))) at 1
    by (rewrite length_seq; reflexivity).
  apply Permutation_map. apply PairSort.Permuted_sort.
Qed.

Lemma view_argsort (a : list Z) :
  view a (argsort a)
  = map fst (PairSort.sort (combine a (seq 0 (List.length a)))).
Proof.
  unfold view, argsort. rewrite map_map. apply map_ext_in.
  intros [v p] Hin. cbn [fst snd].
  apply (Permutation_in _ (Permutation_sym (PairSort.Permuted_sort _))) in Hin.
  apply combine_seq_nth in Hin as [H _]. rewrite Nat.sub_0_r in H. exact H.
Qed.

Lemma view_perm (a : list Z) : Permutation (view a (argsort a)) a.
Proof.
  rewrite view_argsort. apply Permutation_sym.
  rewrite <- (map_fst_combine a (seq 0 (List.length a))) at 1
    by (rewrite length_seq; reflexivity).
  apply Permutation_map. apply PairSort.Permuted_sort.
Qed.

Lemma view_sorted (a : list Z) : StronglySorted Z.le (view a (argsort a)).
Proof.
  rewrite view_argsort.
  assert (T : RelationClasses.Transitive
                (fun x y : Z * nat => is_true (fst x <=? fst y))).
  { intros x y z. unfold is_true. rewrite !Z.leb_le. lia. }
  pose proof (PairSort.StronglySorted_sort
                (combine a (seq 0 (List.length a))) T) as H.
  induction H as [|x l Hs IH Hall]; cbn [map]; constructor.
  - exact IH.
  - apply Forall_map. eapply Forall_impl; [|exact Hall].
    intros y Hy. apply Z.leb_le. exact Hy.
Qed.

Lemma filter_none {A} (g : A -> bool) (l : list A) :
  (forall x, In x l -> g x = false) -> filter g l = [].
Proof.
  induction l as [|x l IH]; intros H; cbn [filter]; [reflexivity|].
  rewrite (H x (or_introl eq_refl)). apply IH. intros y Hy. apply H. right. exact Hy.
Qed.

Lemma filter_all {A} (g : A -> bool) (l : list A) :
  (forall x, In x l -> g x = true) -> filter g l = l.
Proof.
  induction l as [|x l IH]; intros H; cbn [filter]; [reflexivity|].
  rewrite (H x (or_introl eq_refl)). f_equal. apply IH. intros y Hy. apply H. right. exact Hy.
Qed.

(** In a sorted list without repeats, the number of items below an item is
    the position of the item. *)
Lemma sorted_rank (l : list Z) (v : Z) :
  StronglySorted Z.le l -> NoDup l -> In v l ->
  nth_error l (List.length (filter (fun x => x <? v) l)) = Some v.
Proof.
  induction l as [|x l IH]; intros Hs Hn Hin; [destruct Hin|].
  apply StronglySorted_inv in Hs as [Hs Hall].
  inversion Hn as [|? ? Hx Hn']; subst.
  rewrite Forall_forall in Hall. cbn [filter].
  destruct Hin as [->|Hin].
  - rewrite Z.ltb_irrefl.
    rewrite filter_none; [reflexivity|].
    intros y Hy. apply Z.ltb_ge. apply Hall. exact Hy.
  - assert (x < v).
    { assert (x <> v) by (intros ->; contradiction).
      specialize (Hall v Hin). lia. }
    rewrite (proj2 (Z.ltb_lt x v)) by assumption.
    cbn [List.length nth_error]. apply IH; assumption.
Qed.

Lemma take_ok {A} (l : list A) (ps : list nat) (d : A) :
  (forall p, In p ps -> (p < List.length l)%nat) ->
  take l ps = Ok (map (fun p => nth p l d) ps).
Proof.
  induction ps as [|p ps IH]; intros H; cbn [take map]; [reflexivity|].
  assert (Hp : (p < List.length l)%nat) by (apply H; left; reflexivity).
  rewrite (nth_error_nth' l d Hp).
  rewrite IH by (intros q Hq; apply H; right; exact Hq). reflexivity.
Qed.

Lemma fold_max_ge (r : list Z) (acc : Z) :
  acc <= fold_left Z.max r acc
  /\ forall y, In y r -> y <= fold_left Z.max r acc.
Proof.
  revert acc. induction r as [|x r IH]; intros acc; cbn [fold_left].
  - split; [lia | intros y []].
  - destruct (IH (Z.max acc x)) as [H1 H2]. split; [lia|].
    intros y [->|Hy]; [lia | apply H2; exact Hy].
Qed.

Lemma np_max_ok (a : list Z) :
  a <> [] -> exists m, np_max a = Ok m /\ forall y, In y a -> y <= m.
Proof.
  destruct a as [|x r]; [contradiction|]. intros _.
  eexists. split; [reflexivity|].
  destruct (fold_max_ge r x) as [H1 H2].
  intros y [<-|Hy]; [exact H1 | apply H2; exact Hy].
Qed.

Lemma filter_label_unique (df : frame) (id : Z) (r : list Z) :
  NoDup (map fst df) -> In (id, r) df ->
  filter (fun x => fst x =? id) df = [(id, r)].
Proof.
  induction df as [|[k c] df IH]; intros Hn Hin; [destruct Hin|].
  cbn [map fst] in Hn. inversion Hn as [|? ? Hk Hn']; subst.
  cbn [filter fst]. destruct Hin as [E|Hin].
  - injection E as -> ->. rewrite Z.eqb_refl. f_equal.
    apply filter_none. intros [k c] Hy. cbn [fst]. apply Z.eqb_neq.
    intros ->. apply Hk. apply in_map_iff. exists (id, c). split; [reflexivity | exact Hy].
  - destruct (Z.eqb_spec k id) as [->|Hne].
    + exfalso. apply Hk. apply in_map_iff. exists (id, r). split; [reflexivity | exact Hin].
    + apply IH; assumption.
Qed.

Lemma lookup_row_In (fr : frame) (id : Z) (r : list Z) :
  NoDup (map fst fr) -> In (id, r) fr -> lookup_row fr id = r.
Proof.
  induction fr as [|[k c] fr IH]; intros Hn Hin; [destruct Hin|].
  cbn [map fst] in Hn. inversion Hn as [|? ? Hk Hn']; subst.
  unfold lookup_row. cbn [find fst]. destruct Hin as [E|Hin].
  - injection E as -> ->. rewrite Z.eqb_refl. reflexivity.
  - destruct (Z.eqb_spec k id) as [->|Hne].
    + exfalso. apply Hk. apply in_map_iff. exists (id, r). split; [reflexivity | exact Hin].
    + apply IH; assumption.
Qed.

(** [.loc] followed by [.dropna()] on labels that are all present. *)
Lemma loc_present (df : frame) (ids : list Z) (row : Z -> list Z) :
  NoDup (map fst df) ->
  (forall id, In id ids -> In (id, row id) df) ->
  loc df ids = Ok (map (fun id => (id, Some (row id))) ids).
Proof.
  intros Hn Hin. unfold loc.
  assert (E : negb (List.length ids =? 0)%nat
              && forallb (fun id => negb (has_label df id)) ids = false).
  { destruct ids as [|id ids]; [reflexivity|].
    cbn [List.length Nat.eqb negb andb forallb].
    assert (has_label df id = true).
    { unfold has_label. apply existsb_exists. exists (id, row id).
      split; [apply Hin; left; reflexivity | cbn [fst]; apply Z.eqb_refl]. }
    rewrite H. reflexivity. }
  rewrite E. f_equal.
  induction ids as [|id ids IH]; cbn [flat_map map]; [reflexivity|].
  rewrite (filter_label_unique df id (row id) Hn)
    by (apply Hin; left; reflexivity).
  cbn [map fst snd app]. f_equal. apply IH.
  - intros id' H'. apply Hin. right. exact H'.
  - destruct ids as [|id' ids']; [reflexivity|].
    cbn [List.length Nat.eqb negb andb forallb].
    assert (has_label df id' = true).
    { unfold has_label. apply existsb_exists. exists (id', row id').
      split; [apply Hin; right; left; reflexivity | cbn [fst]; apply Z.eqb_refl]. }
    rewrite H. reflexivity.
Qed.

Lemma dropna_present (is_nan : Z -> bool) (ids : list Z) (row : Z -> list Z) :
  (forall id, In id ids -> existsb is_nan (row id) = false) ->
  dropna is_nan (map (fun id => (id, Some (row id))) ids)
  = map (fun id => (id, row id)) ids.
Proof.
  induction ids as [|id ids IH]; intros H; cbn [map dropna flat_map];
    [reflexivity|].
  cbn [snd fst]. rewrite (H id (or_introl eq_refl)). cbn [app]. f_equal.
  apply IH. intros id' H'. apply H. right. exact H'.
Qed.

Lemma in_index_frame (index : list Z) (rows : list (list Z)) (id : Z) :
  List.length rows = List.length index -> In id index ->
  exists r, In (id, r) (combine index rows).
Proof.
  revert rows. induction index as [|i index IH]; intros rows Hlen Hin;
    [destruct Hin|].
  destruct rows as [|r rows]; [discriminate|]. injection Hlen as Hlen.
  destruct Hin as [->|Hin].
  - exists r. left. reflexivity.
  - destruct (IH rows Hlen Hin) as [r' Hr']. exists r'. right. exact Hr'.
Qed.

Lemma frame_row_present (index : list Z) (rows : list (list Z)) (id : Z) :
  NoDup index -> List.length rows = List.length index -> In id index ->
  In (id, lookup_row (combine index rows) id) (combine index rows)
  /\ In (lookup_row (combine index rows) id) rows.
Proof.
  intros Hn Hlen Hin.
  destruct (in_index_frame index rows id Hlen Hin) as [r Hr].
  rewrite (lookup_row_In (combine index rows) id r);
    [split; [exact Hr | eapply in_combine_r; exact Hr] | | exact Hr].
  rewrite map_fst_combine by (symmetry; exact Hlen). exact Hn.
Qed.

(** Looking up every label of a table, in the order of its index, gives back
    its rows. *)
Lemma lookup_own_index (index : list Z) (rows : list (list Z)) :
  NoDup index -> List.length rows = List.length index ->
  map (lookup_row (combine index rows)) index = rows.
Proof.
  revert rows. induction index as [|i index IH]; intros rows Hn Hlen;
    destruct rows as [|r rows]; try discriminate; [reflexivity|].
  injection Hlen as Hlen. inversion Hn as [|? ? Hi Hn']; subst.
  cbn [combine map]. f_equal.
  - unfold lookup_row. cbn [find fst]. rewrite Z.eqb_refl. reflexivity.
  - rewrite <- (IH rows Hn' Hlen) at 2. apply map_ext_in.
    intros j Hj. unfold lookup_row. cbn [find fst].
    destruct (Z.eqb_spec i j) as [->|_]; [contradiction | reflexivity].
Qed.

Lemma np_unique_In (i : list nat) (k : nat) : In k (np_unique i) <-> In k i.
Proof.
  unfold np_unique. rewrite nodup_In. split; intros H.
  - eapply Permutation_in; [apply Permutation_sym, NatSort.Permuted_sort | exact H].
  - eapply Permutation_in; [apply NatSort.Permuted_sort | exact H].
Qed.

Lemma np_unique_NoDup (i : list nat) : NoDup (np_unique i).
Proof. unfold np_unique. apply NoDup_nodup. Qed.

Lemma view_nth (a : list Z) (sorter : list nat) (k : nat) :
  (k < List.length sorter)%nat ->
  nth k (view a sorter) 0 = nth (nth k sorter 0%nat) a 0.
Proof.
  intros H. unfold view.
  rewrite (nth_indep _ 0 ((fun p => nth p a 0) 0%nat))
    by (rewrite length_map; exact H).
  exact (map_nth (fun p => nth p a 0) sorter 0%nat k).
Qed.

(** The rows [filter_bloc_by_ids] selects before the selection by label:
    one row per requested identifier, found through the sorted view. *)
Lemma filter_core (columns : list string) (index : list Z)
  (rows : list (list Z)) (ids : list Z) :
  NoDup index -> List.length rows = List.length index ->
  (forall id, In id ids -> In id index) ->
  exists df,
    (positions <-
       take (argsort index)
            (np_unique (map (searchsorted index (argsort index)) ids)) ;;
     take (combine index rows) positions)%res = Ok df
    /\ NoDup (map fst df)
    /\ forall id, In id ids ->
         In (id, lookup_row (combine index rows) id) df.
Proof.
  intros Hn Hlen Hids.
  set (S := argsort index). set (V := view index S).
  set (fr := combine index rows).
  set (U := np_unique (map (searchsorted index S) ids)).
  pose proof (argsort_perm index) as HS. fold S in HS.
  pose proof (view_perm index) as HV. fold S in HV. fold V in HV.
  pose proof (view_sorted index) as HVs. fold S in HVs. fold V in HVs.
  assert (HVn : NoDup V)
    by (eapply Permutation_NoDup; [apply Permutation_sym; exact HV | exact Hn]).
  assert (LS : List.length S = List.length index)
    by (rewrite (Permutation_length HS), length_seq; reflexivity).
  assert (LV : List.length V = List.length index)
    by (unfold V, view; rewrite length_map; exact LS).
  assert (Lfr : List.length fr = List.length index)
    by (unfold fr; rewrite length_combine, Hlen; lia).
  assert (HSin : forall p, In p S -> (p < List.length index)%nat).
  { intros p Hp. apply (Permutation_in _ HS) in Hp. apply in_seq in Hp. lia. }
  assert (Hrank : forall id, In id ids ->
            nth_error V (searchsorted index S id) = Some id).
  { intros id Hid. unfold searchsorted. fold V.
    apply sorted_rank; [exact HVs | exact HVn |].
    eapply Permutation_in; [apply Permutation_sym; exact HV|].
    apply Hids. exact Hid. }
  assert (HU : forall k, In k U -> (k < List.length index)%nat
                                   /\ exists id, In id ids /\ nth_error V k = Some id).
  { intros k Hk. unfold U in Hk. apply (proj1 (np_unique_In _ _)) in Hk.
    apply in_map_iff in Hk as (id & <- & Hid).
    pose proof (Hrank id Hid) as Hr. split.
    - rewrite <- LV. apply nth_error_Some. rewrite Hr. discriminate.
    - exists id. split; assumption. }
  rewrite (take_ok S U 0%nat) by (intros k Hk; rewrite LS; apply HU; exact Hk).
  cbn [rbind].
  rewrite (take_ok fr _ (0, [])).
  2:{ intros p Hp. apply in_map_iff in Hp as (k & <- & Hk).
      rewrite Lfr. apply HSin. apply nth_In. rewrite LS. apply HU. exact Hk. }
  eexists. split; [reflexivity|].
  assert (Hfst : forall k, In k U ->
            fst (nth (nth k S 0%nat) fr (0, [])) = nth k V 0).
  { intros k Hk. unfold fr.
    rewrite combine_nth by (symmetry; exact Hlen). cbn [fst].
    unfold V. rewrite view_nth by (rewrite LS; apply HU; exact Hk).
    reflexivity. }
  split.
  - rewrite !map_map.
    apply NoDup_map_NoDup_ForallPairs; [|apply np_unique_NoDup].
    intros k1 k2 H1 H2 E. fold U in H1, H2.
    rewrite (Hfst k1 H1), (Hfst k2 H2) in E.
    apply (proj1 (NoDup_nth V 0) HVn); try (rewrite LV; apply HU; assumption).
    exact E.
  - intros id Hid.
    set (k := searchsorted index S id).
    assert (Hk : In k U).
    { unfold U. apply (proj2 (np_unique_In _ _)). apply in_map_iff.
      exists id. split; [reflexivity | exact Hid]. }
    assert (Hp : (nth k S 0%nat < List.length fr)%nat).
    { rewrite Lfr. apply HSin. apply nth_In. rewrite LS. apply HU. exact Hk. }
    assert (Hlabel : fst (nth (nth k S 0%nat) fr (0, [])) = id).
    { rewrite (Hfst k Hk). apply nth_error_nth. apply Hrank. exact Hid. }
    pose proof (nth_In fr (0, []) Hp) as Hin.
    rewrite map_map. apply in_map_iff. exists k. split; [|exact Hk].
    destruct (nth (nth k S 0%nat) fr (0, [])) as [l r] eqn:E.
    cbn [fst] in Hlabel. subst l. f_equal. symmetry.
    apply lookup_row_In; [|exact Hin].
    unfold fr. rewrite map_fst_combine by (symmetry; exact Hlen). exact Hn.
Qed.

(** C8 (amended). For a table indexed by pairwise distinct identifiers whose
    rows hold no NaN, filtering by a list of identifiers that all belong to
    the table returns, in the order of the list, exactly the rows of these
    identifiers: [filter_bloc_by_ids] when the table is not empty (with no
    sorter given, and again with the sorter it returned), and
    [Simulation.filter_by_ids] on the table [read_block] returned. Looking
    up the table's own index gives its rows, so the full identifier list in
    the table's order returns the table unchanged and a permutation of it
    returns the same rows reordered; the empty list returns an empty
    result. *)
Theorem filter_by_own_identifiers
  (columns : list string) (index : list Z) (rows : list (list Z))
  (ids : list Z) :
  NoDup index -> List.length rows = List.length index ->
  (forall id, In id ids -> In id index) ->
  no_nan rows ->
  (index <> [] ->
   filter_bloc_by_ids (DataFrame columns index rows) ids []
   = Ok (DataFrame columns ids
           (map (lookup_row (combine index rows)) ids), argsort index)
   /\ filter_bloc_by_ids (DataFrame columns index rows) ids (argsort index)
      = Ok (DataFrame columns ids
              (map (lookup_row (combine index rows)) ids), argsort index))
  /\ (forall f self block_type particle_type,
        read_block f self block_type particle_type
        = Ok (DataFrame columns index rows) ->
        filter_by_ids f self block_type particle_type ids
        = Ok (DataFrame columns ids
                (map (lookup_row (combine index rows)) ids)))
  /\ map (lookup_row (combine index rows)) index = rows.
Proof.
  intros Hn Hlen Hids Hnan.
  assert (Hsel : forall df,
            NoDup (map fst df) ->
            (forall id, In id ids ->
               In (id, lookup_row (combine index rows) id) df) ->
            exists sel,
              loc df ids = Ok sel
              /\ pd_select (DataFrame columns index rows)
                   (dropna (pd_is_nan (DataFrame columns index rows)) sel)
                 = DataFrame columns ids
                     (map (lookup_row (combine index rows)) ids)).
  { intros df Hdf Hin. eexists. split.
    - apply (loc_present df ids (lookup_row (combine index rows)) Hdf Hin).
    - cbn [pd_is_nan pd_select]. rewrite dropna_present.
      + rewrite !map_map. cbn [fst snd]. rewrite map_id. reflexivity.
      + intros id Hid. apply Hnan.
        apply (frame_row_present index rows id Hn Hlen (Hids id Hid)). }
  split; [|split].
  - intros Hne.
    destruct (np_max_ok index Hne) as (mx & Emx & Hmx).
    destruct (filter_core columns index rows ids Hn Hlen Hids)
      as (df & Edf & Hdf & Hin).
    assert (Hfilter : filter (fun x => x <=? mx) ids = ids).
    { apply filter_all. intros id Hid. apply Z.leb_le. apply Hmx.
      apply Hids. exact Hid. }
    assert (Hlen_sorter : (List.length (argsort index) =? 0)%nat = false).
    { apply Nat.eqb_neq.
      rewrite (Permutation_length (argsort_perm index)), length_seq.
      destruct index; [contradiction | discriminate]. }
    assert (G : forall sorter,
              (if (List.length sorter =? 0)%nat then argsort index else sorter)
              = argsort index ->
              filter_bloc_by_ids (DataFrame columns index rows) ids sorter
              = Ok (DataFrame columns ids
                      (map (lookup_row (combine index rows)) ids),
                    argsort index)).
    { intros sorter Es. unfold filter_bloc_by_ids. cbn [pd_index].
      rewrite Es, Emx. cbn [rbind]. rewrite Hfilter.
      apply rbind_inv in Edf as (positions & Epos & Edf).
      rewrite Epos. cbn [rbind]. unfold pd_frame. cbn [pd_index pd_rows].
      rewrite Edf. cbn [rbind].
      destruct (Hsel df Hdf Hin) as (sel & Esel & E).
      rewrite Esel. cbn [rbind]. rewrite E. reflexivity. }
    split; apply G; [reflexivity | rewrite Hlen_sorter; reflexivity].
  - intros f self block_type particle_type Hread.
    unfold filter_by_ids. rewrite Hread. cbn [rbind].
    unfold pd_frame. cbn [pd_index pd_rows].
    destruct (Hsel (combine index rows)) as (sel & Esel & E).
    + rewrite map_fst_combine by (symmetry; exact Hlen). exact Hn.
    + intros id Hid.
      apply (frame_row_present index rows id Hn Hlen (Hids id Hid)).
    + rewrite Esel. cbn [rbind]. rewrite E. reflexivity.
  - apply lookup_own_index; assumption.
Qed.

Lemma filter_by_own_identifiers_witness :
  filter_bloc_by_ids star_positions (pd_index star_positions) []
  = Ok (star_positions, argsort (pd_index star_positions))
  /\ filter_by_ids scenario_file scenario_header "pos" "stars" []
     = Ok (DataFrame ["x"; "y"; "z"] [] []).
Proof.
  assert (Hn : NoDup (pd_index star_positions)).
  { apply (proj2 (NoDup_nth _ 0)). intros i j Hi Hj.
    cbn in Hi, Hj.
    do 10 (destruct i as [|i]; [do 10 (destruct j as [|j];
      [first [reflexivity | cbn; discriminate]|]); cbn in Hj; lia|]).
    cbn in Hi. lia. }
  assert (Hnan : no_nan (pd_rows star_positions)).
  { intros r Hr. cbn in Hr.
    repeat (destruct Hr as [<-|Hr]; [vm_compute; reflexivity|]).
    destruct Hr. }
  split.
  - destruct (filter_by_own_identifiers ["x"; "y"; "z"]
                (pd_index star_positions) (pd_rows star_positions)
                (pd_index star_positions) Hn eq_refl (fun id H => H) Hnan)
      as (H1 & _ & H3).
    destruct (H1 ltac:(discriminate)) as [E _].
    rewrite H3 in E. exact E.
  - destruct (filter_by_own_identifiers ["x"; "y"; "z"]
                (pd_index star_positions) (pd_rows star_positions)
                [] Hn eq_refl (fun id H => match H with end) Hnan)
      as (_ & H2 & _).
    apply H2. vm_compute. reflexivity.
Defined.

(** C8 as stated fails: filtering an empty table by an empty identifier
    list raises (the maximum of an empty index), and a row that holds a NaN
    is dropped from the round trip. *)
Lemma filter_counterexample :
  filter_bloc_by_ids (DataFrame ["x"; "y"; "z"] [] []) [] []
  = Err (ValueError "zero-size array to reduction operation maximum")
  /\ filter_bloc_by_ids
       (DataFrame ["rho"] [1; 2] [[2143289344]; [5]]) [1; 2] []
     = Ok (DataFrame ["rho"] [2] [[5]], [0%nat; 1%nat]).
Proof.
  split; vm_compute; reflexivity.
Qed.

(** ** The FOF catalogue *)

Lemma bind_fromfile_i4 (f : file) {B} (k : Z -> IO B) (p : Z) :
  0 <= p ->
  iobind (fromfile_i4 f) k p =
  if p + 4 <=? flen f then k (i32_at Little f p) (p + 4) else Err IndexError.
Proof.
  intros Hp. unfold fromfile_i4, iobind, f_read, ioret, raise, flen.
  pose proof (sub_length f p 4 Hp ltac:(lia)) as HL.
  destruct (Z.leb_spec (p + 4) (Z.of_nat (List.length f))) as [H|H].
  - assert (E : List.length (sub f p 4) = 4%nat) by lia.
    rewrite E. cbn [Nat.eqb]. reflexivity.
  - assert (E : (List.length (sub f p 4) =? 4)%nat = false)
      by (apply Nat.eqb_neq; lia).
    rewrite E. reflexivity.
Qed.

(** A fragment that declares no group leaves [totngroups] and [value] as
    they are. *)
Lemma load_fragment_no_group (tab : nat -> option file) (i : nat)
  (ngroups_l nids_l : list Z) (st' : Fof.load_state) :
  (forall f, tab i = Some f -> 4 <= flen f -> i32_at Little f 0 <= 0) ->
  Fof.load_fragment tab (ngroups_l, nids_l, 0, []) i = Ok st' ->
  exists ngroups_l' nids_l', st' = (ngroups_l', nids_l', 0, []).
Proof.
  intros Hzero. unfold Fof.load_fragment, open_fragment.
  destruct (tab i) as [f|] eqn:Ef; cbn [rbind]; [|discriminate].
  unfold run. rewrite bind_fromfile_i4 by lia.
  destruct (Z.leb_spec (0 + 4) (flen f)) as [H4|H4]; [|discriminate].
  rewrite bind_fromfile_i4 by lia.
  destruct (Z.leb_spec (0 + 4 + 4) (flen f)) as [H8|H8]; [|discriminate].
  rewrite bind_seek_cur by lia.
  specialize (Hzero f eq_refl ltac:(lia)).
  destruct (Z.ltb_spec 0 (i32_at Little f 0)); [lia|].
  unfold ioret. intros Hst. injection Hst as <-. eauto.
Qed.

Lemma load_loop_no_group (tab : nat -> option file) (l : list nat)
  (ngroups_l nids_l : list Z) (st' : Fof.load_state) :
  (forall i f, tab i = Some f -> 4 <= flen f -> i32_at Little f 0 <= 0) ->
  foldM (Fof.load_fragment tab) l (ngroups_l, nids_l, 0, []) = Ok st' ->
  exists ngroups_l' nids_l', st' = (ngroups_l', nids_l', 0, []).
Proof.
  intros Hzero. revert ngroups_l nids_l.
  induction l as [|i l IH]; intros ngroups_l nids_l; cbn [foldM].
  - intros H. injection H as <-. eauto.
  - intros H. apply rbind_inv in H as (st & Hst & H).
    destruct (load_fragment_no_group tab i _ _ st (Hzero i) Hst)
      as (g & n & ->).
    apply (IH g n H).
Qed.

Lemma load_catalogue_no_group (tab : nat -> option file) (ntask : Z) :
  (forall i f, tab i = Some f -> 4 <= flen f -> i32_at Little f 0 <= 0) ->
  exists e, Fof._load_catalogue tab ntask = Err e.
Proof.
  intros Hzero. unfold Fof._load_catalogue.
  destruct (foldM (Fof.load_fragment tab) (seq 0 (Z.to_nat ntask))
              ([], [], 0, [])) as [st|e] eqn:E; [|eexists; reflexivity].
  destruct (load_loop_no_group tab _ _ _ st Hzero E) as (g & n & ->).
  eexists. reflexivity.
Qed.

Lemma load_fragment_readable (tab : nat -> option file) (i : nat) (f : file)
  (ngroups_l nids_l : list Z) :
  tab i = Some f -> 8 <= flen f -> i32_at Little f 0 <= 0 ->
  Fof.load_fragment tab (ngroups_l, nids_l, 0, []) i
  = Ok ((ngroups_l ++ [i32_at Little f 0])%list,
        (nids_l ++ [i32_at Little f 4])%list, 0, []).
Proof.
  intros Ef Hlen Hzero. unfold Fof.load_fragment, open_fragment.
  rewrite Ef. cbn [rbind]. unfold run.
  rewrite bind_fromfile_i4 by lia.
  destruct (Z.leb_spec (0 + 4) (flen f)); [|lia].
  rewrite bind_fromfile_i4 by lia.
  destruct (Z.leb_spec (0 + 4 + 4) (flen f)); [|lia].
  rewrite bind_seek_cur by lia.
  destruct (Z.ltb_spec 0 (i32_at Little f 0)); [lia|].
  reflexivity.
Qed.

(** C10. When every fragment of a FOF catalogue declares no group,
    constructing the catalogue reader raises: [_load_catalogue] never fills
    [value], and reading [value["grouplen"]] fails; with every fragment
    present and holding its two counts the error is that [KeyError]. No
    empty group table is produced. *)
Theorem fof_without_groups_raises (tab idf : nat -> option file) :
  (forall i f, tab i = Some f -> 4 <= flen f -> i32_at Little f 0 <= 0) ->
  (exists e, Fof.__init__ tab idf = Err e)
  /\ (forall totngroups ntask,
        Fof._read_header tab = Ok (totngroups, ntask) ->
        (forall i, (i < Z.to_nat ntask)%nat ->
                   exists f, tab i = Some f /\ 8 <= flen f) ->
        Fof.__init__ tab idf = Err (KeyError "grouplen")).
Proof.
  intros Hzero. split.
  - unfold Fof.__init__.
    destruct (Fof._read_header tab) as [[totngroups ntask]|e];
      [|eexists; reflexivity].
    cbn [rbind]. destruct (load_catalogue_no_group tab ntask Hzero) as [e E].
    rewrite E. eexists. reflexivity.
  - intros totngroups ntask Hh Hfiles. unfold Fof.__init__.
    rewrite Hh. cbn [rbind]. unfold Fof._load_catalogue.
    assert (G : forall n s ngroups_l nids_l,
              (forall i, (s <= i < s + n)%nat ->
                         exists f, tab i = Some f /\ 8 <= flen f) ->
              exists g m,
                foldM (Fof.load_fragment tab) (seq s n) (ngroups_l, nids_l, 0, [])
                = Ok (g, m, 0, [])).
    { induction n as [|n IH]; intros s ngroups_l nids_l Hf; cbn [seq foldM].
      - eauto.
      - destruct (Hf s ltac:(lia)) as (f & Ef & Hlen).
        rewrite (load_fragment_readable tab s f _ _ Ef Hlen
                   (Hzero s f Ef ltac:(lia))).
        cbn [rbind]. apply IH. intros i Hi. apply Hf. lia. }
    destruct (G (Z.to_nat ntask) 0%nat [] []) as (g & m & E).
    { intros i Hi. apply Hfiles. lia. }
    rewrite E. reflexivity.
Qed.

Lemma fof_without_groups_raises_witness :
  Fof.__init__ (fragments [empty_group_tab]) (fragments [one_group_ids])
  = Err (KeyError "grouplen").
Proof.
  refine (proj2 (fof_without_groups_raises (fragments [empty_group_tab])
                   (fragments [one_group_ids]) _) 0 1 _ _).
  - intros i f Hf _. destruct i as [|[|i]]; cbn in Hf; try discriminate.
    injection Hf as <-. vm_compute. discriminate.
  - vm_compute. reflexivity.
  - intros i Hi. exists empty_group_tab. split.
    + change (Z.to_nat 1) with 1%nat in Hi. destruct i; [reflexivity | lia].
    + vm_compute. discriminate.
Defined.

(** ** The subhalo catalogue *)




(** The loop of [slice_runs]: one run per subhalo, in order. *)
Lemma slice_runs_loop (all_ids suboffset sublen : list Z) (n s : nat)
  (acc runs : list (list Z)) :
  foldM (fun acc sub =>
           nmin <- getidx suboffset sub ;;
           len <- getidx sublen sub ;;
           let nmax := add_int32 nmin len in
           Ok (acc ++ [py_slice all_ids nmin nmax])%list)%res
        (seq s n) acc = Ok runs ->
  runs = (acc ++ map (run_of all_ids suboffset sublen) (seq s n))%list
  /\ forall sub, (s <= sub < s + n)%nat ->
       (sub < List.length suboffset)%nat /\ (sub < List.length sublen)%nat.
Proof.
  revert s acc. induction n as [|n IH]; intros s acc; cbn [seq foldM map].
  - intros H. injection H as <-. rewrite app_nil_r. split; [reflexivity|].
    intros sub Hs. lia.
  - intros H. apply rbind_inv in H as (acc' & Hb & H).
    apply rbind_inv in Hb as (nmin & Hmin & Hb).
    apply rbind_inv in Hb as (len & Hlen & Hb).
    injection Hb as <-.
    unfold getidx in Hmin, Hlen.
    destruct (nth_error suboffset s) as [o|] eqn:Eo; [|discriminate].
    destruct (nth_error sublen s) as [c|] eqn:Ec; [|discriminate].
    injection Hmin as <-. injection Hlen as <-.
    destruct (IH _ _ H) as [-> Hrest]. split.
    + rewrite <- app_assoc. cbn [app]. unfold run_of at 2.
      rewrite (nth_error_nth _ _ 0 Eo), (nth_error_nth _ _ 0 Ec).
      reflexivity.
    + intros sub Hs. destruct (Nat.eq_dec sub s) as [->|Hne].
      * split; apply nth_error_Some; congruence.
      * apply Hrest. lia.
Qed.




Lemma subfind_header_ntask (tab : nat -> option file)
  (tot ntask : Z) (ngroups nids nsub : list Z) :
  Subfind._read_header tab = Ok (tot, ntask, ngroups, nids, nsub) ->
  ntask = 1.
Proof.
  unfold Subfind._read_header. intros H.
  apply rbind_inv in H as (f & _ & H).
  apply rbind_inv in H as ([tot' nt] & _ & H).
  apply rbind_inv in H as ([[g n] s] & _ & H).
  injection H as _ <- _ _ _. reflexivity.
Qed.

Lemma subfind_init_runs (tab idf : nat -> option file) (obj : Subfind.t) :
  Subfind.__init__ tab idf = Ok obj ->
  exists f nids suboffset sublen n,
    idf 0%nat = Some f
    /\ nth_error (Subfind.nids obj) 0 = Some nids
    /\ Dict.get (Subfind.arrays obj) "suboffset" = Some suboffset
    /\ Dict.get (Subfind.arrays obj) "sublen" = Some sublen
    /\ nth_error (Subfind.nsubhalos obj) 0 = Some n
    /\ Subfind.slice_runs (id_stream f nids) suboffset sublen (Z.to_nat n)
       = Ok (Subfind.ids obj).
Proof.
  unfold Subfind.__init__. intros H.
  apply rbind_inv in H as ([[[[tot ntask] ngroups] nids] nsub] & Hh & H).
  apply subfind_header_ntask in Hh. subst ntask.
  apply rbind_inv in H as (attrs & _ & H).
  apply rbind_inv in H as (ids & Hids & H).
  injection H as <-.
  cbn [Subfind.arrays Subfind.nsubhalos Subfind.ids Subfind.nids].
  unfold Subfind._load_ids in Hids.
  apply rbind_inv in Hids as (all_ids & Hall & Hids).
  apply rbind_inv in Hids as (n & Hn & Hids).
  apply rbind_inv in Hids as (suboffset & Ho & Hids).
  apply rbind_inv in Hids as (sublen & Hl & Hids).
  change (seq 0 (Z.to_nat 1)) with [0%nat] in Hall. cbn [foldM] in Hall.
  apply rbind_inv in Hall as (all_ids' & Hall & Hall').
  injection Hall' as <-.
  apply rbind_inv in Hall as (f & Hf & Hall).
  apply rbind_inv in Hall as (nid & Hnid & Hall).
  apply rbind_inv in Hall as (stream & Hstream & Hall).
  cbn [Nat.eqb] in Hall. injection Hall as <-.
  unfold open_fragment in Hf.
  destruct (idf 0%nat) as [f0|] eqn:Ef; [|discriminate]. injection Hf as ->.
  unfold run in Hstream. rewrite bind_seek_set in Hstream by lia.
  unfold fromfile_count in Hstream. injection Hstream as <-.
  exists f, nid, suboffset, sublen, n.
  unfold getidx in Hn, Hnid. unfold Dict.getitem in Ho, Hl.
  destruct (nth_error nsub 0); [|discriminate]. injection Hn as ->.
  destruct (nth_error nids 0); [|discriminate]. injection Hnid as ->.
  destruct (Dict.get attrs "suboffset"); [|discriminate]. injection Ho as ->.
  destruct (Dict.get attrs "sublen"); [|discriminate]. injection Hl as ->.
  repeat split. exact Hids.
Qed.




(** * Further properties *)

(** ** The byte order of an object *)

Lemma scenario_byte_order : byte_order_kept scenario_file scenario_header.
Proof.
  apply (byte_order_kept_after scenario_file scenario_self).
  vm_compute. reflexivity.
Qed.

Lemma scenario_header_again :
  _read_header scenario_file scenario_header = Ok scenario_header.
Proof. vm_compute. reflexivity. Qed.

(** On an object with the byte order of the file, [read_block] gives what
    it gives on the object after the header read. *)
Lemma read_block_kept (f : file) (self self' : Simulation)
  (block_type particle_type : string) :
  byte_order_kept f self -> _read_header f self = Ok self' ->
  read_block f self block_type particle_type
  = read_block f self' block_type particle_type.
Proof.
  intros Hb Hh.
  destruct (read_header_again f self self' Hh) as [Hh' _].
  unfold read_block, read_block_body. cbv zeta.
  rewrite Hh, Hh', (Hb self' Hh). reflexivity.
Qed.

(** * Further properties of the snapshot reader *)

(** ** The layout inside a block *)

(** X1. After a header read, the three numbers [_compute_offset] returns for a
    block and a particle type are not negative and add up to the size
    [_file_structure] entered for the block: the bytes skipped before the
    particles of the type, the bytes read and the bytes skipped after them
    are the whole payload. *)
Theorem compute_offset_partitions_block
  (f : file) (self self' : Simulation) (block_type particle_type : string)
  (size offset read_size remainder : Z) :
  _read_header f self = Ok self' ->
  Dict.get (block_sizes self') block_type = Some size ->
  _compute_offset self' block_type particle_type
  = Ok (offset, read_size, remainder) ->
  0 <= offset /\ 0 <= read_size /\ 0 <= remainder
  /\ offset + read_size + remainder = size.
Proof.
  intros Hh Hsize Hc.
  pose proof (read_header_ready f self self' Hh) as Hr.
  destruct (read_header_inv f self self' Hr Hh) as (_ & Hs & _).
  destruct (compute_offset_nonneg _ _ _ _ _ _ (proj1 Hs) Hc) as (Ho & Hrd & Hrm).
  destruct (compute_offset_total _ _ _ _ _ _ (proj1 Hs) Hc)
    as (Htot & Hdom & _).
  assert (Hne : block_type <> "header").
  { intros ->. rewrite in_domain_not_header in Hdom. discriminate. }
  rewrite (proj2 Hs) in Hsize.
  rewrite (domain_total self' block_type size Hsize Hne) in Htot.
  repeat split; assumption.
Qed.

Lemma compute_offset_partitions_block_witness :
  0 <= 1800 /\ 0 <= 120 /\ 0 <= 0 /\ 1800 + 120 + 0 = 1920.
Proof.
  apply (compute_offset_partitions_block scenario_file scenario_self
           scenario_header "pos" "stars" 1920 1800 120 0);
    vm_compute; reflexivity.
Defined.

Lemma firstn_app_cons {A} (a : list A) (x : A) (b : list A) (n : nat) :
  (List.length a < n)%nat ->
  firstn n (a ++ x :: b) = (a ++ x :: firstn (n - List.length a - 1) b)%list.
Proof.
  intros H. rewrite firstn_app, (firstn_all2 a) by lia.
  destruct (n - List.length a)%nat as [|k] eqn:E; [lia|].
  cbn [firstn]. replace (S k - 1)%nat with k by lia. reflexivity.
Qed.

Lemma In_firstn_list {A} (n : nat) (l : list A) (x : A) :
  In x (firstn n l) -> In x l.
Proof.
  intros H. rewrite <- (firstn_skipn n l). apply in_or_app. left. exact H.
Qed.

Lemma In_skipn_list {A} (n : nat) (l : list A) (x : A) :
  In x (skipn n l) -> In x l.
Proof.
  intros H. rewrite <- (firstn_skipn n l). apply in_or_app. right. exact H.
Qed.

Lemma list_index_lt (l : list string) (x : string) (n : nat) :
  list_index l x = Ok n -> (n < List.length l)%nat.
Proof.
  revert n. induction l as [|y l IH]; intros n; cbn [list_index];
    [discriminate|].
  destruct (String.eqb x y).
  - intros H. injection H as <-. cbn. lia.
  - destruct (list_index l x) as [m|e]; cbn [rbind]; [|discriminate].
    intros H. injection H as <-. specialize (IH m eq_refl). cbn. lia.
Qed.

(** X2. Inside a block the particle types follow one another in the order of
    [particle_keys] and their byte ranges do not overlap: the range of a
    type ends at or before the offset of every later type. *)
Theorem compute_offset_ranges_in_order
  (f : file) (self self' : Simulation) (block_type p1 p2 : string)
  (i1 i2 : nat) (o1 r1 m1 o2 r2 m2 : Z) :
  _read_header f self = Ok self' ->
  list_index particle_keys p1 = Ok i1 ->
  list_index particle_keys p2 = Ok i2 ->
  (i1 < i2)%nat ->
  _compute_offset self' block_type p1 = Ok (o1, r1, m1) ->
  _compute_offset self' block_type p2 = Ok (o2, r2, m2) ->
  o1 + r1 <= o2.
Proof.
  intros Hh H1 H2 Hlt Hc1 Hc2.
  pose proof (read_header_ready f self self' Hh) as Hr.
  destruct (read_header_inv f self self' Hr Hh) as (_ & [Hwf _] & _).
  rewrite (compute_offset_spec _ _ _ Hwf), H1 in Hc1.
  rewrite (compute_offset_spec _ _ _ Hwf), H2 in Hc2.
  destruct (in_domain self' block_type p1) eqn:D1; [|discriminate].
  destruct (in_domain self' block_type p2) eqn:D2; [|discriminate].
  injection Hc1 as <- <- _. injection Hc2 as <- _ _.
  pose proof (list_index_lt _ _ _ H1) as L1.
  assert (Hsplit : firstn i2 particle_keys
                   = (firstn i1 particle_keys
                      ++ p1 :: firstn (i2 - i1 - 1)
                                 (skipn (i1 + 1) particle_keys))%list).
  { pose proof (list_index_split _ _ _ H1) as E.
    assert (Hl : List.length (firstn i1 particle_keys) = i1)
      by (rewrite length_firstn; lia).
    rewrite E at 1. rewrite firstn_app_cons by lia. rewrite Hl.
    reflexivity. }
  rewrite Hsplit, domain_sum_split.
  assert (Hc : domain_count self' block_type p1 = count self' p1)
    by (unfold domain_count; rewrite D1; reflexivity).
  rewrite Hc.
  assert (Ht : 0 <= domain_sum self' block_type
                      (firstn (i2 - i1 - 1) (skipn (i1 + 1) particle_keys))).
  { apply domain_sum_nonneg; [exact Hwf|]. intros k Hk.
    apply In_firstn_list, In_skipn_list in Hk. exact Hk. }
  pose proof (dim_spec_pos self' block_type). nia.
Qed.

Lemma compute_offset_ranges_in_order_witness : 0 + 1200 <= 1800.
Proof.
  apply (compute_offset_ranges_in_order scenario_file scenario_self
           scenario_header "pos" "gas" "stars" 0 4 0 1200 720 1800 120 0);
    first [vm_compute; reflexivity | lia].
Defined.

(** ** The header *)

(** X3. Reading the header of the same file a second time leaves the object as
    the first read left it (so the header read at the start of every
    [read_block] changes nothing on an object built from that file), and a
    header read never touches [use_longids] nor the four flags given to the
    constructor. *)
Theorem read_header_again_changes_nothing
  (f : file) (self self' : Simulation) :
  _read_header f self = Ok self' ->
  _read_header f self' = Ok self'
  /\ use_longids self' = use_longids self
  /\ forall k, In k ["pot"; "accel"; "endt"; "tstp"] ->
       Dict.get (flags self') k = Dict.get (flags self) k.
Proof.
  intros Hh.
  pose proof (read_header_ready f self self' Hh) as Hr.
  split; [exact (read_header_idem f self self' Hr Hh)|].
  destruct (read_header_inv f self self' Hr Hh)
    as (_ & _ & _ & Hl & s & bs & -> & _).
  split; [exact Hl|].
  intros k Hk. unfold set_block_sizes, header_of. cbn [flags].
  rewrite !get_set. cbn in Hk.
  destruct Hk as [<-|[<-|[<-|[<-|[]]]]]; reflexivity.
Qed.

Lemma read_header_again_changes_nothing_witness :
  _read_header scenario_file scenario_header = Ok scenario_header
  /\ use_longids scenario_header = use_longids scenario_self
  /\ forall k, In k ["pot"; "accel"; "endt"; "tstp"] ->
       Dict.get (flags scenario_header) k = Dict.get (flags scenario_self) k.
Proof.
  apply (read_header_again_changes_nothing scenario_file scenario_self).
  vm_compute. reflexivity.
Defined.

(** X4. A file shorter than the 264 bytes of the header record with its two
    markers is never accepted: the header read raises [struct.error] when a
    read comes back short, or the header [NameError] when the leading
    marker is neither 256 nor 65536. *)
Theorem read_header_rejects_short_file (f : file) (self : Simulation) :
  flen f < 264 ->
  exists e, _read_header f self = Err e
            /\ (e = StructError \/ e = header_error)
            /\ (flen f < 4 -> e = StructError).
Proof.
  intros Hlen. unfold _read_header. rewrite read_header_io_spec.
  destruct (Z.leb_spec 4 (flen f)) as [H4|H4].
  - destruct (i32_at Little f 0 =? 65536).
    + destruct (Z.leb_spec 264 (flen f)); [lia|].
      exists StructError. cbn [rbind]. repeat split; auto.
    + destruct (i32_at Little f 0 =? 256).
      * destruct (Z.leb_spec 264 (flen f)); [lia|].
        exists StructError. cbn [rbind]. repeat split; auto.
      * exists header_error. cbn [rbind]. repeat split; auto. lia.
  - exists StructError. cbn [rbind]. repeat split; auto.
Qed.

Lemma read_header_rejects_short_file_witness :
  exists e, _read_header [] scenario_self = Err e
            /\ (e = StructError \/ e = header_error)
            /\ (flen [] < 4 -> e = StructError).
Proof.
  apply (read_header_rejects_short_file [] scenario_self).
  vm_compute. reflexivity.
Defined.

Lemma flag_of_get (self : Simulation) (k : string) :
  Dict.mem k (flags self) = true ->
  Dict.get (flags self) k = Some (flag self k).
Proof.
  unfold Dict.mem, flag. destruct (Dict.get (flags self) k);
    [reflexivity | discriminate].
Qed.

(** X5. After a header read [block_sizes] holds the eight keys header, pos,
    vel, id, mass, u, rho and hsml whatever the flags are, holds each of the
    eleven other keys exactly when the flag of the key is not zero, and
    holds nothing else: every key is one of [block_keys], and no size is
    negative (an entry can be zero). *)
Theorem block_sizes_entries (f : file) (self self' : Simulation) :
  _read_header f self = Ok self' ->
  (forall key, In key always_blocks ->
     Dict.mem key (block_sizes self') = true)
  /\ (forall key fl, In (key, fl) optional_blocks ->
        (Dict.mem key (block_sizes self') = true
         <-> exists v, Dict.get (flags self') fl = Some v /\ v <> 0))
  /\ (forall key size, Dict.get (block_sizes self') key = Some size ->
        In key block_keys /\ 0 <= size).
Proof.
  intros Hh.
  pose proof (read_header_ready f self self' Hh) as Hr.
  destruct (read_header_inv f self self' Hr Hh) as (_ & [Hwf Hs] & _).
  destruct (wf_header_inv self' Hwf) as [_ Hfl].
  split; [|split].
  - intros key Hk. unfold Dict.mem. rewrite Hs. cbn in Hk.
    destruct Hk as [<-|[<-|[<-|[<-|[<-|[<-|[<-|[<-|[]]]]]]]]];
      unfold block_size_spec; cbn [String.eqb Ascii.eqb Bool.eqb andb];
      reflexivity.
  - intros key fl Hk. unfold Dict.mem. rewrite Hs. cbn in Hk.
    assert (Hiff : forall fl, In fl flag_keys ->
              (truthy (flag self' fl) = true
               <-> exists v, Dict.get (flags self') fl = Some v /\ v <> 0)).
    { intros fl' Hin. rewrite (flag_of_get self' fl' (Hfl fl' Hin)).
      unfold truthy. split.
      - intros H. exists (flag self' fl'). split; [reflexivity|].
        intros E. rewrite E in H. discriminate.
      - intros (v & E & Hv). injection E as <-.
        destruct (Z.eqb_spec (flag self' fl') 0); [contradiction|reflexivity]. }
    destruct Hk as [E|[E|[E|[E|[E|[E|[E|[E|[E|[E|[E|[]]]]]]]]]]]];
      injection E as <- <-;
      (rewrite <- Hiff by in_list);
      unfold block_size_spec; cbn [String.eqb Ascii.eqb Bool.eqb andb];
      match goal with
      | |- context [truthy ?x] => destruct (truthy x)
      end; split; intros H; first [reflexivity | discriminate H].
  - intros key size Hk. split.
    + rewrite Hs in Hk. unfold block_size_spec in Hk.
      repeat match type of Hk with
             | context [String.eqb key ?s] =>
                 destruct (String.eqb_spec key s) as [->|];
                 [in_list | cbn [andb] in Hk]
             end.
      discriminate.
    + apply (block_size_nonneg self' key size Hwf). rewrite <- Hs. exact Hk.
Qed.

Lemma block_sizes_entries_witness :
  Dict.mem "hsml" (block_sizes scenario_header) = true
  /\ (Dict.mem "ne" (block_sizes scenario_header) = true
      <-> exists v, Dict.get (flags scenario_header) "cooling" = Some v
                    /\ v <> 0)
  /\ In "metals" block_keys /\ 0 <= 5280.
Proof.
  destruct (block_sizes_entries scenario_file scenario_self scenario_header)
    as (Ha & Ho & Hk); [vm_compute; reflexivity|].
  split; [apply Ha; in_list|].
  split; [apply Ho; in_list|].
  apply Hk. vm_compute. reflexivity.
Defined.

(** ** Bytes appended to a snapshot *)

Lemma flen_app (f e : file) : flen (f ++ e) = flen f + flen e.
Proof. unfold flen. rewrite length_app. lia. Qed.

Lemma sub_app (f e : file) (p n : Z) :
  0 <= p -> p + n <= flen f -> sub (f ++ e) p n = sub f p n.
Proof.
  unfold sub, flen. intros Hp Hn.
  rewrite skipn_app, firstn_app.
  replace (Z.to_nat n - List.length (skipn (Z.to_nat p) f))%nat with 0%nat
    by (rewrite length_skipn; lia).
  cbn [firstn]. rewrite app_nil_r. reflexivity.
Qed.

Lemma u32_at_app (s : endian) (f e : file) (p : Z) :
  0 <= p -> p + 4 <= flen f -> u32_at s (f ++ e) p = u32_at s f p.
Proof. intros. unfold u32_at. rewrite sub_app by lia. reflexivity. Qed.

Lemma i32_at_app (s : endian) (f e : file) (p : Z) :
  0 <= p -> p + 4 <= flen f -> i32_at s (f ++ e) p = i32_at s f p.
Proof. intros. unfold i32_at. rewrite sub_app by lia. reflexivity. Qed.

Lemma header_of_app (f e : file) (self : Simulation) (s : endian) :
  264 <= flen f -> header_of (f ++ e) self s = header_of f self s.
Proof.
  intros H. unfold header_of, per_type, u32_at, i32_at, f64_at.
  rewrite !sub_app by lia. reflexivity.
Qed.

Lemma read_header_app (f e : file) (self self' : Simulation) :
  _read_header f self = Ok self' -> _read_header (f ++ e) self = Ok self'.
Proof.
  intros Hh.
  pose proof (read_header_ready f self self' Hh) as Hr.
  destruct (read_header_inv f self self' Hr Hh)
    as (Hlen & _ & _ & _ & s & bs & _ & Hfs & _ & Ht & Hs).
  unfold _read_header.
  rewrite (read_header_io_ok (f ++ e) self s).
  - cbn [rbind]. rewrite header_of_app by exact Hlen. exact Hfs.
  - rewrite flen_app. unfold flen at 2. lia.
  - rewrite i32_at_app by lia. exact Hs.
  - rewrite i32_at_app by lia. exact Ht.
Qed.

Lemma file_check_loop_app (f e : file) (self : Simulation)
  (keys : list string) :
  forall p p', 0 <= p ->
  _file_check_loop f self keys p = Ok (tt, p') ->
  _file_check_loop (f ++ e) self keys p = Ok (tt, p').
Proof.
  induction keys as [|key keys IH]; intros p p' Hp H; [exact H|].
  cbn [_file_check_loop] in *. unfold iobind in *.
  rewrite file_check_block_spec in H by exact Hp.
  rewrite file_check_block_spec by exact Hp.
  destruct (Dict.get (block_sizes self) key) as [size|]; [|apply IH; assumption].
  destruct (Z.ltb_spec 0 size) as [Hsz|Hsz]; [|apply IH; assumption].
  destruct (Z.leb_spec (p + 4) (flen f)) as [L1|]; [|discriminate].
  destruct (Z.eqb_spec (u32_at (swap self) f p) size) as [E1|]; [|discriminate].
  destruct (Z.leb_spec (p + 4 + size + 4) (flen f)) as [L2|]; [|discriminate].
  destruct (Z.eqb_spec (u32_at (swap self) f (p + 4 + size)) size) as [E2|];
    [|discriminate].
  pose proof (flen_app f e) as Hl.
  assert (0 <= flen e) by (unfold flen; lia).
  destruct (Z.leb_spec (p + 4) (flen (f ++ e))); [|lia].
  rewrite u32_at_app by lia.
  destruct (Z.eqb_spec (u32_at (swap self) f p) size); [|contradiction].
  destruct (Z.leb_spec (p + 4 + size + 4) (flen (f ++ e))); [|lia].
  rewrite u32_at_app by lia.
  destruct (Z.eqb_spec (u32_at (swap self) f (p + 4 + size)) size);
    [|contradiction].
  apply IH; [lia | exact H].
Qed.

Lemma file_check_app (f e : file) (self : Simulation) :
  _file_check f self = Ok tt -> _file_check (f ++ e) self = Ok tt.
Proof.
  unfold _file_check, run. intros H.
  destruct (_file_check_loop f self block_keys 0) as [[[] p']|] eqn:E;
    [|discriminate].
  rewrite (file_check_loop_app f e self block_keys 0 p' ltac:(lia) E).
  reflexivity.
Qed.

Lemma raw_read_app (f e : file) (s : endian) (self : Simulation)
  (block_type particle_type : string) (data : list byte) :
  sized self ->
  run (read_block_io f s self block_type particle_type) = Ok data ->
  run (read_block_io (f ++ e) s self block_type particle_type) = Ok data.
Proof.
  intros Hs H.
  destruct (read_block_io_inv f s self _ _ _ Hs H)
    as (size & order & offset & read_size & remainder
        & Hsize & Ho & Hc & Hlen & Hlead & Htrail & ->).
  destruct (compute_offset_nonneg _ _ _ _ _ _ (proj1 Hs) Hc) as (? & ? & ?).
  pose proof (read_block_skip_nonneg self order Hs).
  assert (0 <= flen e) by (unfold flen; lia).
  rewrite (read_block_io_ok (f ++ e) s self _ _ size order offset read_size
             remainder Hs Hsize Ho Hc).
  - rewrite sub_app by lia. reflexivity.
  - rewrite flen_app. lia.
  - rewrite u32_at_app by lia. exact Hlead.
  - rewrite u32_at_app by lia. exact Htrail.
Qed.

Lemma read_block_finish_mono (s : endian)
  (rec rec' : Simulation -> string -> string -> result pdobj)
  (self : Simulation) (block_type particle_type : string)
  (data : list byte) (r : pdobj) :
  (forall o b p x, rec o b p = Ok x -> rec' o b p = Ok x) ->
  read_block_finish s rec self block_type particle_type data = Ok r ->
  read_block_finish s rec' self block_type particle_type data = Ok r.
Proof.
  intros Hrec H. unfold read_block_finish in *.
  apply rbind_inv in H as (block & -> & H). cbn [rbind].
  apply rbind_inv in H as (ydim & -> & H). cbn [rbind].
  apply rbind_inv in H as (block' & -> & H). cbn [rbind].
  destruct (negb (String.eqb block_type "id")); [|exact H].
  apply rbind_inv in H as (ids & Hids & H).
  rewrite (Hrec _ _ _ _ Hids). exact H.
Qed.

Lemma read_block_body_app (f e : file)
  (rec rec' : Simulation -> string -> string -> result pdobj)
  (self : Simulation) (block_type particle_type : string) (r : pdobj) :
  (forall o b p x, rec o b p = Ok x -> rec' o b p = Ok x) ->
  read_block_body f rec self block_type particle_type = Ok r ->
  read_block_body (f ++ e) rec' self block_type particle_type = Ok r.
Proof.
  intros Hrec H. unfold read_block_body in *. cbv zeta in *.
  apply rbind_inv in H as (self' & Hh & H).
  apply rbind_inv in H as (data & Hd & H).
  pose proof (read_header_ready f self self' Hh) as Hr.
  destruct (read_header_inv f self self' Hr Hh) as (_ & Hs & _).
  rewrite (read_header_app f e self self' Hh). cbn [rbind].
  rewrite (raw_read_app f e _ self' _ _ data Hs Hd). cbn [rbind].
  exact (read_block_finish_mono _ rec rec' _ _ _ _ _ Hrec H).
Qed.

(** X6. Appending bytes to a snapshot file changes no success: a file the
    constructor accepts, file check included, is accepted with the same
    object when any bytes are appended to it, and a block that [read_block]
    returns is returned unchanged from the longer file. (A read that fails
    because the file ends too early is another matter.) *)
Theorem appended_bytes_keep_results (f extra : file) :
  (forall pot accel endt tstp skip_file_check longids self,
     __init__ f pot accel endt tstp skip_file_check longids = Ok self ->
     __init__ (f ++ extra) pot accel endt tstp skip_file_check longids
     = Ok self)
  /\ (forall self block_type particle_type r,
        read_block f self block_type particle_type = Ok r ->
        read_block (f ++ extra) self block_type particle_type = Ok r).
Proof.
  split.
  - intros pot accel endt tstp skip_file_check longids self H.
    unfold __init__ in *.
    apply rbind_inv in H as (self0 & Hh & H).
    rewrite (read_header_app f extra _ _ Hh). cbn [rbind].
    destruct (negb skip_file_check); [|exact H].
    apply rbind_inv in H as ([] & Hc & H).
    rewrite (file_check_app f extra self0 Hc). exact H.
  - intros self block_type particle_type r Hr.
    unfold read_block in *.
    apply (read_block_body_app f extra _ _ _ _ _ _) with (2 := Hr).
    intros o b p x Hx.
    apply (read_block_body_app f extra _ _ _ _ _ _) with (2 := Hx).
    intros ? ? ? ? Hd. exact Hd.
Qed.

Lemma appended_bytes_keep_results_witness :
  __init__ (scenario_file ++ [x00; x01]) false false false false false false
  = Ok scenario_header
  /\ read_block (scenario_file ++ [x00; x01]) scenario_header "pos" "stars"
     = Ok star_positions.
Proof.
  destruct (appended_bytes_keep_results scenario_file [x00; x01])
    as [Hi Hr].
  split.
  - apply Hi. vm_compute. reflexivity.
  - apply Hr. vm_compute. reflexivity.
Defined.

(** ** Reading after the file check *)

Lemma checked_markers (f : file) (self : Simulation) (block_type : string)
  (size : Z) (order : nat) :
  _file_check f self = Ok tt ->
  list_index block_keys block_type = Ok order ->
  Dict.get (block_sizes self) block_type = Some size -> 0 < size ->
  (forall key sz, In key (firstn order block_keys) ->
     Dict.get (block_sizes self) key = Some sz -> 0 < sz) ->
  markers_ok f self block_type.
Proof.
  intros Hcheck Ho Hget Hpos Hearlier.
  unfold _file_check, run in Hcheck.
  destruct (_file_check_loop f self block_keys 0) as [[[] p']|e] eqn:E;
    [|discriminate].
  destruct (file_check_loop_inv f self block_keys 0 p' ltac:(lia) E)
    as [_ Hall].
  pose proof (list_index_split _ _ _ Ho) as Hsplit.
  specialize (Hall _ _ _ size Hsplit Hget Hpos).
  cbn [Z.add] in Hall. fold (present_offset self order) in Hall.
  rewrite <- (read_block_skip_present self order Hearlier) in Hall.
  exists size, order. tauto.
Qed.

Ltac block_key_cases H :=
  cbn in H;
  destruct H as
    [<-|[<-|[<-|[<-|[<-|[<-|[<-|[<-|[<-|[<-|[<-|[<-|[<-|[<-|[<-|
     [<-|[<-|[<-|[<-|[]]]]]]]]]]]]]]]]]]]].

Lemma id_block_positive (self : Simulation) (block_type : string)
  (size : Z) (order : nat) :
  sized self ->
  list_index block_keys block_type = Ok order ->
  Dict.get (block_sizes self) block_type = Some size -> 0 < size ->
  (forall key sz, In key (firstn order block_keys) ->
     Dict.get (block_sizes self) key = Some sz -> 0 < sz) ->
  block_type <> "header" ->
  (exists sz, Dict.get (block_sizes self) "id" = Some sz /\ 0 < sz)
  /\ (forall key sz, In key (firstn 3 block_keys) ->
        Dict.get (block_sizes self) key = Some sz -> 0 < sz).
Proof.
  intros [Hwf Hs] Ho Hget Hpos Hearlier Hne.
  assert (Htot : 0 < total_number self).
  { pose proof (block_keys_cases _ _ Ho) as Hin.
    assert (Hp : Dict.get (block_sizes self) "pos"
                 = Some (total_number self * 4 * 3))
      by (rewrite Hs; reflexivity).
    assert (Hv : Dict.get (block_sizes self) "vel"
                 = Some (total_number self * 4 * 3))
      by (rewrite Hs; reflexivity).
    block_key_cases Hin;
      try (exfalso; apply Hne; reflexivity);
      try (rewrite Hp in Hget; injection Hget as <-; lia);
      try (rewrite Hv in Hget; injection Hget as <-; lia);
      cbn in Ho; injection Ho as <-;
      specialize (Hearlier "pos" _ ltac:(in_list) Hp); lia. }
  split.
  - rewrite Hs. unfold block_size_spec.
    cbn [String.eqb Ascii.eqb Bool.eqb andb].
    eexists. split; [reflexivity|]. destruct (use_longids self); lia.
  - intros key sz Hin Hk. rewrite Hs in Hk. cbn in Hin.
    destruct Hin as [<-|[<-|[<-|[]]]];
      unfold block_size_spec in Hk;
      cbn [String.eqb Ascii.eqb Bool.eqb andb] in Hk;
      injection Hk as <-; lia.
Qed.

(** X7. The positive side of the file check: on an object built with the file
    check on, [read_block] returns a result for every block other than
    "accel" that has a size above zero and is preceded in [block_sizes] only
    by entries above zero, and every particle type the dictionary of the
    block holds. (An entry of size zero before the block shifts the position
    [read_block] seeks to.) *)
Theorem read_block_after_file_check
  (f : file) (pot accel endt tstp longids : bool) (self : Simulation)
  (block_type particle_type : string) (size : Z) (order : nat)
  (particle_number : Dict.t Z) (dim : Z) :
  __init__ f pot accel endt tstp false longids = Ok self ->
  list_index block_keys block_type = Ok order ->
  Dict.get (block_sizes self) block_type = Some size -> 0 < size ->
  (forall key sz, In key (firstn order block_keys) ->
     Dict.get (block_sizes self) key = Some sz -> 0 < sz) ->
  block_type <> "accel" ->
  In particle_type particle_keys ->
  _block_domain self block_type = Ok (particle_number, dim) ->
  Dict.mem particle_type particle_number = true ->
  exists r, read_block f self block_type particle_type = Ok r.
Proof.
  intros Hinit Ho Hget Hpos Hearlier Hacc Hin Hpn Hmem.
  destruct (init_checked f _ _ _ _ _ _ Hinit) as (self0 & Hh0 & Hcheck).
  pose proof (read_header_ready f self0 self Hh0) as Hr0.
  destruct (read_header_inv f self0 self Hr0 Hh0) as (_ & Hs & Hr & _).
  pose proof (read_header_idem f self0 self Hr0 Hh0) as Hh.
  assert (Hdom : in_domain self block_type particle_type = true).
  { pose proof (block_domain_mem self _ _ _ _ (proj1 Hs) Hin Hpn) as G.
    unfold Dict.mem in Hmem. rewrite G in Hmem.
    destruct (in_domain self block_type particle_type);
      [reflexivity | discriminate]. }
  assert (Hne : block_type <> "header").
  { intros ->. rewrite in_domain_not_header in Hdom. discriminate. }
  pose proof (checked_markers f self _ _ _ Hcheck Ho Hget Hpos Hearlier) as Hm.
  destruct (id_block_positive self _ _ _ Hs Ho Hget Hpos Hearlier Hne)
    as [(idsz & Hidsz & Hidpos) Hid3].
  pose proof (checked_markers f self "id" idsz 3 Hcheck eq_refl Hidsz Hidpos
                Hid3) as Hmid.
  destruct (raw_read_ok f self block_type particle_type Hs Hm Hin Hdom)
    as [data Hd].
  destruct (raw_read_ok f self "id" particle_type Hs Hmid Hin eq_refl)
    as [iddata Hidd].
  pose proof (block_keys_cases _ _ Ho) as Hb.
  block_key_cases Hb;
    try (exfalso; apply Hne; reflexivity);
    try (exfalso; apply Hacc; reflexivity);
    first
      [ rewrite (read_block_id f self self _ Hr Hh), Hd; cbn [rbind];
        eexists; reflexivity
      | rewrite (read_block_table f self self _ _ 3 ["x"; "y"; "z"] Hr Hh)
          by (first [left; repeat split; reflexivity
                    | right; left; repeat split; reflexivity]);
        rewrite Hd, Hidd; cbn [rbind]; eexists; reflexivity
      | rewrite (read_block_table f self self _ _ 12 element_keys Hr Hh)
          by (right; right; repeat split; reflexivity);
        rewrite Hd, Hidd; cbn [rbind]; eexists; reflexivity
      | rewrite (read_block_column f self self _ _ Hr Hh) by reflexivity;
        rewrite Hd, Hidd; cbn [rbind]; eexists; reflexivity ].
Qed.

Lemma read_block_after_file_check_witness :
  exists r,
    read_block scenario_file scenario_header "metals" "stars" = Ok r.
Proof.
  apply (read_block_after_file_check scenario_file false false false false
           false scenario_header "metals" "stars" 5280 12
           [("gas", 100); ("stars", 10)] 12);
    try (vm_compute; reflexivity); try in_list; try discriminate.
  intros key sz Hin. cbn in Hin.
  repeat (destruct Hin as [<-|Hin];
          [vm_compute; intros E; injection E as <-; reflexivity|]).
  destruct Hin.
Defined.

(** ** What [read_block] returns *)

Lemma chunks_one {A} (l : list A) :
  chunks 1 l (List.length l) = map (fun x => [x]) l.
Proof.
  unfold chunks, chunk.
  induction l as [|a l IH]; [reflexivity|].
  cbn [List.length seq map]. rewrite <- seq_shift, map_map.
  f_equal. rewrite <- IH. apply map_ext. intros i.
  rewrite !Nat.mul_1_r. reflexivity.
Qed.

Lemma chunks_one_items (s : endian) (data : list byte) (n : nat) :
  chunks 1 (items s data (n * 1)) n = map (fun x => [x]) (items s data n).
Proof.
  rewrite Nat.mul_1_r. pose proof (chunks_one (items s data n)) as E.
  rewrite length_items in E. exact E.
Qed.

(** The three forms of a result of [read_block], by block type, on an
    object with the byte order of the file. *)
Lemma read_block_cases (f : file) (self : Simulation)
  (block_type particle_type : string) (r : pdobj) :
  byte_order_kept f self ->
  read_block f self block_type particle_type = Ok r ->
  exists self' data iddata,
    _read_header f self = Ok self' /\ sized self'
    /\ In particle_type particle_keys
    /\ run (read_block_io f (swap self') self' block_type particle_type)
       = Ok data
    /\ run (read_block_io f (swap self') self' "id" particle_type)
       = Ok iddata
    /\ read_block f self "id" particle_type
       = Ok (Series "id" (id_values (swap self') self' particle_type iddata))
    /\ (block_type = "id"
        /\ r = Series "id"
                 (id_values (swap self') self' particle_type iddata)
        \/ block_type <> "id"
           /\ exists width : nat,
                width = List.length (block_columns block_type)
                /\ r = DataFrame (block_columns block_type)
                         (id_values (swap self') self' particle_type iddata)
                         (chunks width
                            (items (swap self') data
                               (Z.to_nat (count self' particle_type) * width))
                            (Z.to_nat (count self' particle_type)))).
Proof.
  intros Hkept H.
  destruct (read_block_inv f self _ _ r H)
    as (self' & size & order & data & Hh0 & Hs & _ & Ho & Hin & Hdom & Hd & _).
  rewrite <- (Hkept self' Hh0) in Hd.
  rewrite (read_block_kept f self self' _ _ Hkept Hh0) in H.
  rewrite (read_block_kept f self self' "id" _ Hkept Hh0).
  destruct (read_header_again f self self' Hh0) as [Hh Hr].
  assert (Hne : block_type <> "header").
  { intros ->. rewrite in_domain_not_header in Hdom. discriminate. }
  assert (Hacc : block_type <> "accel").
  { intros ->. exact (read_block_accel_never_returns f self' _ r H). }
  pose proof (block_keys_cases _ _ Ho) as Hb.
  exists self', data.
  block_key_cases Hb;
    try (exfalso; apply Hne; reflexivity);
    try (exfalso; apply Hacc; reflexivity);
    first
    [ rewrite (read_block_id f self' self' _ Hr Hh), Hd in H;
      cbn [rbind] in H; injection H as <-; exists data;
      rewrite (read_block_id f self' self' _ Hr Hh), Hd; cbn [rbind];
      (split; [exact Hh0|]); (split; [exact Hs|]); (split; [exact Hin|]);
      (split; [reflexivity|]);
      (split; [reflexivity|]); (split; [reflexivity|]);
      left; split; reflexivity
    | first
        [ rewrite (read_block_table f self' self' _ _ 3 ["x"; "y"; "z"] Hr Hh)
            in H
            by (first [left; repeat split; reflexivity
                      | right; left; repeat split; reflexivity])
        | rewrite (read_block_table f self' self' _ _ 12 element_keys Hr Hh)
            in H
            by (right; right; repeat split; reflexivity)
        | rewrite (read_block_column f self' self' _ _ Hr Hh) in H
            by reflexivity ];
      rewrite Hd in H; cbn [rbind] in H;
      apply rbind_inv in H as (iddata & Hidd & H); injection H as <-;
      exists iddata;
      rewrite (read_block_id f self' self' _ Hr Hh), Hidd; cbn [rbind];
      (split; [exact Hh0|]); (split; [exact Hs|]); (split; [exact Hin|]);
      (split; [exact Hd|]);
      (split; [reflexivity|]); (split; [reflexivity|]);
      right; (split; [discriminate|]);
      first [ exists 3%nat; split; reflexivity
            | exists 12%nat; split; reflexivity
            | exists 1%nat; split; [reflexivity|];
              unfold block_columns;
              cbn [str_in existsb String.eqb Ascii.eqb Bool.eqb orb];
              rewrite chunks_one_items; reflexivity ] ].
Qed.

Lemma length_id_values (s : endian) (self : Simulation)
  (particle_type : string) (iddata : list byte) :
  List.length (id_values s self particle_type iddata)
  = Z.to_nat (count self particle_type).
Proof. unfold id_values. rewrite length_map, length_chunks. reflexivity. Qed.

(** X8. A result of [read_block], on an object with the byte order of the
    file, has one row per particle of the type, as the header counts them:
    the block "id" comes back as a series named "id"
    with one value per particle, every other block as a table whose columns
    are x, y, z for "pos" and "vel", the twelve element names for "metals"
    and the block name otherwise, with one index label and one full row per
    particle. *)
Theorem read_block_one_row_per_particle
  (f : file) (self : Simulation) (block_type particle_type : string)
  (r : pdobj) :
  byte_order_kept f self ->
  read_block f self block_type particle_type = Ok r ->
  exists self' n,
    _read_header f self = Ok self'
    /\ Dict.get (particle_numbers self') particle_type = Some n
    /\ Z.of_nat (List.length (pd_index r)) = n
    /\ Z.of_nat (List.length (pd_rows r)) = n
    /\ (block_type = "id" -> exists values, r = Series "id" values)
    /\ (block_type <> "id" ->
        exists index rows,
          r = DataFrame (block_columns block_type) index rows
          /\ Forall (fun row => List.length row
                                = List.length (block_columns block_type))
                    rows).
Proof.
  intros Hb H.
  destruct (read_block_cases f self _ _ r Hb H)
    as (self' & data & iddata & Hh & Hs & Hin & _ & _ & _ & Hcase).
  destruct (wf_count self' particle_type (proj1 Hs) Hin) as [Hget Hn].
  exists self', (count self' particle_type).
  split; [exact Hh|].
  split.
  { unfold Dict.getitem in Hget.
    destruct (Dict.get (particle_numbers self') particle_type);
      [injection Hget as ->; reflexivity | discriminate]. }
  destruct Hcase as [[-> ->]|[Hne (width & Hw & ->)]].
  - cbn [pd_index pd_rows].
    rewrite !length_map, length_seq, length_id_values.
    split; [lia|]. split; [lia|]. split.
    + intros _. eexists. reflexivity.
    + intros Hid. exfalso. apply Hid. reflexivity.
  - cbn [pd_index pd_rows].
    rewrite length_id_values, length_chunks.
    split; [lia|]. split; [lia|]. split.
    + intros Hid. contradiction.
    + intros _. eexists. eexists. split; [reflexivity|].
      rewrite <- Hw. apply chunks_rows. rewrite length_items. lia.
Qed.

Lemma read_block_one_row_per_particle_witness :
  exists self' n,
    _read_header scenario_file scenario_header = Ok self'
    /\ Dict.get (particle_numbers self') "stars" = Some n
    /\ Z.of_nat (List.length (pd_index star_positions)) = n
    /\ Z.of_nat (List.length (pd_rows star_positions)) = n
    /\ ("pos" = "id" -> exists values, star_positions = Series "id" values)
    /\ ("pos" <> "id" ->
        exists index rows,
          star_positions = DataFrame (block_columns "pos") index rows
          /\ Forall (fun row => List.length row
                                = List.length (block_columns "pos")) rows).
Proof.
  apply (read_block_one_row_per_particle scenario_file scenario_header
           "pos" "stars" star_positions scenario_byte_order).
  vm_compute. reflexivity.
Defined.

(** X9. The rows of every table [read_block] returns, on an object with the
    byte order of the file, are labelled with the identifiers of the
    particles of the same type: the index of the table is the series
    [read_block("id", particle_type)] returns on the same file. *)
Theorem read_block_index_is_the_id_block
  (f : file) (self : Simulation) (block_type particle_type : string)
  (r : pdobj) :
  byte_order_kept f self ->
  read_block f self block_type particle_type = Ok r ->
  block_type <> "id" ->
  read_block f self "id" particle_type = Ok (Series "id" (pd_index r)).
Proof.
  intros Hb H Hne.
  destruct (read_block_cases f self _ _ r Hb H)
    as (self' & data & iddata & _ & _ & _ & _ & _ & Hid & Hcase).
  destruct Hcase as [[-> _]|[_ (width & _ & ->)]].
  - exfalso. apply Hne. reflexivity.
  - exact Hid.
Qed.

Lemma read_block_index_is_the_id_block_witness :
  read_block scenario_file scenario_header "id" "stars"
  = Ok (Series "id" (pd_index star_positions)).
Proof.
  apply (read_block_index_is_the_id_block scenario_file scenario_header
           "pos" "stars" star_positions scenario_byte_order).
  - vm_compute. reflexivity.
  - discriminate.
Defined.

Lemma concat_chunks {A} (k : nat) (l : list A) (n : nat) :
  List.length l = (n * k)%nat -> List.concat (chunks k l n) = l.
Proof.
  unfold chunks, chunk. revert l.
  induction n as [|n IH]; intros l Hl.
  - destruct l; [reflexivity | discriminate].
  - cbn [seq map List.concat]. rewrite <- seq_shift, map_map.
    change (0 * k)%nat with 0%nat. cbn [skipn].
    transitivity (firstn k l ++ skipn k l)%list; [|apply firstn_skipn].
    f_equal.
    etransitivity; [|apply (IH (skipn k l)); rewrite length_skipn; lia].
    f_equal. apply map_ext. intros i. rewrite skipn_skipn.
    f_equal. f_equal. lia.
Qed.

(** X10. The values [read_block] returns, on an object with the byte order of
    the file, are the [read_size] bytes of the file found [offset] bytes
    after the four bytes at the position the method seeks to, cut in file
    order into [read_size / itemsize] items (of 4 bytes; of 4 or 8 bytes for
    the identifiers) and decoded in that byte order. The position is the
    sum of size + 8 over the entries of [block_sizes] before the block; it
    is the position of the block in the file, as [_file_check] walks it,
    when none of these entries is empty. *)
Theorem read_block_values_are_the_bytes_read
  (f : file) (self : Simulation) (block_type particle_type : string)
  (r : pdobj) :
  byte_order_kept f self ->
  read_block f self block_type particle_type = Ok r ->
  exists self' order offset read_size remainder,
    _read_header f self = Ok self'
    /\ list_index block_keys block_type = Ok order
    /\ _compute_offset self' block_type particle_type
       = Ok (offset, read_size, remainder)
    /\ 0 <= read_block_skip self' order /\ 0 <= offset /\ 0 <= read_size
    /\ read_block_skip self' order + 4 + offset + read_size <= flen f
    /\ (let itemsize :=
          (if String.eqb block_type "id"
           then (if use_longids self' then 8 else 4) else 4)%nat in
        pd_values r
        = map (uint_of (swap self'))
            (chunks itemsize
               (sub f (read_block_skip self' order + 4 + offset) read_size)
               (Z.to_nat (read_size / Z.of_nat itemsize))))
    /\ ((forall key sz, In key (firstn order block_keys) ->
           Dict.get (block_sizes self') key = Some sz -> 0 < sz) ->
        read_block_skip self' order = present_offset self' order).
Proof.
  intros Hb H.
  destruct (read_block_cases f self _ _ r Hb H)
    as (self' & data & iddata & Hh & Hs & Hin & Hd & Hidd & _ & Hcase).
  destruct (raw_read_length f _ self' _ _ _ Hs Hd) as (Hlen & _ & _).
  destruct (wf_count self' particle_type (proj1 Hs) Hin) as [_ Hn].
  destruct (read_block_io_inv f _ self' _ _ _ Hs Hd)
    as (size & order & offset & read_size & remainder
        & _ & Ho & Hc & Hfl & _ & _ & Hdata).
  destruct (compute_offset_nonneg _ _ _ _ _ _ (proj1 Hs) Hc)
    as (Hoff & Hrs & Hrm).
  pose proof (read_block_skip_nonneg self' order Hs) as Hsk.
  assert (Hsz : read_size
                = count self' particle_type * (dim_spec self' block_type * 4)).
  { pose proof (sub_length f (read_block_skip self' order + 4 + offset)
                  read_size ltac:(lia) Hrs) as HL.
    rewrite <- Hdata, Hlen in HL. fold (flen f) in HL.
    pose proof (dim_spec_pos self' block_type). nia. }
  exists self', order, offset, read_size, remainder.
  split; [exact Hh|]. split; [exact Ho|]. split; [exact Hc|].
  split; [exact Hsk|]. split; [exact Hoff|]. split; [exact Hrs|].
  split; [lia|]. split; [|apply read_block_skip_present].
  cbv zeta.
  destruct Hcase as [[-> ->]|[Hne (width & Hw & ->)]].
  - cbn [pd_values String.eqb Ascii.eqb Bool.eqb].
    rewrite Hd in Hidd. injection Hidd as <-.
    unfold id_values, id_itemsize. rewrite Hdata. f_equal. f_equal.
    rewrite Hsz, dim_spec_id. unfold id_itemsize.
    rewrite Z.div_mul by (destruct (use_longids self'); lia). reflexivity.
  - destruct (String.eqb_spec block_type "id") as [E|_]; [contradiction|].
    cbn [pd_values].
    rewrite concat_chunks by (rewrite length_items; reflexivity).
    unfold items. rewrite Hdata. f_equal. f_equal.
    assert (Hdim : Z.of_nat width = dim_spec self' block_type).
    { rewrite Hw. pose proof (block_keys_cases _ _ Ho) as Hbk.
      clear - Hbk Hne.
      block_key_cases Hbk; try (exfalso; apply Hne; reflexivity);
        reflexivity. }
    rewrite Hsz, <- Hdim.
    change (Z.of_nat 4) with 4.
    rewrite Z.mul_assoc, Z.div_mul by lia. lia.
Qed.

Lemma read_block_values_are_the_bytes_read_witness :
  exists self' order offset read_size remainder,
    _read_header scenario_file scenario_header = Ok self'
    /\ list_index block_keys "pos" = Ok order
    /\ _compute_offset self' "pos" "stars"
       = Ok (offset, read_size, remainder)
    /\ 0 <= read_block_skip self' order /\ 0 <= offset /\ 0 <= read_size
    /\ read_block_skip self' order + 4 + offset + read_size
       <= flen scenario_file
    /\ (let itemsize :=
          (if String.eqb "pos" "id"
           then (if use_longids self' then 8 else 4) else 4)%nat in
        pd_values star_positions
        = map (uint_of (swap self'))
            (chunks itemsize
               (sub scenario_file (read_block_skip self' order + 4 + offset)
                  read_size)
               (Z.to_nat (read_size / Z.of_nat itemsize))))
    /\ ((forall key sz, In key (firstn order block_keys) ->
           Dict.get (block_sizes self') key = Some sz -> 0 < sz) ->
        read_block_skip self' order = present_offset self' order).
Proof.
  apply (read_block_values_are_the_bytes_read scenario_file scenario_header
           "pos" "stars" star_positions scenario_byte_order).
  vm_compute. reflexivity.
Defined.

(** ** Blocks and particle types [read_block] has nothing for *)

(** X11. On a readable snapshot [read_block] raises [KeyError] with the block
    type for every block type that has no entry in [block_sizes]: a name
    that is no block key, or a block whose flag is zero. *)
Theorem read_block_missing_block_raises_key_error
  (f : file) (self self' : Simulation) (block_type particle_type : string) :
  _read_header f self = Ok self' ->
  Dict.get (block_sizes self') block_type = None ->
  read_block f self block_type particle_type
  = Err (KeyError block_type).
Proof.
  intros Hh Hnone. unfold read_block, read_block_body. cbv zeta.
  rewrite Hh. cbn [rbind].
  unfold read_block_io, run, iobind, lift, Dict.getitem.
  rewrite Hnone. reflexivity.
Qed.

Lemma read_block_missing_block_raises_key_error_witness :
  read_block scenario_file scenario_header "pot" "gas"
  = Err (KeyError "pot")
  /\ read_block scenario_file scenario_header "velocity" "gas"
     = Err (KeyError "velocity").
Proof.
  split;
    apply (read_block_missing_block_raises_key_error scenario_file
             scenario_header scenario_header);
    vm_compute; reflexivity.
Defined.

Lemma u32_of_i32 (s : endian) (f : file) (p v : Z) :
  0 <= v -> i32_at s f p = v -> u32_at s f p = v.
Proof.
  unfold i32_at, u32_at, to_signed. intros Hv H.
  pose proof (uint_of_range s (sub f p 4)) as R.
  assert (L : (List.length (sub f p 4) <= 4)%nat)
    by (unfold sub; rewrite length_firstn; lia).
  assert (256 ^ Z.of_nat (List.length (sub f p 4)) <= 256 ^ 4)
    by (apply Z.pow_le_mono_r; lia).
  change (2 ^ (32 - 1)) with 2147483648 in H.
  change (2 ^ 32) with 4294967296 in H.
  change (256 ^ 4) with 4294967296 in *.
  destruct (Z.ltb_spec (uint_of s (sub f p 4)) 2147483648); lia.
Qed.

Lemma header_markers_ok (f : file) (self self' : Simulation) :
  _read_header f self = Ok self' -> markers_ok f self' "header".
Proof.
  intros Hh.
  pose proof (read_header_ready f self self' Hh) as Hr.
  destruct (read_header_inv f self self' Hr Hh)
    as (Hlen & [_ Hs] & _ & _ & s & bs & -> & _ & H0 & H260 & _).
  exists 256, 0%nat.
  split; [rewrite Hs; reflexivity|].
  split; [reflexivity|].
  change (read_block_skip (set_block_sizes (header_of f self s) bs) 0) with 0.
  change (swap (set_block_sizes (header_of f self s) bs)) with s.
  split; [lia|].
  split; apply u32_of_i32; solve [lia | assumption].
Qed.

(** X12. [read_block] is for data blocks only: on a readable snapshot, and an
    object with the byte order of the file, the block type "header" raises
    [KeyError] with the particle type, whatever the particle type of
    [particle_keys] (the header has no particles of any type), and no block
    is ever returned for a particle type that is not one of
    [particle_keys]. *)
Theorem read_block_has_no_header_block
  (f : file) (self : Simulation) (particle_type : string) :
  byte_order_kept f self ->
  (forall self', _read_header f self = Ok self' ->
     In particle_type particle_keys ->
     read_block f self "header" particle_type
     = Err (KeyError particle_type))
  /\ (forall block_type r,
        read_block f self block_type particle_type = Ok r ->
        In particle_type particle_keys /\ block_type <> "header").
Proof.
  intros Hb. split.
  - intros self' Hh Hin.
    pose proof (read_header_ready f self self' Hh) as Hr.
    destruct (read_header_inv f self self' Hr Hh) as (_ & Hs & _).
    rewrite (read_block_unfold f self self' _ _ Hh), <- (Hb self' Hh).
    rewrite (raw_read_outside_domain f self' "header" particle_type Hs
               (header_markers_ok f self self' Hh) Hin eq_refl).
    reflexivity.
  - intros block_type r H.
    destruct (read_block_inv f self _ _ r H)
      as (self' & _ & _ & _ & _ & _ & _ & _ & Hin & Hdom & _).
    split; [exact Hin|].
    intros ->. rewrite in_domain_not_header in Hdom. discriminate.
Qed.

Lemma read_block_has_no_header_block_witness :
  read_block scenario_file scenario_header "header" "gas"
  = Err (KeyError "gas")
  /\ In "stars" particle_keys /\ "pos" <> "header".
Proof.
  destruct (read_block_has_no_header_block scenario_file scenario_header "gas"
              scenario_byte_order) as [H _].
  destruct (read_block_has_no_header_block scenario_file scenario_header "stars"
              scenario_byte_order) as [_ H'].
  split.
  - apply (H scenario_header); [vm_compute; reflexivity | in_list].
  - apply (H' "pos" star_positions). vm_compute. reflexivity.
Defined.

(** ** The identifier filter *)

Lemma take_In {A} (l : list A) (ps : list nat) (xs : list A) (x : A) :
  take l ps = Ok xs -> In x xs -> In x l.
Proof.
  revert xs. induction ps as [|p ps IH]; intros xs; cbn [take].
  - intros H. injection H as <-. intros [].
  - destruct (nth_error l p) as [y|] eqn:E; [|discriminate].
    intros H. apply rbind_inv in H as (ys & Hys & H). injection H as <-.
    intros [<-|Hin].
    + exact (nth_error_In l p E).
    + exact (IH ys Hys Hin).
Qed.

Lemma loc_In (df : frame) (ids : list Z)
  (sel : list (Z * option (list Z))) (id : Z) (row : list Z) :
  loc df ids = Ok sel -> In (id, Some row) sel ->
  In id ids /\ In (id, row) df.
Proof.
  unfold loc.
  destruct (negb (List.length ids =? 0)%nat
            && forallb (fun id => negb (has_label df id)) ids);
    [discriminate|].
  intros H. injection H as <-. intros Hin.
  apply in_flat_map in Hin as (i & Hi & Hin).
  destruct (filter (fun r => fst r =? i) df) as [|r0 rs] eqn:E.
  - destruct Hin as [Hin|[]]. discriminate.
  - assert (Hin' : In (id, Some row)
                      (map (fun r : Z * list Z => (fst r, Some (snd r)))
                           (r0 :: rs))) by exact Hin.
    clear Hin. rename Hin' into Hin.
    apply in_map_iff in Hin as ([k cells] & Hk & Hin).
    cbn [fst snd] in Hk. injection Hk as -> ->.
    rewrite <- E in Hin. apply filter_In in Hin as [Hin Heq].
    cbn [fst] in Heq. apply Z.eqb_eq in Heq. subst i. tauto.
Qed.

Lemma dropna_In (is_nan : Z -> bool) (sel : list (Z * option (list Z)))
  (id : Z) (row : list Z) :
  In (id, row) (dropna is_nan sel) ->
  In (id, Some row) sel /\ existsb is_nan row = false.
Proof.
  unfold dropna. intros Hin.
  apply in_flat_map in Hin as ([k o] & Hk & Hin). cbn [fst snd] in Hin.
  destruct o as [cells|]; [|destruct Hin].
  destruct (existsb is_nan cells) eqn:E; [destruct Hin|].
  destruct Hin as [Hin|[]]. injection Hin as -> ->. tauto.
Qed.

Lemma combine_fst_snd {A B} (l : list (A * B)) :
  combine (map fst l) (map snd l) = l.
Proof.
  induction l as [|[a b] l IH]; [reflexivity|].
  cbn [map combine fst snd]. rewrite IH. reflexivity.
Qed.

Lemma concat_singletons {A} (l : list (list A)) :
  (forall r, In r l -> exists x, r = [x]) ->
  map (fun x => [x]) (List.concat l) = l.
Proof.
  induction l as [|r l IH]; intros H; [reflexivity|].
  destruct (H r (or_introl eq_refl)) as [x ->].
  cbn [List.concat app map]. rewrite IH; [reflexivity|].
  intros r' Hr'. apply H. right. exact Hr'.
Qed.

Lemma pd_frame_select (block : pdobj) (fr : frame) :
  (forall p, In p fr -> In p (pd_frame block)) ->
  pd_frame (pd_select block fr) = fr.
Proof.
  intros H.
  assert (S1 : forall name index values,
            (forall p, In p fr ->
               In p (combine index (map (fun x : Z => [x]) values))) ->
            pd_frame (IndexedSeries name (map fst fr)
                        (List.concat (map snd fr))) = fr).
  { intros name index values G. unfold pd_frame. cbn [pd_index pd_rows].
    rewrite concat_singletons; [apply combine_fst_snd|].
    intros r Hr. apply in_map_iff in Hr as (p & <- & Hp).
    specialize (G p Hp). destruct p as [k cells].
    apply in_combine_r, in_map_iff in G as (x & <- & _).
    exists x. reflexivity. }
  destruct block as [columns index rows|name values|name index values];
    cbn [pd_select].
  - unfold pd_frame. cbn [pd_index pd_rows]. apply combine_fst_snd.
  - exact (S1 name _ values H).
  - exact (S1 name _ values H).
Qed.

Lemma selected_rows (block : pdobj) (df : frame) (ids : list Z)
  (sel : list (Z * option (list Z))) :
  (forall p, In p df -> In p (pd_frame block)) ->
  loc df ids = Ok sel ->
  forall id row,
    In (id, row) (pd_frame (pd_select block (dropna (pd_is_nan block) sel))) ->
    In id ids /\ In (id, row) df
    /\ existsb (pd_is_nan block) row = false.
Proof.
  intros Hdf Hsel.
  assert (G : forall id row,
            In (id, row) (dropna (pd_is_nan block) sel) ->
            In id ids /\ In (id, row) df
            /\ existsb (pd_is_nan block) row = false).
  { intros id row Hin. apply dropna_In in Hin as [Hin Hnan].
    destruct (loc_In df ids sel id row Hsel Hin). tauto. }
  rewrite pd_frame_select; [exact G|].
  intros [id row] Hp. apply Hdf. apply (G id row Hp).
Qed.

Lemma filter_bloc_sound (block : pdobj) (ids : list Z) (sorter : list nat)
  (r : pdobj) (s : list nat) :
  filter_bloc_by_ids block ids sorter = Ok (r, s) ->
  (forall id row, In (id, row) (pd_frame r) ->
     In id ids /\ In (id, row) (pd_frame block)
     /\ existsb (pd_is_nan block) row = false)
  /\ s = (if (List.length sorter =? 0)%nat then argsort (pd_index block)
          else sorter).
Proof.
  intros H. unfold filter_bloc_by_ids in H.
  apply rbind_inv in H as (mx & _ & H).
  apply rbind_inv in H as (positions & _ & H).
  apply rbind_inv in H as (df & Hdf & H).
  apply rbind_inv in H as (sel & Hsel & H).
  injection H as <- <-. split; [|reflexivity].
  intros id row Hin.
  destruct (selected_rows block df _ sel
              (fun p => take_In _ _ _ p Hdf) Hsel id row Hin)
    as (Hid & Hrow & Hnan).
  apply filter_In in Hid as [Hid _].
  split; [exact Hid|]. split; [|exact Hnan].
  exact (take_In _ _ _ _ Hdf Hrow).
Qed.

Lemma filter_by_ids_sound (f : file) (self : Simulation)
  (block_type particle_type : string) (ids : list Z) (r : pdobj) :
  filter_by_ids f self block_type particle_type ids = Ok r ->
  exists block,
    read_block f self block_type particle_type = Ok block
    /\ forall id row, In (id, row) (pd_frame r) ->
         In id ids /\ In (id, row) (pd_frame block)
         /\ existsb (pd_is_nan block) row = false.
Proof.
  intros H. unfold filter_by_ids in H.
  apply rbind_inv in H as (block & Hb & H).
  apply rbind_inv in H as (sel & Hsel & H).
  injection H as <-.
  exists block. split; [exact Hb|].
  intros id row Hin.
  exact (selected_rows block _ _ sel (fun p Hp => Hp) Hsel id row Hin).
Qed.

(** X13. A filter never invents a row: every labelled row of a result of
    [filter_bloc_by_ids], and of [Simulation.filter_by_ids], is a labelled
    row of the block that was filtered, its label is one of the identifiers
    asked for, and it holds no NaN. *)
Theorem filter_returns_only_requested_rows (ids : list Z) :
  (forall block sorter r s,
     filter_bloc_by_ids block ids sorter = Ok (r, s) ->
     forall id row, In (id, row) (pd_frame r) ->
       In id ids /\ In (id, row) (pd_frame block)
       /\ existsb (pd_is_nan block) row = false)
  /\ (forall f self block_type particle_type r,
        filter_by_ids f self block_type particle_type ids = Ok r ->
        exists block,
          read_block f self block_type particle_type = Ok block
          /\ forall id row, In (id, row) (pd_frame r) ->
               In id ids /\ In (id, row) (pd_frame block)
               /\ existsb (pd_is_nan block) row = false).
Proof.
  split.
  - intros block sorter r s H.
    exact (proj1 (filter_bloc_sound block ids sorter r s H)).
  - intros f self block_type particle_type r H.
    exact (filter_by_ids_sound f self _ _ ids r H).
Qed.

Lemma filter_returns_only_requested_rows_witness :
  (forall id row,
     In (id, row) (pd_frame (DataFrame ["x"] [7] [[1]])) ->
     In id [7; 9]
     /\ In (id, row) (pd_frame (DataFrame ["x"] [5; 7] [[0]; [1]]))
     /\ existsb (pd_is_nan (DataFrame ["x"] [5; 7] [[0]; [1]])) row = false)
  /\ exists block,
       read_block scenario_file scenario_header "pos" "stars" = Ok block
       /\ forall id row, In (id, row) (pd_frame star_151) ->
            In id [151] /\ In (id, row) (pd_frame block)
            /\ existsb (pd_is_nan block) row = false.
Proof.
  split.
  - destruct (filter_returns_only_requested_rows [7; 9]) as [H _].
    apply (H (DataFrame ["x"] [5; 7] [[0]; [1]]) [] _ (argsort [5; 7])).
    vm_compute. reflexivity.
  - destruct (filter_returns_only_requested_rows [151]) as [_ H].
    apply (H scenario_file scenario_header "pos" "stars").
    vm_compute. reflexivity.
Defined.

(** X14. The sorter [filter_bloc_by_ids] returns when it is called without one
    is the argsort of the identifiers of the block: a permutation of the
    row positions through which the identifiers are in ascending order.
    Passing it back with the same block gives, for any list of identifiers,
    what the call without a sorter gives. *)
Theorem filter_sorter_can_be_reused
  (block : pdobj) (ids : list Z) (r : pdobj) (s : list nat) :
  filter_bloc_by_ids block ids [] = Ok (r, s) ->
  s = argsort (pd_index block)
  /\ Permutation s (seq 0 (List.length (pd_index block)))
  /\ StronglySorted Z.le (view (pd_index block) s)
  /\ forall ids', filter_bloc_by_ids block ids' s
                  = filter_bloc_by_ids block ids' [].
Proof.
  intros H. pose proof H as H'. unfold filter_bloc_by_ids in H'.
  apply rbind_inv in H' as (mx & Hmx & H').
  apply rbind_inv in H' as (positions & _ & H').
  apply rbind_inv in H' as (df & _ & H').
  apply rbind_inv in H' as (sel & _ & H').
  cbn [List.length Nat.eqb] in H'. injection H' as _ <-.
  split; [reflexivity|].
  split; [apply argsort_perm|].
  split; [apply view_sorted|].
  intros ids'. unfold filter_bloc_by_ids.
  cbn [List.length Nat.eqb].
  destruct (pd_index block) as [|x ind] eqn:E; [discriminate Hmx|].
  assert (L : List.length (argsort (x :: ind)) = S (List.length ind)).
  { rewrite (Permutation_length (argsort_perm (x :: ind))), length_seq.
    reflexivity. }
  rewrite L. cbn [Nat.eqb]. reflexivity.
Qed.

Lemma filter_sorter_can_be_reused_witness :
  [1%nat; 0%nat] = argsort (pd_index (DataFrame ["x"] [7; 5] [[1]; [0]]))
  /\ Permutation [1%nat; 0%nat]
       (seq 0 (List.length (pd_index (DataFrame ["x"] [7; 5] [[1]; [0]]))))
  /\ StronglySorted Z.le
       (view (pd_index (DataFrame ["x"] [7; 5] [[1]; [0]])) [1%nat; 0%nat])
  /\ forall ids',
       filter_bloc_by_ids (DataFrame ["x"] [7; 5] [[1]; [0]]) ids'
         [1%nat; 0%nat]
       = filter_bloc_by_ids (DataFrame ["x"] [7; 5] [[1]; [0]]) ids' [].
Proof.
  apply (filter_sorter_can_be_reused (DataFrame ["x"] [7; 5] [[1]; [0]])
           [5] (DataFrame ["x"] [5] [[0]])).
  vm_compute. reflexivity.
Defined.

(** ** The Subfind catalogue *)

(** X15. The Subfind loader sets its task count to 1 whatever the table
    declares, and so only ever opens fragment 0 of the subhalo table and of
    the identifier files: the object it builds, or the exception it raises,
    is the same for two catalogues that agree on these two files. *)
Theorem subfind_reads_fragment_zero_only
  (tab idf tab' idf' : nat -> option file) :
  tab 0%nat = tab' 0%nat -> idf 0%nat = idf' 0%nat ->
  Subfind.__init__ tab idf = Subfind.__init__ tab' idf'
  /\ forall obj, Subfind.__init__ tab idf = Ok obj -> Subfind.ntask obj = 1.
Proof.
  intros Ht Hi.
  assert (Hh : Subfind._read_header tab = Subfind._read_header tab').
  { unfold Subfind._read_header.
    change (seq 0 (Z.to_nat 1)) with [0%nat]. cbn [foldM].
    unfold open_fragment. rewrite Ht. reflexivity. }
  assert (Hc : forall g s, Subfind._load_catalogue tab 1 g s
                           = Subfind._load_catalogue tab' 1 g s).
  { intros g s. unfold Subfind._load_catalogue.
    change (seq 0 (Z.to_nat 1)) with [0%nat]. cbn [foldM].
    unfold open_fragment. rewrite Ht. reflexivity. }
  assert (Hl : forall n s a, Subfind._load_ids idf 1 n s a
                             = Subfind._load_ids idf' 1 n s a).
  { intros n s a. unfold Subfind._load_ids.
    change (seq 0 (Z.to_nat 1)) with [0%nat]. cbn [foldM].
    unfold open_fragment. rewrite Hi. reflexivity. }
  split.
  - unfold Subfind.__init__. rewrite Hh.
    destruct (Subfind._read_header tab')
      as [[[[[tot ntask] g] n] s]|e] eqn:E; [|reflexivity].
    apply subfind_header_ntask in E. subst ntask. cbn [rbind].
    rewrite Hc.
    destruct (Subfind._load_catalogue tab' 1 g s) as [attrs|e];
      [|reflexivity].
    cbn [rbind]. rewrite Hl. reflexivity.
  - intros obj H. unfold Subfind.__init__ in H.
    apply rbind_inv in H as ([[[[tot ntask] g] n] s] & E & H).
    apply subfind_header_ntask in E. subst ntask.
    apply rbind_inv in H as (attrs & _ & H).
    apply rbind_inv in H as (ids & _ & H).
    injection H as <-. reflexivity.
Qed.

Lemma subfind_reads_fragment_zero_only_witness :
  Subfind.__init__ (fragments [two_subhalo_tab [2; 2] [0; 2]])
    (fragments [four_ids])
  = Subfind.__init__
      (fragments [two_subhalo_tab [2; 2] [0; 2]; empty_group_tab])
      (fragments [four_ids; one_group_ids])
  /\ forall obj,
       Subfind.__init__ (fragments [two_subhalo_tab [2; 2] [0; 2]])
         (fragments [four_ids]) = Ok obj ->
       Subfind.ntask obj = 1.
Proof.
  apply subfind_reads_fragment_zero_only; reflexivity.
Defined.

Lemma fromfile_dtype_inv (f : file) (dt : dtype) {B} (k : list Z -> IO B)
  (p : Z) (x : B * Z) :
  0 <= p ->
  iobind (fromfile_dtype f dt) k p = Ok x ->
  0 <= dt_rows dt /\ 0 <= dt_rows dt * dt_cols dt
  /\ exists data,
       Z.of_nat (List.length data) = dt_rows dt * dt_cols dt
       /\ k data (p + dt_rows dt * dt_cols dt * Z.of_nat (dt_width dt)) = Ok x.
Proof.
  intros Hp. unfold fromfile_dtype, fromfile_record, iobind, raise, f_read.
  destruct (Z.ltb_spec (dt_rows dt) 0) as [|Hrows]; [discriminate|].
  destruct (Z.ltb_spec (dt_rows dt * dt_cols dt) 0) as [|Hcells];
    [discriminate|].
  destruct (Z.eqb_spec (dt_rows dt * dt_cols dt) 0) as [E0|_].
  { unfold ioret. rewrite E0. intros H.
    split; [lia|]. split; [lia|].
    exists []. split; [reflexivity|].
    replace (p + 0 * Z.of_nat (dt_width dt)) with p by lia. exact H. }
  destruct (Z.eqb_spec
              (Z.of_nat (List.length
                 (sub f p (dt_rows dt * dt_cols dt * Z.of_nat (dt_width dt)))))
              (dt_rows dt * dt_cols dt * Z.of_nat (dt_width dt))) as [E|];
    [|discriminate].
  unfold ioret. rewrite E. intros H.
  split; [lia|]. split; [lia|].
  eexists. split; [|exact H].
  rewrite length_map, length_chunks. lia.
Qed.

Lemma subfind_read_arrays_inv (f : file) (types : Dict.t dtype)
  (keys : list string) :
  forall value p value' p',
    0 <= p -> NoDup keys ->
    Subfind.read_arrays f types 0 keys value p = Ok (value', p') ->
    (forall key, In key keys ->
       exists dt d,
         Dict.get types key = Some dt /\ Dict.get value' key = Some d
         /\ 0 <= dt_rows dt /\ 0 <= dt_rows dt * dt_cols dt
         /\ Z.of_nat (List.length d) = dt_rows dt * dt_cols dt)
    /\ (forall key, ~ In key keys ->
          Dict.get value' key = Dict.get value key).
Proof.
  induction keys as [|key keys IH]; intros value p value' p' Hp Hnd H.
  - cbn [Subfind.read_arrays] in H. injection H as <- _.
    split; [intros key []|reflexivity].
  - cbn [Subfind.read_arrays] in H.
    unfold iobind at 1 in H. unfold lift at 1 in H.
    unfold Dict.getitem in H.
    destruct (Dict.get types key) as [dt|] eqn:Edt; [|discriminate].
    apply fromfile_dtype_inv in H as (Hrows & Hcells & data & Hlen & H);
      [|exact Hp].
    cbn [Nat.eqb] in H. rewrite bind_ioret in H.
    inversion Hnd as [|? ? Hnotin Hnd']; subst.
    apply IH in H as [Hin Hout]; [|nia|exact Hnd'].
    split.
    + intros key' [<-|Hk].
      * exists dt, data. rewrite (Hout key Hnotin), get_set, String.eqb_refl.
        repeat split; assumption.
      * exact (Hin key' Hk).
    + intros key' Hk. rewrite Hout by (intros G; apply Hk; right; exact G).
      rewrite get_set.
      destruct (String.eqb_spec key' key) as [->|]; [|reflexivity].
      exfalso. apply Hk. left. reflexivity.
Qed.

Lemma setattr_loop_get {V} (value : Dict.t V) (keys : list string) :
  forall attrs0 attrs,
    foldM (fun attrs key =>
             rbind (Dict.getitem value key)
                   (fun data => Ok (Dict.set attrs key data)))
          keys attrs0 = Ok attrs ->
    (forall key, In key keys -> Dict.get attrs key = Dict.get value key)
    /\ (forall key, ~ In key keys -> Dict.get attrs key = Dict.get attrs0 key).
Proof.
  induction keys as [|k keys IH]; intros attrs0 attrs H.
  - injection H as <-. split; [intros key []|reflexivity].
  - cbn [foldM] in H. apply rbind_inv in H as (attrs1 & H1 & H).
    apply rbind_inv in H1 as (data & Hd & H1). injection H1 as <-.
    apply IH in H as [Hin Hout].
    unfold Dict.getitem in Hd.
    destruct (Dict.get value k) as [d|] eqn:Ek; [|discriminate].
    injection Hd as ->.
    assert (Hk : Dict.get attrs k = Some data).
    { destruct (in_dec string_dec k keys) as [Hi|Hn].
      - rewrite (Hin k Hi). exact Ek.
      - rewrite (Hout k Hn), get_set, String.eqb_refl. reflexivity. }
    split.
    + intros key [<-|Hi]; [rewrite Hk, Ek; reflexivity | exact (Hin key Hi)].
    + intros key Hn.
      rewrite Hout by (intros G; apply Hn; right; exact G).
      rewrite get_set.
      destruct (String.eqb_spec key k) as [->|]; [|reflexivity].
      exfalso. apply Hn. left. reflexivity.
Qed.

Lemma NoDup_subfind_keys : NoDup Subfind.array_keys.
Proof.
  unfold Subfind.array_keys.
  repeat (constructor;
          [cbn; intros H;
           repeat (destruct H as [H|H]; [discriminate H|]); exact H|]).
  constructor.
Qed.

(** What a successful [Subfind.__init__] has read. *)
Lemma subfind_init_inv (tab idf : nat -> option file) (obj : Subfind.t) :
  Subfind.__init__ tab idf = Ok obj ->
  exists f g s,
    tab 0%nat = Some f /\ 20 <= flen f
    /\ g = i32_at Little f 0 /\ s = i32_at Little f 16
    /\ Subfind.ngroups obj = [g] /\ Subfind.nsubhalos obj = [s]
    /\ List.length (Subfind.nids obj) = 1%nat
    /\ forall key, In key Subfind.array_keys ->
         exists dt d,
           Dict.get (Subfind.data_types g s) key = Some dt
           /\ Dict.get (Subfind.arrays obj) key = Some d
           /\ 0 <= dt_rows dt /\ 0 <= dt_rows dt * dt_cols dt
           /\ Z.of_nat (List.length d) = dt_rows dt * dt_cols dt.
Proof.
  unfold Subfind.__init__. intros H.
  apply rbind_inv in H as ([[[[tot ntask] ngroups] nids] nsub] & Hh & H).
  pose proof (subfind_header_ntask _ _ _ _ _ _ Hh). subst ntask.
  apply rbind_inv in H as (attrs & Hc & H).
  apply rbind_inv in H as (ids & _ & H).
  injection H as <-.
  cbn [Subfind.arrays Subfind.nsubhalos Subfind.ngroups Subfind.nids].
  unfold Subfind._read_header in Hh.
  apply rbind_inv in Hh as (f & Hf & Hh).
  apply rbind_inv in Hh as ([tot' nt] & _ & Hh).
  apply rbind_inv in Hh as ([[g0 n0] s0] & Hloop & Hh).
  injection Hh as _ <- <- <-.
  change (seq 0 (Z.to_nat 1)) with [0%nat] in Hloop. cbn [foldM] in Hloop.
  apply rbind_inv in Hloop as ([[g1 n1] s1] & Hloop & Hloop').
  injection Hloop' as <- <- <-.
  apply rbind_inv in Hloop as (f' & Hf' & Hloop).
  unfold run in Hloop. rewrite bind_seek_set in Hloop by lia.
  rewrite bind_fromfile_i4 in Hloop by lia.
  destruct (0 + 4 <=? flen f'); [|discriminate].
  rewrite bind_fromfile_i4 in Hloop by lia.
  destruct (0 + 4 + 4 <=? flen f'); [|discriminate].
  rewrite bind_seek_cur in Hloop by lia.
  rewrite bind_fromfile_i4 in Hloop by lia.
  destruct (Z.leb_spec (0 + 4 + 4 + 8 + 4) (flen f')) as [Hlen|];
    [|discriminate].
  unfold ioret in Hloop. cbn [app] in Hloop. injection Hloop as <- <- <-.
  exists f', (i32_at Little f' 0), (i32_at Little f' 16).
  split.
  { unfold open_fragment in Hf'. destruct (tab 0%nat); [|discriminate].
    injection Hf' as ->. reflexivity. }
  split; [lia|].
  split; [reflexivity|]. split; [reflexivity|].
  split; [reflexivity|]. split; [reflexivity|]. split; [reflexivity|].
  unfold Subfind._load_catalogue in Hc.
  apply rbind_inv in Hc as (value & Hv & Hc).
  change (seq 0 (Z.to_nat 1)) with [0%nat] in Hv. cbn [foldM getidx nth_error]
    in Hv.
  apply rbind_inv in Hv as (value' & Hv & Hv'). injection Hv' as <-.
  cbn [rbind] in Hv.
  apply rbind_inv in Hv as (f2 & _ & Hv).
  unfold run in Hv. rewrite bind_seek_set in Hv by lia.
  match type of Hv with
  | match ?m with _ => _ end = _ =>
      destruct m as [[value0 p']|] eqn:Ev; [|discriminate]
  end.
  injection Hv as ->.
  destruct (subfind_read_arrays_inv f2 _ _ _ (5 * 4) _ _ ltac:(lia)
              NoDup_subfind_keys Ev) as [Hin _].
  destruct (setattr_loop_get value' Subfind.array_keys [] attrs Hc)
    as [Hattrs _].
  intros key Hk. destruct (Hin key Hk) as (dt & d & Hdt & Hd & Hrest).
  exists dt, d. rewrite (Hattrs key Hk). tauto.
Qed.

(** X16. A loaded Subfind catalogue is consistent with the two counts of its
    first fragment: neither is negative, the per-subhalo arrays [sublen]
    and [suboffset] have one item per subhalo and [subpos] three, the
    per-halo array [nsubperhalo] has one item per halo, and [ids] holds one
    run of identifiers per subhalo. *)
Theorem subfind_catalogue_shape
  (tab idf : nat -> option file) (obj : Subfind.t) :
  Subfind.__init__ tab idf = Ok obj ->
  exists g s sublen suboffset subpos nsubperhalo,
    Subfind.ngroups obj = [g] /\ Subfind.nsubhalos obj = [s]
    /\ 0 <= g /\ 0 <= s
    /\ Dict.get (Subfind.arrays obj) "sublen" = Some sublen
    /\ Dict.get (Subfind.arrays obj) "suboffset" = Some suboffset
    /\ Dict.get (Subfind.arrays obj) "subpos" = Some subpos
    /\ Dict.get (Subfind.arrays obj) "nsubperhalo" = Some nsubperhalo
    /\ Z.of_nat (List.length sublen) = s
    /\ Z.of_nat (List.length suboffset) = s
    /\ Z.of_nat (List.length subpos) = 3 * s
    /\ Z.of_nat (List.length nsubperhalo) = g
    /\ Z.of_nat (List.length (Subfind.ids obj)) = s.
Proof.
  intros E.
  destruct (subfind_init_inv tab idf obj E)
    as (f' & g & s & _ & _ & _ & _ & Hg & Hs & _ & Hkeys).
  destruct (Hkeys "nsubperhalo" ltac:(in_list))
    as (dt1 & d1 & Hdt1 & Hd1 & Hpos1 & _ & Hl1).
  destruct (Hkeys "sublen" ltac:(in_list))
    as (dt2 & d2 & Hdt2 & Hd2 & Hpos2 & _ & Hl2).
  destruct (Hkeys "suboffset" ltac:(in_list))
    as (dt3 & d3 & Hdt3 & Hd3 & _ & _ & Hl3).
  destruct (Hkeys "subpos" ltac:(in_list))
    as (dt4 & d4 & Hdt4 & Hd4 & _ & _ & Hl4).
  cbn in Hdt1, Hdt2, Hdt3, Hdt4.
  injection Hdt1 as <-. injection Hdt2 as <-.
  injection Hdt3 as <-. injection Hdt4 as <-.
  cbn [dt_rows dt_cols dt_i4 dt_f4] in *.
  destruct (subfind_init_runs tab idf obj E)
    as (fi & nids & suboffset & sublen & n & _ & _ & _ & _ & Hn & Hruns).
  rewrite Hs in Hn. cbn [nth_error] in Hn. injection Hn as <-.
  unfold Subfind.slice_runs in Hruns.
  apply slice_runs_loop in Hruns as [-> _].
  exists g, s, d2, d3, d4, d1.
  cbn [app]. rewrite length_map, length_seq.
  repeat (split; [first [assumption | lia]|]). lia.
Qed.

Lemma subfind_catalogue_shape_witness :
  (exists obj,
     Subfind.__init__ (fragments [no_subhalo_tab]) (fragments [no_ids])
     = Ok obj
     /\ Subfind.ngroups obj = [0] /\ Subfind.nsubhalos obj = [0]
     /\ Dict.get (Subfind.arrays obj) "subpos" = Some []
     /\ Subfind.ids obj = [])
  /\ exists g s sublen suboffset subpos nsubperhalo,
    Subfind.ngroups two_subhalo_catalogue = [g]
    /\ Subfind.nsubhalos two_subhalo_catalogue = [s]
    /\ 0 <= g /\ 0 <= s
    /\ Dict.get (Subfind.arrays two_subhalo_catalogue) "sublen" = Some sublen
    /\ Dict.get (Subfind.arrays two_subhalo_catalogue) "suboffset"
       = Some suboffset
    /\ Dict.get (Subfind.arrays two_subhalo_catalogue) "subpos" = Some subpos
    /\ Dict.get (Subfind.arrays two_subhalo_catalogue) "nsubperhalo"
       = Some nsubperhalo
    /\ Z.of_nat (List.length sublen) = s
    /\ Z.of_nat (List.length suboffset) = s
    /\ Z.of_nat (List.length subpos) = 3 * s
    /\ Z.of_nat (List.length nsubperhalo) = g
    /\ Z.of_nat (List.length (Subfind.ids two_subhalo_catalogue)) = s.
Proof.
  split.
  - destruct (Subfind.__init__ (fragments [no_subhalo_tab])
                (fragments [no_ids])) as [obj|e] eqn:E;
      [|vm_compute in E; discriminate E].
    exists obj. split; [reflexivity|].
    destruct (subfind_catalogue_shape _ _ obj E)
      as (g & s & sublen & suboffset & subpos & nsubperhalo
          & Hg & Hs & _ & _ & _ & _ & Hpos & _ & _ & _ & Lpos & _ & Lids).
    assert (Eg : Subfind.ngroups obj = [0] /\ Subfind.nsubhalos obj = [0]).
    { vm_compute in E. injection E as <-. split; reflexivity. }
    destruct Eg as [Eg Es]. rewrite Es in Hs. injection Hs as <-.
    split; [exact Eg|]. split; [exact Es|].
    split.
    + rewrite Hpos. destruct subpos; [reflexivity | cbn in Lpos; lia].
    + destruct (Subfind.ids obj); [reflexivity | cbn in Lids; lia].
  - apply (subfind_catalogue_shape (fragments [two_subhalo_tab [2; 2] [0; 2]])
             (fragments [four_ids])).
    vm_compute. reflexivity.
Defined.

(** ** The FOF catalogue *)

Lemma fof_data_type (ng : Z) (key : string) (dt : dtype) :
  Dict.get (Fof.data_types ng) key = Some dt ->
  dt_rows dt = ng /\ dt_cols dt = group_cells key.
Proof.
  unfold group_cells, Fof.data_types. cbn [Dict.get].
  repeat (destruct (String.eqb key _);
          [intros H; injection H as <-; split; reflexivity|]).
  discriminate.
Qed.

Lemma fof_read_arrays_inv (f : file) (ng tot : Z) (keys : list string) :
  forall value p value' p',
    0 <= p -> NoDup keys ->
    Fof.read_arrays f ng tot keys value p = Ok (value', p') ->
    (tot = 0
     \/ forall key, In key keys ->
          exists old, Dict.get value key = Some old
                      /\ Z.of_nat (List.length old) = tot * group_cells key) ->
    (forall key, In key keys ->
       exists d, Dict.get value' key = Some d
                 /\ Z.of_nat (List.length d) = (tot + ng) * group_cells key)
    /\ (forall key, ~ In key keys ->
          Dict.get value' key = Dict.get value key).
Proof.
  induction keys as [|key keys IH]; intros value p value' p' Hp Hnd H Hold.
  - cbn [Fof.read_arrays] in H. injection H as <- _.
    split; [intros key []|reflexivity].
  - cbn [Fof.read_arrays] in H.
    unfold iobind at 1 in H. unfold lift at 1 in H.
    unfold Dict.getitem in H.
    destruct (Dict.get (Fof.data_types ng) key) as [dt|] eqn:Edt;
      [|discriminate].
    destruct (fof_data_type ng key dt Edt) as [Hrows Hcols].
    apply fromfile_dtype_inv in H as (_ & _ & data & Hlen & H); [|exact Hp].
    rewrite Hrows, Hcols in Hlen.
    inversion Hnd as [|? ? Hnotin Hnd']; subst.
    assert (Hstep : exists d,
              Z.of_nat (List.length d) = (tot + dt_rows dt) * group_cells key
              /\ Fof.read_arrays f (dt_rows dt) tot keys (Dict.set value key d)
                   (p + dt_rows dt * dt_cols dt * Z.of_nat (dt_width dt))
                 = Ok (value', p')).
    { destruct (Z.eqb_spec tot 0) as [->|Hne].
      - rewrite bind_ioret in H. exists data. split; [lia | exact H].
      - destruct Hold as [?|Hold]; [contradiction|].
        destruct (Hold key (or_introl eq_refl)) as (old & Eold & Lold).
        unfold iobind at 1 in H. unfold iobind at 1 in H.
        unfold lift, Dict.getitem in H. rewrite Eold in H.
        unfold ioret at 1 in H.
        exists (old ++ data)%list. split; [|exact H].
        rewrite length_app. lia. }
    destruct Hstep as (d & Ld & Hrest).
    apply IH in Hrest as [Hin Hout]; [|nia|exact Hnd'|].
    + split.
      * intros key' [<-|Hk].
        -- exists d. rewrite (Hout key Hnotin), get_set, String.eqb_refl.
           split; [reflexivity | exact Ld].
        -- exact (Hin key' Hk).
      * intros key' Hk.
        rewrite Hout by (intros G; apply Hk; right; exact G).
        rewrite get_set.
        destruct (String.eqb_spec key' key) as [->|]; [|reflexivity].
        exfalso. apply Hk. left. reflexivity.
    + destruct Hold as [Hz|Hold]; [left; exact Hz|right].
      intros key' Hk. destruct (Hold key' (or_intror Hk)) as (old & Eo & Lo).
      exists old. rewrite get_set.
      destruct (String.eqb_spec key' key) as [->|]; [contradiction|].
      split; assumption.
Qed.

Lemma NoDup_fof_keys : NoDup Fof.array_keys.
Proof.
  unfold Fof.array_keys.
  repeat (constructor;
          [cbn; intros H;
           repeat (destruct H as [H|H]; [discriminate H|]); exact H|]).
  constructor.
Qed.

Lemma group_total_app (l : list Z) (x : Z) :
  group_total (l ++ [x]) = group_total l + Z.max 0 x.
Proof.
  unfold group_total. rewrite map_app, sumZ_app. cbn [map sumZ fold_right].
  lia.
Qed.

Lemma group_total_nonneg (l : list Z) : 0 <= group_total l.
Proof.
  induction l as [|x l IH]; [cbn; lia|].
  change (group_total (x :: l)) with (Z.max 0 x + group_total l). lia.
Qed.

Lemma fof_load_fragment_inv (tab : nat -> option file) (i : nat)
  (st st' : Fof.load_state) :
  fof_loaded st -> Fof.load_fragment tab st i = Ok st' ->
  fof_loaded st'
  /\ List.length (fst (fst (fst st')))
     = S (List.length (fst (fst (fst st)))).
Proof.
  destruct st as [[[gl nl] tot] value].
  intros (Htot & Hlen & Hval) H. unfold Fof.load_fragment in H.
  apply rbind_inv in H as (f & _ & H).
  unfold run in H. rewrite bind_fromfile_i4 in H by lia.
  destruct (0 + 4 <=? flen f); [|discriminate].
  rewrite bind_fromfile_i4 in H by lia.
  destruct (0 + 4 + 4 <=? flen f); [|discriminate].
  rewrite bind_seek_cur in H by lia.
  destruct (Z.ltb_spec 0 (i32_at Little f 0)) as [Hpos|Hneg].
  - unfold iobind at 1 in H.
    destruct (Fof.read_arrays f (i32_at Little f 0) tot Fof.array_keys value
                (0 + 4 + 4 + 2 * 4)) as [[value' p']|] eqn:Ev;
      [|discriminate].
    unfold ioret in H. injection H as <-.
    apply fof_read_arrays_inv in Ev as [Hin _];
      [|lia|exact NoDup_fof_keys|].
    + cbn [fst]. split; [|rewrite length_app; cbn; lia].
      split; [rewrite group_total_app; lia|].
      split; [rewrite !length_app; cbn; lia|].
      right. pose proof (group_total_nonneg gl). split; [lia|exact Hin].
    + destruct Hval as [[Hz _]|[_ Hold]]; [left; exact Hz|right; exact Hold].
  - unfold ioret in H. injection H as <-.
    cbn [fst]. split; [|rewrite length_app; cbn; lia].
    split; [rewrite group_total_app; lia|].
    split; [rewrite !length_app; cbn; lia|].
    exact Hval.
Qed.

Lemma fof_load_loop_inv (tab : nat -> option file) (l : list nat) :
  forall st st',
    fof_loaded st -> foldM (Fof.load_fragment tab) l st = Ok st' ->
    fof_loaded st'
    /\ List.length (fst (fst (fst st')))
       = (List.length (fst (fst (fst st))) + List.length l)%nat.
Proof.
  induction l as [|i l IH]; intros st st' Hst H; cbn [foldM] in H.
  - injection H as <-. split; [exact Hst | cbn; lia].
  - apply rbind_inv in H as (st1 & H1 & H).
    destruct (fof_load_fragment_inv tab i st st1 Hst H1) as [Hst1 L1].
    destruct (IH st1 st' Hst1 H) as [Hst' L]. split; [exact Hst'|].
    rewrite L, L1. cbn [List.length]. lia.
Qed.

(** What a successful [Fof._load_catalogue] has read. *)
Lemma fof_load_catalogue_inv (tab : nat -> option file) (ntask : Z)
  (ngroups_l nids_l : list Z) (attrs : Dict.t (list Z)) :
  Fof._load_catalogue tab ntask = Ok (ngroups_l, nids_l, attrs) ->
  List.length ngroups_l = Z.to_nat ntask
  /\ List.length nids_l = Z.to_nat ntask
  /\ 0 < group_total ngroups_l
  /\ forall key, In key Fof.array_keys ->
       exists d, Dict.get attrs key = Some d
                 /\ Z.of_nat (List.length d)
                    = group_total ngroups_l * group_cells key.
Proof.
  unfold Fof._load_catalogue. intros H.
  apply rbind_inv in H as ([[[gl nl] tot] value] & Hloop & H).
  apply rbind_inv in H as (attrs' & Hset & H). injection H as <- <- <-.
  destruct (fof_load_loop_inv tab _ ([], [], 0, []) _
              ltac:(cbn; split; [reflexivity|]; split; [reflexivity|];
                    left; split; reflexivity) Hloop)
    as [(Htot & Hlen & Hval) L].
  cbn [fst List.length] in L. rewrite length_seq in L. cbn in L.
  destruct (setattr_loop_get value Fof.array_keys [] attrs' Hset)
    as [Hattrs _].
  destruct Hval as [[_ ->]|[Hpos Hval]].
  - cbn in Hset. discriminate.
  - split; [exact L|]. split; [lia|]. split; [lia|].
    intros key Hk. destruct (Hval key Hk) as (d & Hd & Ld).
    exists d. rewrite (Hattrs key Hk). split; [exact Hd | lia].
Qed.

Lemma keys_set_new {V} (d : Dict.t V) (k : string) (v : V) :
  Dict.get d k = None -> Dict.keys (Dict.set d k v) = (Dict.keys d ++ [k])%list.
Proof.
  unfold Dict.keys. induction d as [|[k0 v0] d IH]; cbn [Dict.get Dict.set].
  - reflexivity.
  - destruct (String.eqb k k0); [discriminate|].
    intros H. cbn [map fst app]. rewrite (IH H). reflexivity.
Qed.

Lemma fromfile_count_length (f : file) (width : nat) (dec : Z -> Z)
  (count pos : Z) (run : list Z) (pos' : Z) :
  fromfile_count f width dec count pos = Ok (run, pos') ->
  0 <= count -> Z.of_nat (List.length run) <= count.
Proof.
  unfold fromfile_count. intros H Hc. injection H as <- _.
  rewrite length_map, length_chunks.
  destruct (Z.ltb_spec count 0); lia.
Qed.

Lemma read_group_ids_inv (f : file) (glt : list Z) (group : nat)
  (keys : list string) :
  forall p ids pos ids' pos',
    NoDup keys -> (forall k, In k keys -> Dict.get ids k = None) ->
    Fof.read_group_ids f glt group p keys ids pos = Ok (ids', pos') ->
    Dict.keys ids' = (Dict.keys ids ++ keys)%list
    /\ (forall j key, nth_error keys j = Some key ->
          exists count run,
            nth_error glt (group * List.length particle_keys + (p + j))
            = Some count
            /\ Dict.get ids' key = Some run
            /\ (0 <= count -> Z.of_nat (List.length run) <= count))
    /\ (forall key, ~ In key keys -> Dict.get ids' key = Dict.get ids key).
Proof.
  induction keys as [|key keys IH]; intros p ids pos ids' pos' Hnd Hnew H.
  - cbn [Fof.read_group_ids] in H. injection H as <- _.
    split; [rewrite app_nil_r; reflexivity|].
    split; [intros [|j] key E; discriminate E | reflexivity].
  - cbn [Fof.read_group_ids] in H.
    destruct (nth_error glt (group * List.length particle_keys + p))
      as [count|] eqn:Ec; [|discriminate].
    unfold iobind at 1 in H.
    destruct (fromfile_count f 4 (fun z => z) count pos)
      as [[run pos1]|] eqn:Er; [|discriminate].
    inversion Hnd as [|? ? Hnotin Hnd']; subst.
    apply IH in H as (Hkeys & Hruns & Hout); [|exact Hnd'|].
    + split.
      { rewrite Hkeys, keys_set_new by (apply Hnew; left; reflexivity).
        rewrite <- app_assoc. reflexivity. }
      split.
      * intros [|j] key' E; cbn [nth_error] in E.
        -- injection E as <-. exists count, run.
           rewrite Nat.add_0_r. split; [exact Ec|].
           rewrite (Hout key Hnotin), get_set, String.eqb_refl.
           split; [reflexivity|].
           exact (fromfile_count_length _ _ _ _ _ _ _ Er).
        -- destruct (Hruns j key' E) as (c & r & Hc & Hr & Hl).
           exists c, r. replace (p + S j)%nat with (S p + j)%nat by lia.
           repeat split; assumption.
      * intros key' Hk.
        rewrite Hout by (intros G; apply Hk; right; exact G).
        rewrite get_set.
        destruct (String.eqb_spec key' key) as [->|]; [|reflexivity].
        exfalso. apply Hk. left. reflexivity.
    + intros k Hk. rewrite get_set.
      destruct (String.eqb_spec k key) as [->|]; [contradiction|].
      apply Hnew. right. exact Hk.
Qed.

Lemma NoDup_particle_keys : NoDup particle_keys.
Proof.
  unfold particle_keys.
  repeat (constructor;
          [cbn; intros H;
           repeat (destruct H as [H|H]; [discriminate H|]); exact H|]).
  constructor.
Qed.

Lemma read_groups_inv (f : file) (glt : list Z) (n : nat) :
  forall group acc pos acc' group' pos',
    List.length acc = group ->
    (forall g d, nth_error acc g = Some d -> group_ids_ok glt g d) ->
    Fof.read_groups f glt n group acc pos = Ok ((acc', group'), pos') ->
    List.length acc' = group' /\ group' = (group + n)%nat
    /\ (forall g d, nth_error acc' g = Some d -> group_ids_ok glt g d).
Proof.
  induction n as [|n IH]; intros group acc pos acc' group' pos' Hlen Hacc H;
    cbn [Fof.read_groups] in H.
  - injection H as <- <- _. split; [exact Hlen|]. split; [lia | exact Hacc].
  - unfold iobind at 1 in H.
    destruct (Fof.read_group_ids f glt group 0 particle_keys [] pos)
      as [[ids pos1]|] eqn:Ei; [|discriminate].
    apply read_group_ids_inv in Ei as (Hkeys & Hruns & _);
      [|exact NoDup_particle_keys | reflexivity].
    apply IH in H as (L & G & Hacc').
    + split; [exact L|]. split; [lia | exact Hacc'].
    + rewrite length_app. cbn. lia.
    + intros g d E.
      destruct (Nat.lt_ge_cases g (List.length acc)) as [Hlt|Hge].
      * rewrite nth_error_app1 in E by exact Hlt. exact (Hacc g d E).
      * rewrite nth_error_app2 in E by exact Hge.
        destruct (g - List.length acc)%nat as [|k] eqn:Ek;
          [|destruct k; discriminate E].
        cbn [nth_error] in E. injection E as <-.
        assert (g = group) by lia. subst g.
        split; [exact Hkeys|]. intros p key Hp.
        exact (Hruns p key Hp).
Qed.

Lemma fof_load_ids_loop (idf : nat -> option file) (ngroups_l : list Z)
  (attrs : Dict.t (list Z)) (glt : list Z) (l : list nat) :
  Dict.get attrs "grouplentype" = Some glt ->
  forall acc group acc' group',
    List.length acc = group ->
    (forall g d, nth_error acc g = Some d -> group_ids_ok glt g d) ->
    foldM (fun '(acc, group) i =>
             f <- open_fragment idf i ;;
             n <- match nth_error ngroups_l i with
                  | Some n => Ok n
                  | None => Err IndexError
                  end ;;
             grouplentype <- Dict.getitem attrs "grouplentype" ;;
             run (f_seek_set (4 * 4) ;;;
                  Fof.read_groups f grouplentype (Z.to_nat n) group acc)%io)%res
          l (acc, group) = Ok (acc', group') ->
    List.length acc' = group'
    /\ Z.of_nat group'
       = Z.of_nat group + sumZ (map (fun i => Z.max 0 (nth i ngroups_l 0)) l)
    /\ (forall g d, nth_error acc' g = Some d -> group_ids_ok glt g d).
Proof.
  intros Hglt. induction l as [|i l IH];
    intros acc group acc' group' Hlen Hacc H; cbn [foldM] in H.
  - injection H as <- <-. split; [exact Hlen|].
    split; [cbn; lia | exact Hacc].
  - apply rbind_inv in H as ([acc1 group1] & H1 & H).
    apply rbind_inv in H1 as (f & _ & H1).
    apply rbind_inv in H1 as (n & Hn & H1).
    apply rbind_inv in H1 as (glt' & Hg & H1).
    unfold Dict.getitem in Hg. rewrite Hglt in Hg. injection Hg as <-.
    unfold run in H1. rewrite bind_seek_set in H1 by lia.
    destruct (Fof.read_groups f glt (Z.to_nat n) group acc (4 * 4))
      as [[[acc2 group2] pos']|] eqn:Eg; [|discriminate].
    injection H1 as <- <-.
    apply read_groups_inv in Eg as (L & G & Hacc2); [|exact Hlen|exact Hacc].
    destruct (IH _ _ _ _ L Hacc2 H) as (L' & G' & Hacc').
    split; [exact L'|]. split; [|exact Hacc'].
    rewrite G', G. cbn [map sumZ fold_right].
    destruct (nth_error ngroups_l i) as [n'|] eqn:En; [|discriminate].
    injection Hn as ->. rewrite (nth_error_nth _ _ 0 En).
    unfold sumZ. lia.
Qed.

Lemma sum_over_positions (l : list Z) (s : nat) (pre : list Z) :
  List.length pre = s ->
  sumZ (map (fun i => Z.max 0 (nth i (pre ++ l) 0)) (seq s (List.length l)))
  = group_total l.
Proof.
  revert s pre. induction l as [|x l IH]; intros s pre Hs; [reflexivity|].
  cbn [List.length seq map].
  change (group_total (x :: l)) with (Z.max 0 x + group_total l).
  change (sumZ (?a :: ?r)) with (a + sumZ r).
  rewrite app_nth2 by lia. rewrite Hs, Nat.sub_diag. cbn [nth].
  f_equal.
  replace (pre ++ x :: l)%list with ((pre ++ [x]) ++ l)%list
    by (rewrite <- app_assoc; reflexivity).
  apply IH. rewrite length_app. cbn. lia.
Qed.

(** What a successful [Fof.__init__] has read. *)
Lemma fof_init_inv (tab idf : nat -> option file) (obj : Fof.t) :
  Fof.__init__ tab idf = Ok obj ->
  List.length (Fof.ngroups obj) = Z.to_nat (Fof.ntask obj)
  /\ List.length (Fof.nids obj) = Z.to_nat (Fof.ntask obj)
  /\ 0 < group_total (Fof.ngroups obj)
  /\ (forall key, In key Fof.array_keys ->
        exists d, Dict.get (Fof.arrays obj) key = Some d
                  /\ Z.of_nat (List.length d)
                     = group_total (Fof.ngroups obj) * group_cells key)
  /\ exists glt,
       Dict.get (Fof.arrays obj) "grouplentype" = Some glt
       /\ Z.of_nat (List.length (Fof.ids obj)) = group_total (Fof.ngroups obj)
       /\ forall g d, nth_error (Fof.ids obj) g = Some d ->
                      group_ids_ok glt g d.
Proof.
  unfold Fof.__init__. intros H.
  apply rbind_inv in H as ([tot ntask] & _ & H).
  apply rbind_inv in H as ([[gl nl] attrs] & Hc & H).
  apply rbind_inv in H as (ids & Hids & H). injection H as <-.
  cbn [Fof.ngroups Fof.nids Fof.ntask Fof.arrays Fof.ids].
  destruct (fof_load_catalogue_inv tab ntask gl nl attrs Hc)
    as (Lg & Ln & Hpos & Harr).
  split; [exact Lg|]. split; [exact Ln|]. split; [exact Hpos|].
  split; [exact Harr|].
  destruct (Harr "grouplentype" ltac:(in_list)) as (glt & Hglt & _).
  exists glt. split; [exact Hglt|].
  unfold Fof._load_ids in Hids.
  apply rbind_inv in Hids as ([acc group] & Hloop & Hids).
  injection Hids as ->.
  apply (fof_load_ids_loop idf gl attrs glt _ Hglt [] 0%nat) in Hloop
    as (L & G & Hacc); [|reflexivity|intros [|g] d E; discriminate E].
  split; [|exact Hacc].
  pose proof (sum_over_positions gl 0 [] eq_refl) as Hsum.
  cbn [app] in Hsum. rewrite Lg in Hsum. rewrite L, G, Hsum. lia.
Qed.

(** X17. A loaded FOF catalogue holds the groups of all its fragments: there is
    one group count and one identifier count per fragment, at least one
    group in all, and every per-group array holds, for each group of each
    fragment that declares groups, as many items as its shape gives a
    group: one for [grouplen], [groupoffset] and [groupsfr], six for
    [grouplentype] and [groupmasstype], three for [groupcm]. *)
Theorem fof_catalogue_shape (tab idf : nat -> option file) (obj : Fof.t) :
  Fof.__init__ tab idf = Ok obj ->
  List.length (Fof.ngroups obj) = Z.to_nat (Fof.ntask obj)
  /\ List.length (Fof.nids obj) = Z.to_nat (Fof.ntask obj)
  /\ 0 < group_total (Fof.ngroups obj)
  /\ forall key, In key Fof.array_keys ->
       exists d, Dict.get (Fof.arrays obj) key = Some d
                 /\ Z.of_nat (List.length d)
                    = group_total (Fof.ngroups obj) * group_cells key.
Proof.
  intros H. destruct (fof_init_inv tab idf obj H) as (A & B & C & D & _).
  repeat split; assumption.
Qed.


Lemma fof_catalogue_shape_witness :
  List.length (Fof.ngroups one_group_catalogue)
  = Z.to_nat (Fof.ntask one_group_catalogue)
  /\ List.length (Fof.nids one_group_catalogue)
     = Z.to_nat (Fof.ntask one_group_catalogue)
  /\ 0 < group_total (Fof.ngroups one_group_catalogue)
  /\ forall key, In key Fof.array_keys ->
       exists d, Dict.get (Fof.arrays one_group_catalogue) key = Some d
                 /\ Z.of_nat (List.length d)
                    = group_total (Fof.ngroups one_group_catalogue)
                      * group_cells key.
Proof.
  apply (fof_catalogue_shape (fragments [one_group_tab])
           (fragments [one_group_ids])).
  vm_compute. reflexivity.
Defined.


(** ** Snapshots in several files *)

Lemma init_flags (f : file) (pot accel endt tstp skip longids : bool)
  (self : Simulation) :
  __init__ f pot accel endt tstp skip longids = Ok self ->
  constructor_flags pot accel endt tstp (flags self).
Proof.
  unfold __init__. intros H.
  apply rbind_inv in H as (self1 & Hh & H).
  assert (self1 = self) as ->.
  { destruct (negb skip); [|injection H as <-; reflexivity].
    apply rbind_inv in H as (u & _ & H). injection H as <-. reflexivity. }
  pose proof (read_header_ready _ _ _ Hh) as Hr.
  destruct (read_header_inv _ _ _ Hr Hh)
    as (_ & _ & _ & _ & s & bs & -> & _).
  unfold constructor_flags, set_block_sizes, header_of, new_simulation.
  cbn [flags Dict.set String.eqb Ascii.eqb Bool.eqb].
  repeat eexists.
Qed.

Lemma set_flags_self (self : Simulation) : set_flags self (flags self) = self.
Proof. destruct self. reflexivity. Qed.

Lemma header_of_set_flags (f : file) (self : Simulation) (s : endian)
  (pot accel endt tstp : bool) (fl fl' : Dict.t Z) :
  constructor_flags pot accel endt tstp fl ->
  constructor_flags pot accel endt tstp fl' ->
  header_of f (set_flags self fl) s = header_of f (set_flags self fl') s
  /\ constructor_flags pot accel endt tstp
       (flags (header_of f (set_flags self fl) s)).
Proof.
  intros (a1 & a2 & a3 & a4 & a5 & a6 & ->)
         (b1 & b2 & b3 & b4 & b5 & b6 & ->).
  unfold header_of, set_flags, constructor_flags.
  cbn [flags use_longids block_sizes Dict.set String.eqb Ascii.eqb Bool.eqb].
  split; [reflexivity | repeat eexists].
Qed.

Lemma read_header_set_flags (f : file) (self : Simulation)
  (pot accel endt tstp : bool) (fl fl' : Dict.t Z) :
  constructor_flags pot accel endt tstp fl ->
  constructor_flags pot accel endt tstp fl' ->
  _read_header f (set_flags self fl) = _read_header f (set_flags self fl')
  /\ forall snap', _read_header f (set_flags self fl) = Ok snap' ->
       constructor_flags pot accel endt tstp (flags snap').
Proof.
  intros H1 H2.
  assert (E : run (_read_header_io f (set_flags self fl))
              = run (_read_header_io f (set_flags self fl'))).
  { rewrite !read_header_io_spec.
    rewrite (proj1 (header_of_set_flags f self Big _ _ _ _ _ _ H1 H2)).
    rewrite (proj1 (header_of_set_flags f self Little _ _ _ _ _ _ H1 H2)).
    reflexivity. }
  split.
  - unfold _read_header. rewrite E. reflexivity.
  - intros snap' H.
    pose proof (read_header_ready _ _ _ H) as Hr.
    destruct (read_header_inv _ _ _ Hr H)
      as (_ & _ & _ & _ & s & bs & -> & _).
    exact (proj2 (header_of_set_flags f self s _ _ _ _ _ _ H1 H2)).
Qed.

Lemma read_block_set_flags (f : file) (self : Simulation)
  (pot accel endt tstp : bool) (fl fl' : Dict.t Z)
  (block_type particle_type : string) :
  constructor_flags pot accel endt tstp fl ->
  constructor_flags pot accel endt tstp fl' ->
  read_block f (set_flags self fl) block_type particle_type
  = read_block f (set_flags self fl') block_type particle_type.
Proof.
  intros H1 H2. unfold read_block, read_block_body. cbv zeta.
  rewrite (proj1 (read_header_set_flags f self _ _ _ _ _ _ H1 H2)).
  reflexivity.
Qed.

Lemma iter_fragments_spec (fs : filesystem) (obj : Snapshot.t)
  (pot accel endt tstp : bool) (block_type particle_type : string)
  (l : list nat) :
  constructor_flags pot accel endt tstp (flags (Snapshot.self obj)) ->
  forall shared,
    constructor_flags pot accel endt tstp shared ->
    Snapshot.iter_fragments fs obj block_type particle_type shared l
    = until_error
        (map (fun i =>
                rbind (open_rb fs (Snapshot.basename obj ++ "." ++ fmt_d i))
                      (fun f => read_block f (Snapshot.self obj)
                                  block_type particle_type)) l).
Proof.
  intros Hself. induction l as [|i l IH]; intros shared Hsh; [reflexivity|].
  cbn [Snapshot.iter_fragments map until_error].
  destruct (open_rb fs (Snapshot.basename obj ++ "." ++ fmt_d i)) as [f|e];
    cbn [rbind]; [|reflexivity].
  rewrite (read_block_set_flags f (Snapshot.self obj) _ _ _ _ shared
             (flags (Snapshot.self obj)) _ _ Hsh Hself).
  rewrite set_flags_self.
  destruct (read_block f (Snapshot.self obj) block_type particle_type)
    as [block|e] eqn:Eb; [|reflexivity].
  f_equal. apply IH.
  destruct (_read_header f (set_flags (Snapshot.self obj) shared))
    as [snap'|e] eqn:Eh; [|exact Hsh].
  exact (proj2 (read_header_set_flags f (Snapshot.self obj) _ _ _ _ shared
                  shared Hsh Hsh) snap' Eh).
Qed.

(** X19. On an object built by the constructor, [read_block_iter] yields, for
    i = 0, 1, ... below the number of files of the header, what
    [read_block] returns for the object on the file [basename.i], in this
    order, and ends with the first exception. The header flags that each
    fragment read leaves in the flag dictionary shared with the object do
    not change what the later fragments give. *)
Theorem read_block_iter_reads_each_fragment
  (fs : filesystem) (name : string)
  (pot accel endt tstp multiple_files skip_file_check use_longids : bool)
  (obj : Snapshot.t) (block_type particle_type : string) :
  Snapshot.__init__ fs name pot accel endt tstp multiple_files
    skip_file_check use_longids = Ok obj ->
  Snapshot.read_block_iter fs obj block_type particle_type
  = until_error
      (map (fun i =>
              rbind (open_rb fs (name ++ "." ++ fmt_d i))
                    (fun f => read_block f (Snapshot.self obj)
                                block_type particle_type))
           (seq 0 (Z.to_nat (file_number (Snapshot.self obj))))).
Proof.
  intros H. unfold Snapshot.__init__ in H.
  apply rbind_inv in H as (f & _ & H).
  apply rbind_inv in H as (self & Hinit & H). injection H as <-.
  unfold Snapshot.read_block_iter.
  pose proof (init_flags _ _ _ _ _ _ _ _ Hinit) as Hfl.
  exact (iter_fragments_spec fs (Snapshot.mk name
           (if multiple_files then name ++ ".0" else name) multiple_files self)
           pot accel endt tstp _ _ _ Hfl _ Hfl).
Qed.

Lemma read_block_iter_reads_each_fragment_witness :
  Snapshot.read_block_iter scenario_fs scenario_snapshot "pos" "stars"
  = until_error
      (map (fun i =>
              rbind (open_rb scenario_fs ("snap" ++ "." ++ fmt_d i))
                    (fun f => read_block f (Snapshot.self scenario_snapshot)
                                "pos" "stars"))
           (seq 0 (Z.to_nat (file_number (Snapshot.self scenario_snapshot))))).
Proof.
  apply (read_block_iter_reads_each_fragment scenario_fs "snap"
           false false false false true false false).
  vm_compute. reflexivity.
Defined.

Lemma append_length (a b : string) :
  String.length (a ++ b) = (String.length a + String.length b)%nat.
Proof.
  induction a as [|c a IH]; cbn [append String.length]; [reflexivity|].
  rewrite IH. reflexivity.
Qed.

(** X20. [read_block_iter] opens the numbered files [name.0], [name.1], ...
    below the number of files of the header and no other: what it yields is
    the same in every file system that agrees on these files, whatever the
    file [name] itself holds. So on an object built without
    [multiple_files] from the single file [name], whose header declares at
    least one file, it ends with [IOError] at its first step when [name.0]
    does not exist; on an object built with [multiple_files] its first
    result is [read_block] on the file the constructor read. *)
Theorem read_block_iter_opens_numbered_files_only
  (fs : filesystem) (name : string)
  (pot accel endt tstp multiple_files skip_file_check use_longids : bool)
  (obj : Snapshot.t) (block_type particle_type : string) :
  Snapshot.__init__ fs name pot accel endt tstp multiple_files
    skip_file_check use_longids = Ok obj ->
  (forall fs' : filesystem,
     (forall i, (i < Z.to_nat (file_number (Snapshot.self obj)))%nat ->
        fs' (name ++ "." ++ fmt_d i) = fs (name ++ "." ++ fmt_d i)) ->
     Snapshot.read_block_iter fs' obj block_type particle_type
     = Snapshot.read_block_iter fs obj block_type particle_type)
  /\ (forall g : option file,
        Snapshot.read_block_iter
          (fun n => if String.eqb n name then g else fs n)
          obj block_type particle_type
        = Snapshot.read_block_iter fs obj block_type particle_type)
  /\ (multiple_files = false -> fs (name ++ ".0") = None ->
      0 < file_number (Snapshot.self obj) ->
      Snapshot.read_block_iter fs obj block_type particle_type
      = [Err IOError])
  /\ (multiple_files = true -> 0 < file_number (Snapshot.self obj) ->
      exists f,
        fs (name ++ ".0") = Some f
        /\ __init__ f pot accel endt tstp skip_file_check use_longids
           = Ok (Snapshot.self obj)
        /\ hd_error (Snapshot.read_block_iter fs obj block_type particle_type)
           = Some (read_block f (Snapshot.self obj) block_type
                     particle_type)).
Proof.
  intros H. unfold Snapshot.__init__ in H.
  apply rbind_inv in H as (f & Hf & H).
  apply rbind_inv in H as (self & Hinit & H). injection H as <-.
  pose proof (init_flags _ _ _ _ _ _ _ _ Hinit) as Hfl.
  cbn [Snapshot.self].
  set (obj := Snapshot.mk name
                (if multiple_files then name ++ ".0" else name)
                multiple_files self).
  assert (Hspec : forall fs0 : filesystem,
            Snapshot.read_block_iter fs0 obj block_type particle_type
            = until_error
                (map (fun i =>
                        rbind (open_rb fs0 (name ++ "." ++ fmt_d i))
                              (fun f => read_block f self block_type
                                          particle_type))
                     (seq 0 (Z.to_nat (file_number self))))).
  { intros fs0. unfold Snapshot.read_block_iter.
    exact (iter_fragments_spec fs0 obj pot accel endt tstp _ _ _ Hfl _ Hfl). }
  split; [|split; [|split]].
  - intros fs' Hagree. rewrite !Hspec. f_equal.
    apply map_ext_in. intros i Hi. apply in_seq in Hi.
    unfold open_rb. rewrite Hagree by lia. reflexivity.
  - intros g. rewrite !Hspec. f_equal. apply map_ext. intros i.
    unfold open_rb.
    destruct (String.eqb_spec (name ++ "." ++ fmt_d i) name) as [E|];
      [|reflexivity].
    exfalso. apply (f_equal String.length) in E.
    rewrite !append_length in E. cbn [String.length] in E. lia.
  - intros _ Hnone Hpos. rewrite Hspec.
    destruct (Z.to_nat (file_number self)) as [|n] eqn:En; [lia|].
    cbn [seq map]. unfold open_rb at 1.
    change (name ++ "." ++ fmt_d 0) with (name ++ ".0").
    rewrite Hnone. reflexivity.
  - intros -> Hpos. exists f.
    assert (Hfs : fs (name ++ ".0") = Some f).
    { unfold open_rb in Hf. destruct (fs (name ++ ".0"));
        [injection Hf as ->; reflexivity | discriminate]. }
    split; [exact Hfs|]. split; [exact Hinit|].
    rewrite Hspec.
    destruct (Z.to_nat (file_number self)) as [|n] eqn:En; [lia|].
    cbn [seq map]. unfold open_rb at 1.
    change (name ++ "." ++ fmt_d 0) with (name ++ ".0").
    rewrite Hfs. cbn [rbind].
    destruct (read_block f self block_type particle_type); reflexivity.
Qed.

Lemma read_block_iter_opens_numbered_files_only_witness :
  (forall g : option file,
     Snapshot.read_block_iter
       (fun n => if String.eqb n "snap" then g else scenario_fs n)
       scenario_snapshot "pos" "stars"
     = Snapshot.read_block_iter scenario_fs scenario_snapshot "pos" "stars")
  /\ exists f,
       scenario_fs "snap.0" = Some f
       /\ hd_error (Snapshot.read_block_iter scenario_fs scenario_snapshot
                      "pos" "stars")
          = Some (read_block f (Snapshot.self scenario_snapshot)
                    "pos" "stars").
Proof.
  destruct (read_block_iter_opens_numbered_files_only scenario_fs "snap"
              false false false false true false false scenario_snapshot
              "pos" "stars" ltac:(vm_compute; reflexivity))
    as (_ & Hg & _ & Hfirst).
  split; [exact Hg|].
  destruct (Hfirst eq_refl ltac:(vm_compute; reflexivity))
    as (f & Hf & _ & Hhd).
  exists f. split; [exact Hf | exact Hhd].
Defined.

(** ** The catalogue methods that read a snapshot *)

Lemma obind_returns {A B} (m : outcome A) (k : A -> outcome B) (b : B) :
  obind m k = Returns b -> exists a, m = Returns a /\ k a = Returns b.
Proof. destruct m as [a|x]; cbn [obind]; [eauto | discriminate]. Qed.

Lemma of_result_returns {A} (r : result A) (a : A) :
  of_result r = Returns a -> r = Ok a.
Proof.
  destruct r; cbn [of_result]; intros H; [injection H as ->; reflexivity|].
  discriminate.
Qed.

Lemma py_getitem_In {A} (l : list A) (i : Z) (x : A) :
  py_getitem l i = Ok x -> In x l.
Proof.
  unfold py_getitem, getidx.
  destruct ((0 <=? _) && (_ <? _)); [|discriminate].
  destruct (nth_error l _) as [y|] eqn:E; [|discriminate].
  intros H. injection H as <-. exact (nth_error_In _ _ E).
Qed.

(** X21. [Subfind.read_block_by_subhalo] is [read_block] on the associated
    snapshot followed by the identifier filter with the run of the subhalo:
    when it returns, the block was read, the subhalo number (counted from
    the end when negative) is within [ids], every labelled row of the
    result is a row of the block whose label is an identifier of the
    subhalo, and the sorter returned is the one given, or the argsort of
    the identifiers of the block when none was given. Without a snapshot
    it raises [AttributeError]. *)
Theorem read_block_by_subhalo_rows
  (obj : Subfind.t) (snap : option (file * Simulation))
  (block_type particle_type : string) (subhalo : Z) (sorter : list nat) :
  (forall fb sorter',
     read_block_by_subhalo obj snap block_type particle_type subhalo sorter
     = Returns (fb, sorter') ->
     exists f self block sub_ids,
       snap = Some (f, self)
       /\ read_block f self block_type particle_type = Ok block
       /\ py_getitem (Subfind.ids obj) subhalo = Ok sub_ids
       /\ In sub_ids (Subfind.ids obj)
       /\ (forall id row, In (id, row) (pd_frame fb) ->
             In id sub_ids /\ In (id, row) (pd_frame block))
       /\ sorter' = (if (List.length sorter =? 0)%nat
                     then argsort (pd_index block) else sorter))
  /\ (snap = None ->
      exists msg,
        read_block_by_subhalo obj snap block_type particle_type subhalo sorter
        = Raises (AttributeError msg)).
Proof.
  split.
  - intros fb sorter' H. unfold read_block_by_subhalo in H.
    apply obind_returns in H as ([f self] & Hs & H).
    apply obind_returns in H as (block & Hb & H).
    apply obind_returns in H as (sub_ids & Hi & H).
    apply of_result_returns in Hb, Hi, H.
    destruct snap as [[f' self']|]; [|discriminate].
    cbn [snap_method] in Hs. injection Hs as -> ->.
    destruct (filter_bloc_sound block sub_ids sorter fb sorter' H)
      as [Hrows Hsorter].
    exists f, self, block, sub_ids.
    split; [reflexivity|]. split; [exact Hb|]. split; [exact Hi|].
    split; [exact (py_getitem_In _ _ _ Hi)|].
    split; [|exact Hsorter].
    intros id row Hin. destruct (Hrows id row Hin) as (A & B & _).
    split; assumption.
  - intros ->. eexists. reflexivity.
Qed.

Lemma read_block_by_subhalo_rows_witness :
  exists f self block sub_ids,
    Some (scenario_file, scenario_header) = Some (f, self)
    /\ read_block f self "pos" "gas" = Ok block
    /\ py_getitem (Subfind.ids two_subhalo_catalogue) 0 = Ok sub_ids
    /\ In sub_ids (Subfind.ids two_subhalo_catalogue)
    /\ (forall id row, In (id, row) (pd_frame (fst subhalo_zero_gas)) ->
          In id sub_ids /\ In (id, row) (pd_frame block))
    /\ snd subhalo_zero_gas
       = (if (List.length (@nil nat) =? 0)%nat
          then argsort (pd_index block) else []).
Proof.
  destruct (read_block_by_subhalo_rows two_subhalo_catalogue
              (Some (scenario_file, scenario_header)) "pos" "gas" 0 [])
    as [H _].
  apply (H (fst subhalo_zero_gas) (snd subhalo_zero_gas)).
  vm_compute. reflexivity.
Defined.

(** X22. [Fof.read_block_by_group] looks the group and the particle type up in
    [ids] before it touches the snapshot: a group number outside [ids]
    raises [IndexError] and a particle type the entry of the group does not
    hold raises [KeyError], with or without a snapshot. When it returns,
    the block was read from the snapshot and every labelled row of the
    result is a row of the block whose label is one of the identifiers of
    the group for the particle type. *)
Theorem read_block_by_group_rows
  (obj : Fof.t) (snap : option (file * Simulation))
  (block_type particle_type : string) (group : Z) :
  (forall r,
     read_block_by_group obj snap block_type particle_type group = Returns r ->
     exists group_ids ids f self block,
       py_getitem (Fof.ids obj) group = Ok group_ids
       /\ Dict.get group_ids particle_type = Some ids
       /\ snap = Some (f, self)
       /\ read_block f self block_type particle_type = Ok block
       /\ forall id row, In (id, row) (pd_frame r) ->
            In id ids /\ In (id, row) (pd_frame block))
  /\ (forall e, py_getitem (Fof.ids obj) group = Err e ->
        read_block_by_group obj snap block_type particle_type group
        = Raises (Exception e))
  /\ (forall group_ids,
        py_getitem (Fof.ids obj) group = Ok group_ids ->
        Dict.get group_ids particle_type = None ->
        read_block_by_group obj snap block_type particle_type group
        = Raises (Exception (KeyError particle_type))).
Proof.
  split; [|split].
  - intros r H. unfold read_block_by_group in H.
    apply obind_returns in H as (group_ids & Hg & H).
    apply obind_returns in H as (ids & Hi & H).
    apply obind_returns in H as ([f self] & Hs & H).
    apply of_result_returns in Hg, Hi, H.
    destruct snap as [[f' self']|]; [|discriminate].
    cbn [snap_method] in Hs. injection Hs as -> ->.
    destruct (filter_by_ids_sound f self _ _ ids r H) as (block & Hb & Hrows).
    exists group_ids, ids, f, self, block.
    split; [exact Hg|]. split.
    { unfold Dict.getitem in Hi.
      destruct (Dict.get group_ids particle_type);
        [injection Hi as ->; reflexivity | discriminate]. }
    split; [reflexivity|]. split; [exact Hb|].
    intros id row Hin. destruct (Hrows id row Hin) as (A & B & _).
    split; assumption.
  - intros e He. unfold read_block_by_group. rewrite He. reflexivity.
  - intros group_ids Hg Hnone. unfold read_block_by_group, Dict.getitem.
    rewrite Hg. cbn [of_result obind]. rewrite Hnone. reflexivity.
Qed.

Lemma read_block_by_group_rows_witness :
  (exists group_ids ids f self block,
     py_getitem (Fof.ids one_group_catalogue) 0 = Ok group_ids
     /\ Dict.get group_ids "gas" = Some ids
     /\ Some (scenario_file, scenario_header) = Some (f, self)
     /\ read_block f self "pos" "gas" = Ok block
     /\ forall id row, In (id, row) (pd_frame group_zero_gas) ->
          In id ids /\ In (id, row) (pd_frame block))
  /\ read_block_by_group one_group_catalogue None "pos" "gas" 1
     = Raises (Exception IndexError).
Proof.
  split.
  - destruct (read_block_by_group_rows one_group_catalogue
                (Some (scenario_file, scenario_header)) "pos" "gas" 0)
      as [H _].
    apply (H group_zero_gas). vm_compute. reflexivity.
  - destruct (read_block_by_group_rows one_group_catalogue None
                "pos" "gas" 1) as (_ & H & _).
    apply H. vm_compute. reflexivity.
Defined.

Lemma mass_inside_loop_returns (obj : Subfind.t)
  (snap : option (file * Simulation)) (subhalo : Z) (keys : list string) :
  mass_inside_loop obj snap subhalo keys = Returns tt ->
  forall key, In key keys ->
    exists k, read_block_by_subhalo obj snap "pos" key subhalo []
              = Raises (Exception (KeyError k)).
Proof.
  induction keys as [|key0 keys IH]; intros H key Hin; [destruct Hin|].
  cbn [mass_inside_loop] in H.
  apply obind_returns in H as ([] & H0 & H).
  destruct Hin as [<-|Hin]; [|exact (IH H key Hin)].
  unfold mass_inside_key in H0.
  destruct (read_block_by_subhalo obj snap "pos" key0 subhalo [])
    as [p|[e|msg]]; try discriminate.
  destruct e; try discriminate. eexists. reflexivity.
Qed.

(** X23. Two callers take the pair (table, sorter) that the filters return for
    the table itself, and so never deliver a computed result.
    [Subfind.mass_inside_radius] returns only when, for every particle type
    asked for, reading the positions of the subhalo raised [KeyError], and
    then returns the dictionary with the single entry 'total': 0; when the
    positions of the first type asked for are read successfully it raises
    (the [AttributeError] of the pair, unless the subhalo lookup raised
    before). [bounding_box] never returns. *)
Theorem pair_taken_for_a_table :
  (forall obj snap radius subhalo keys d,
     mass_inside_radius obj snap radius subhalo keys = Returns d ->
     d = [("total", 0)]
     /\ forall key, In key keys ->
          exists k, read_block_by_subhalo obj snap "pos" key subhalo []
                    = Raises (Exception (KeyError k)))
  /\ (forall obj snap radius subhalo key keys p,
        read_block_by_subhalo obj snap "pos" key subhalo [] = Returns p ->
        exists x, mass_inside_radius obj snap radius subhalo (key :: keys)
                  = Raises x)
  /\ (forall block_pos ids sorter padding b,
        bounding_box block_pos ids sorter padding <> Returns b).
Proof.
  split; [|split].
  - intros obj snap radius subhalo keys d H. unfold mass_inside_radius in H.
    apply obind_returns in H as (subpos & _ & H).
    apply obind_returns in H as (cm & _ & H).
    apply obind_returns in H as ([] & Hloop & H).
    injection H as <-. split; [reflexivity|].
    exact (mass_inside_loop_returns obj snap subhalo keys Hloop).
  - intros obj snap radius subhalo key keys p Hp.
    unfold mass_inside_radius.
    destruct (Dict.get (Subfind.arrays obj) "subpos") as [subpos|];
      cbn [obind]; [|eexists; reflexivity].
    destruct (py_getitem _ subhalo) as [cm|e]; cbn [of_result obind];
      [|eexists; reflexivity].
    cbn [mass_inside_loop]. unfold mass_inside_key. rewrite Hp.
    cbn [obind]. eexists. reflexivity.
  - intros block_pos ids sorter padding b. unfold bounding_box.
    destruct (filter_bloc_by_ids block_pos ids sorter) as [p|e];
      cbn [of_result obind]; discriminate.
Qed.

Lemma pair_taken_for_a_table_witness :
  ([("total", 0)] = [("total", 0)]
   /\ forall key, In key ["stars"] ->
        exists k, read_block_by_subhalo two_subhalo_catalogue
                    (Some (scenario_file, scenario_header)) "pos" key 0 []
                  = Raises (Exception (KeyError k)))
  /\ exists x, mass_inside_radius two_subhalo_catalogue
                 (Some (scenario_file, scenario_header)) 0 0 ["gas"; "stars"]
               = Raises x.
Proof.
  destruct pair_taken_for_a_table as (H1 & H2 & _).
  split.
  - apply (H1 two_subhalo_catalogue (Some (scenario_file, scenario_header))
             0 0 ["stars"]).
    vm_compute. reflexivity.
  - apply (H2 two_subhalo_catalogue (Some (scenario_file, scenario_header))
             0 0 "gas" ["stars"] subhalo_zero_gas).
    vm_compute. reflexivity.
Defined.

(** ** The memoization decorator *)

Section Memoize.
Variables A B : Type.
Variable eqb : A -> A -> bool.
Hypothesis eqb_spec : forall x y, eqb x y = true <-> x = y.
Variable func : A -> result B.

Lemma eqb_refl_memo (a : A) : eqb a a = true.
Proof. apply eqb_spec. reflexivity. Qed.

Lemma eqb_neq_memo (a b : A) : a <> b -> eqb a b = false.
Proof.
  intros H. destruct (eqb a b) eqn:E; [|reflexivity].
  apply eqb_spec in E. contradiction.
Qed.

Lemma cache_get_set (cache : list (A * B)) (k a : A) (v : B) :
  cache_get eqb (cache_set eqb cache k v) a
  = if eqb a k then Some v else cache_get eqb cache a.
Proof.
  unfold cache_get.
  induction cache as [|[k0 w] cache IH]; cbn [cache_set find fst snd].
  - destruct (eqb a k); reflexivity.
  - destruct (eqb k k0) eqn:E; cbn [find fst snd].
    + apply eqb_spec in E. subst k0. destruct (eqb a k); reflexivity.
    + destruct (eqb a k0) eqn:E0; cbn [snd].
      * destruct (eqb a k) eqn:E1; [|reflexivity].
        apply eqb_spec in E0, E1. subst. rewrite eqb_refl_memo in E.
        discriminate.
      * exact IH.
Qed.

Lemma calls_with_app (a : A) (l1 l2 : list A) :
  calls_with eqb a (l1 ++ l2)
  = (calls_with eqb a l1 + calls_with eqb a l2)%nat.
Proof. unfold calls_with. rewrite filter_app, length_app. reflexivity. Qed.

Lemma wrap_sound (st : list (A * B) * list A) (args : A) :
  cache_sound eqb func st ->
  fst (wrap eqb func st args) = func args
  /\ cache_sound eqb func (snd (wrap eqb func st args))
  /\ (forall a, In a (snd (snd (wrap eqb func st args))) ->
                In a (snd st) \/ a = args).
Proof.
  destruct st as [cache calls]. intros [Hc Ht]. cbn [fst snd] in *.
  unfold wrap. destruct (cache_get eqb cache args) as [v|] eqn:Eg.
  - cbn [fst snd]. split; [symmetry; exact (Hc args v Eg)|].
    split; [split; assumption|]. intros a Ha. left. exact Ha.
  - destruct (func args) as [v|e] eqn:Ef; cbv zeta; cbn [fst snd].
    + rewrite cache_get_set, eqb_refl_memo. split; [reflexivity|].
      split; [split; cbn [fst snd]|].
      * intros a w. rewrite cache_get_set.
        destruct (eqb a args) eqn:E; [|apply Hc].
        apply eqb_spec in E. subst a. intros H. injection H as <-. exact Ef.
      * intros a w Ha. rewrite calls_with_app, cache_get_set, (Ht a w Ha).
        unfold calls_with. cbn [filter].
        destruct (eqb a args) eqn:E; cbn [List.length].
        -- apply eqb_spec in E. subst a. rewrite Eg. reflexivity.
        -- destruct (cache_get eqb cache a); lia.
      * intros a Ha. apply in_app_or in Ha as [Ha|[<-|[]]]; auto.
    + split; [reflexivity|]. split; [split; cbn [fst snd]|].
      * exact Hc.
      * intros a w Ha. rewrite calls_with_app, (Ht a w Ha).
        unfold calls_with. cbn [filter].
        destruct (eqb a args) eqn:E; cbn [List.length]; [|lia].
        apply eqb_spec in E. subst a. rewrite Ef in Ha. discriminate.
      * intros a Ha. apply in_app_or in Ha as [Ha|[<-|[]]]; auto.
Qed.

Lemma wrap_all_sound (l : list A) :
  forall st, cache_sound eqb func st ->
    fst (wrap_all eqb func st l) = map func l
    /\ cache_sound eqb func (snd (wrap_all eqb func st l))
    /\ (forall a, In a (snd (snd (wrap_all eqb func st l))) ->
                  In a (snd st) \/ In a l).
Proof.
  induction l as [|args l IH]; intros st Hst.
  - cbn. split; [reflexivity|]. split; [exact Hst|]. intros a Ha. left.
    exact Ha.
  - cbn [wrap_all map].
    destruct (wrap_sound st args Hst) as (Hr & Hs & Hcalls).
    destruct (wrap eqb func st args) as [r st'] eqn:Ew. cbn [fst snd] in *.
    destruct (IH st' Hs) as (Hrs & Hs' & Hcalls').
    destruct (wrap_all eqb func st' l) as [rs st''] eqn:Ea.
    cbn [fst snd] in *. subst r rs.
    split; [reflexivity|]. split; [exact Hs'|].
    intros a Ha. destruct (Hcalls' a Ha) as [H|H]; [|right; right; exact H].
    destruct (Hcalls a H) as [H'|E]; [left; exact H'|right; left; symmetry; exact E].
Qed.

(** X24. For a function whose outcome depends on its arguments only, called any
    number of times through [memoize] starting from the empty cache: every
    call gives what the function itself gives for the arguments, the
    function is called at most once with arguments for which it returns
    (an exception is not cached, so it is called again), and only with
    arguments the wrapper was called with. *)
Theorem memoize_calls_once (l : list A) :
  fst (wrap_all eqb func ([], []) l) = map func l
  /\ (forall a v, func a = Ok v ->
        (calls_with eqb a (snd (snd (wrap_all eqb func ([], []) l))) <= 1)%nat)
  /\ (forall a, In a (snd (snd (wrap_all eqb func ([], []) l))) -> In a l).
Proof.
  assert (H0 : cache_sound eqb func ([], [])).
  { split; [intros a v H; discriminate H|]. intros a v _. reflexivity. }
  destruct (wrap_all_sound l ([], []) H0) as (Hr & [_ Ht] & Hc).
  split; [exact Hr|]. split.
  - intros a v Ha. rewrite (Ht a v Ha).
    destruct (cache_get eqb _ a); lia.
  - intros a Ha. destruct (Hc a Ha) as [[]|H]. exact H.
Qed.

End Memoize.

Lemma memoize_calls_once_witness :
  fst (wrap_all Z.eqb (fun z => if z =? 0 then Err IndexError else Ok (z * z))
         ([], []) [2; 0; 2; 0; 3])
  = map (fun z => if z =? 0 then Err IndexError else Ok (z * z))
        [2; 0; 2; 0; 3]
  /\ snd (snd (wrap_all Z.eqb
                 (fun z => if z =? 0 then Err IndexError else Ok (z * z))
                 ([], []) [2; 0; 2; 0; 3]))
     = [2; 0; 0; 3].
Proof.
  split.
  - apply (memoize_calls_once Z Z Z.eqb Z.eqb_eq
             (fun z => if z =? 0 then Err IndexError else Ok (z * z))
             [2; 0; 2; 0; 3]).
  - reflexivity.
Defined.

(** ** The file check, both ways *)

Lemma present_span_cons (self : Simulation) (key : string)
  (keys : list string) :
  present_span self (key :: keys)
  = match Dict.get (block_sizes self) key with
    | Some size => if 0 <? size then size + 8 else 0
    | None => 0
    end + present_span self keys.
Proof. reflexivity. Qed.

Lemma present_span_nonneg (self : Simulation) (keys : list string) :
  0 <= present_span self keys.
Proof.
  induction keys as [|key keys IH]; [cbn; lia|].
  rewrite present_span_cons.
  destruct (Dict.get (block_sizes self) key) as [size|]; [|lia].
  destruct (Z.ltb_spec 0 size); lia.
Qed.

Lemma file_check_loop_ok (f : file) (self : Simulation) (keys : list string) :
  forall p, 0 <= p ->
    (forall pre key post size,
       keys = (pre ++ key :: post)%list ->
       Dict.get (block_sizes self) key = Some size -> 0 < size ->
       p + present_span self pre + size + 8 <= flen f
       /\ u32_at (swap self) f (p + present_span self pre) = size
       /\ u32_at (swap self) f (p + present_span self pre + 4 + size) = size) ->
    _file_check_loop f self keys p = Ok (tt, p + present_span self keys).
Proof.
  induction keys as [|key keys IH]; intros p Hp Hall.
  - cbn [_file_check_loop]. unfold ioret.
    change (present_span self []) with 0. rewrite Z.add_0_r. reflexivity.
  - cbn [_file_check_loop]. unfold iobind.
    rewrite file_check_block_spec by exact Hp.
    rewrite present_span_cons.
    assert (Hnext : forall q d,
              q = p + d -> 0 <= d ->
              d = match Dict.get (block_sizes self) key with
                  | Some size => if 0 <? size then size + 8 else 0
                  | None => 0
                  end ->
              _file_check_loop f self keys q
              = Ok (tt, p + (d + present_span self keys))).
    { intros q d -> Hd Ed.
      rewrite (IH (p + d)) by
        (first [lia
               | intros pre k post size E Hk Hs;
                 specialize (Hall (key :: pre) k post size
                               ltac:(rewrite E; reflexivity) Hk Hs);
                 rewrite present_span_cons, <- Ed in Hall;
                 replace (p + d + present_span self pre)
                   with (p + (d + present_span self pre)) by lia;
                 exact Hall]).
      f_equal. f_equal. lia. }
    destruct (Dict.get (block_sizes self) key) as [size|] eqn:Eg.
    + destruct (Z.ltb_spec 0 size) as [Hs|Hs].
      * destruct (Hall [] key keys size eq_refl Eg Hs) as (L & M1 & M2).
        change (present_span self []) with 0 in *.
        rewrite Z.add_0_r in *.
        destruct (Z.leb_spec (p + 4) (flen f)); [|lia].
        rewrite M1, Z.eqb_refl.
        destruct (Z.leb_spec (p + 4 + size + 4) (flen f)); [|lia].
        rewrite M2, Z.eqb_refl.
        apply (Hnext _ (size + 8)); lia.
      * apply (Hnext _ 0); lia.
    + apply (Hnext _ 0); lia.
Qed.

(** X25. The file check accepts a file exactly when every block that is present
    (entered in [block_sizes] with a size above zero) lies within the file
    with both its record markers equal to its size, at the position that
    the present blocks before it give it: it rejects no file that is laid
    out as the header says, and accepts no other. *)
Theorem file_check_accepts_exactly_the_layout
  (f : file) (self : Simulation) :
  _file_check f self = Ok tt
  <-> forall order key size,
        nth_error block_keys order = Some key ->
        Dict.get (block_sizes self) key = Some size -> 0 < size ->
        present_offset self order + size + 8 <= flen f
        /\ u32_at (swap self) f (present_offset self order) = size
        /\ u32_at (swap self) f (present_offset self order + 4 + size) = size.
Proof.
  split.
  - intros Hcheck order key size Hnth Hget Hpos.
    unfold _file_check, run in Hcheck.
    destruct (_file_check_loop f self block_keys 0) as [[[] p']|e] eqn:E;
      [|discriminate].
    destruct (file_check_loop_inv f self block_keys 0 p' ltac:(lia) E)
      as [_ Hall].
    destruct (nth_error_firstn_split _ _ _ Hnth) as [post Hsplit].
    specialize (Hall _ _ _ size Hsplit Hget Hpos).
    unfold present_offset. cbn [Z.add] in Hall. exact Hall.
  - intros Hall. unfold _file_check, run.
    rewrite (file_check_loop_ok f self block_keys 0 ltac:(lia));
      [reflexivity|].
    intros pre key post size E Hget Hpos.
    assert (Hnth : nth_error block_keys (List.length pre) = Some key).
    { rewrite E, nth_error_app2, Nat.sub_diag by lia. reflexivity. }
    assert (Hpre : firstn (List.length pre) block_keys = pre).
    { rewrite E, firstn_app, Nat.sub_diag, firstn_all. cbn [firstn].
      apply app_nil_r. }
    specialize (Hall _ key size Hnth Hget Hpos).
    unfold present_offset in Hall. rewrite Hpre in Hall.
    cbn [Z.add]. exact Hall.
Qed.

Lemma file_check_accepts_exactly_the_layout_witness :
  present_offset scenario_header 1 + 1920 + 8 <= flen scenario_file
  /\ u32_at (swap scenario_header) scenario_file
       (present_offset scenario_header 1) = 1920
  /\ u32_at (swap scenario_header) scenario_file
       (present_offset scenario_header 1 + 4 + 1920) = 1920.
Proof.
  apply (proj1 (file_check_accepts_exactly_the_layout scenario_file
                  scenario_header) ltac:(vm_compute; reflexivity)
           1%nat "pos" 1920);
    vm_compute; reflexivity.
Defined.
